(** * no-bulls-hit: the camera-based dart detection engine

    A shallow embedding of the scoring, tip-extraction, stillness and
    calibration code of the DartDetector component and of the manual board's
    score calculator.

    Conventions of the embedding.
    - JavaScript numbers that carry geometry (coordinates, distances, angles)
      are read as real numbers; IEEE rounding is not modelled.
    - Numbers that the code only compares or copies (mean differences, clock
      readings, contour moments) are rationals, so the state machine runs.
    - The tip loop, whose outcome on near ties depends on rounding, is given
      a second time over an arbitrary arithmetic (module [Numeric]), with
      the exact rationals and binary64 as instances.
    - Integer data (face values, multipliers, Int32 contour coordinates, frame
      dimensions) are in [Z].
    - An array read outside the array is [None] (JavaScript's [undefined]). *)

From Stdlib Require Import Reals Lqa Lra Lia ZArith List Bool String QArith Qabs.
From Stdlib Require Import Zfloor Qreals.
From Stdlib Require PrimFloat.
Import ListNotations.

(* ================================================================== *)
(** * Part I: definitions                                              *)
(* ================================================================== *)

(** ** The Math functions the code calls, over the reals *)

Module JS.

Local Open Scope R_scope.

(** [Math.atan2(y, x)]: the angle of the vector (x, y), in (-PI, PI]. *)
Definition atan2 (y x : R) : R :=
  if Rlt_dec 0 x then atan (y / x)
  else if Rlt_dec x 0 then
    if Rle_dec 0 y then atan (y / x) + PI else atan (y / x) - PI
  else if Rlt_dec 0 y then PI / 2
  else if Rlt_dec y 0 then - (PI / 2)
  else 0.

(** Rounding toward zero, the quotient behind the [%] operator. *)
Definition trunc (r : R) : Z :=
  if Rle_dec 0 r then Zfloor r else Zceil r.

(** [a % b] on numbers: the remainder takes the sign of the dividend. *)
Definition rem (a b : R) : R := a - b * IZR (trunc (a / b)).

(** [Math.floor]. *)
Definition floor (r : R) : Z := Zfloor r.

(** The comparison operators, as booleans. *)
Definition le (a b : R) : bool := if Rle_dec a b then true else false.
Definition lt (a b : R) : bool := if Rlt_dec a b then true else false.
Definition ge (a b : R) : bool := if Rge_dec a b then true else false.
Definition gt (a b : R) : bool := if Rgt_dec a b then true else false.

(** [a < b] and [a > b] on rationals. *)
Definition Qlt_bool (a b : Q) : bool := negb (Qle_bool b a).
Definition Qgt_bool (a b : Q) : bool := Qlt_bool b a.

(** [arr[i]] for a number [i] with an integer value. *)
Definition index {A : Type} (arr : list A) (i : Z) : option A :=
  if (i <? 0)%Z then None else nth_error arr (Z.to_nat i).

End JS.

(** ** Score Mapping of the detector (DartDetector.tsx) *)

(** The source's [Point = { x: number; y: number }], over the number
    representation [N] in use: reals for geometry, rationals for clicked
    calibration points, integers for contour pixels. *)
Record Point (N : Type) : Type := mkPoint { x : N; y : N }.
Arguments mkPoint {N} _ _.
Arguments x {N} _.
Arguments y {N} _.

Record Detection : Type := mkDetection { score : Z; confidence : Z }.

Definition CALIBRATION_TARGET_SIZE : Z := 500.
Definition CALIBRATION_POINTS_REQUIRED : nat := 4.

Definition segmentScores : list Z :=
  [20; 1; 18; 4; 13; 6; 10; 15; 2; 17;
   3; 19; 7; 16; 8; 11; 14; 9; 12; 5]%Z.

Record Radii : Type := mkRadii {
  doubleBull : R;
  singleBull : R;
  innerTriple : R;
  outerTriple : R;
  innerDouble : R;
  outerDouble : R
}.

Definition radii : Radii :=
  {| doubleBull := 8; singleBull := 20;
     innerTriple := 120; outerTriple := 135;
     innerDouble := 200; outerDouble := 215 |}.

Definition boardCenterX : R := IZR CALIBRATION_TARGET_SIZE / 2.
Definition boardCenterY : R := IZR CALIBRATION_TARGET_SIZE / 2.

Section ScoreMapping.

Local Open Scope R_scope.

(** Euclidean distance of a point from the board centre. *)
Definition distanceFromCenter (p : Point R) : R :=
  let dx := x p - boardCenterX in
  let dy := y p - boardCenterY in
  sqrt (dx * dx + dy * dy).

(** The index into [segmentScores] that the code derives from the angle. *)
Definition segmentIndexOf (p : Point R) : Z :=
  let dx := x p - boardCenterX in
  let dy := y p - boardCenterY in
  let angleRad := JS.atan2 (- dy) dx in
  let angleRad := if JS.lt angleRad 0 then angleRad + 2 * PI else angleRad in
  let angleRad := JS.rem (angleRad + PI / 2) (2 * PI) in
  let angleDeg := angleRad * (180 / PI) in
  JS.floor (JS.rem (angleDeg + 9) 360 / 18).

(** [getScoreFromCoords]; [None] stands for a score computed from an
    [undefined] face value. *)
Definition getScoreFromCoords (point : option (Point R)) : option Detection :=
  match point with
  | None => Some (mkDetection 0 0)
  | Some p =>
    let d := distanceFromCenter p in
    if JS.le d (doubleBull radii) then Some (mkDetection 50 1)
    else if JS.le d (singleBull radii) then Some (mkDetection 25 1)
    else if JS.gt d (outerDouble radii) then Some (mkDetection 0 1)
    else
      match JS.index segmentScores (segmentIndexOf p) with
      | None => None
      | Some baseScore =>
        if JS.ge d (innerDouble radii)
        then Some (mkDetection (baseScore * 2) 1)
        else if JS.ge d (innerTriple radii) && JS.le d (outerTriple radii)
        then Some (mkDetection (baseScore * 3) 1)
        else Some (mkDetection baseScore 1)
      end
  end.

End ScoreMapping.

(** ** Score calculation of the manual board (scoreCalculator.ts) *)

Definition DARTBOARD_NUMBERS : list Z :=
  [20; 1; 18; 4; 13; 6; 10; 15; 2; 17;
   3; 19; 7; 16; 8; 11; 14; 9; 12; 5]%Z.

Record DartboardConfig : Type := mkConfig {
  OUTER_BORDER_RADIUS : R;
  DOUBLE_RING_OUTER_RADIUS : R;
  DOUBLE_RING_INNER_RADIUS : R;
  TRIPLE_RING_OUTER_RADIUS : R;
  TRIPLE_RING_INNER_RADIUS : R;
  OUTER_BULL_RADIUS : R;
  INNER_BULL_RADIUS : R;
  CENTER : Point R;
  SVG_SIZE : R;
  ROTATION_OFFSET : R
}.

Definition DARTBOARD_CONFIG : DartboardConfig :=
  {| OUTER_BORDER_RADIUS := 170;
     DOUBLE_RING_OUTER_RADIUS := 170;
     DOUBLE_RING_INNER_RADIUS := 162;
     TRIPLE_RING_OUTER_RADIUS := 99;
     TRIPLE_RING_INNER_RADIUS := 91;
     OUTER_BULL_RADIUS := 16;
     INNER_BULL_RADIUS := 635 / 100;
     CENTER := mkPoint 170 170;
     SVG_SIZE := 340;
     ROTATION_OFFSET := 9 |}%R.

(** The optional flags [isBull] and [isOuterBull] are [false] when absent. *)
Record DartScore : Type := mkDartScore {
  segment : Z;
  multiplier : Z;
  points : Z;
  isBull : bool;
  isOuterBull : bool
}.

Section ManualBoard.

Local Open Scope R_scope.

Definition boardAngle (bx by_ : R) : R :=
  let dx := bx - x (CENTER DARTBOARD_CONFIG) in
  let dy := by_ - y (CENTER DARTBOARD_CONFIG) in
  let angle := JS.rem (JS.atan2 dy dx * 180 / PI + 99) 360 in
  if JS.lt angle 0 then angle + 360 else angle.

Definition calculateScore (bx by_ : R) : option DartScore :=
  let cfg := DARTBOARD_CONFIG in
  let dx := bx - x (CENTER cfg) in
  let dy := by_ - y (CENTER cfg) in
  let distance := sqrt (dx * dx + dy * dy) in
  if JS.le distance (INNER_BULL_RADIUS cfg)
  then Some (mkDartScore 25 2 50 true false)
  else if JS.le distance (OUTER_BULL_RADIUS cfg)
  then Some (mkDartScore 25 1 25 false true)
  else
    let angle := boardAngle bx by_ in
    let segmentIndex := Z.rem (JS.floor (angle / 18)) 20 in
    let segmentNumber := JS.index DARTBOARD_NUMBERS segmentIndex in
    let multiplier : Z :=
      if JS.ge distance (TRIPLE_RING_INNER_RADIUS cfg)
         && JS.le distance (TRIPLE_RING_OUTER_RADIUS cfg)
      then 3%Z
      else if JS.ge distance (DOUBLE_RING_INNER_RADIUS cfg)
              && JS.le distance (DOUBLE_RING_OUTER_RADIUS cfg)
      then 2%Z
      else 1%Z in
    if JS.gt distance (OUTER_BORDER_RADIUS cfg)
    then Some (mkDartScore 0 1 0 false false)
    else
      match segmentNumber with
      | None => None
      | Some n => Some (mkDartScore n multiplier (n * multiplier) false false)
      end.

End ManualBoard.


(** ** OpenCV, as far as the detector uses it

    The library is outside the repository; the detector is parametrised by
    the operations it calls.  A frame is a [Mat]; a contour is the list of its
    rows, one Int32 pair per row ([data32S]). *)

Definition Contour : Type := list (Point Z).

Record Moments : Type := mkMoments { m00 : Q; m10 : Q; m01 : Q }.

(** What [cv.findHomography] hands back: an exception, nothing, or a matrix
    with its shape and its [data64F]. *)
Inductive HomographyResult : Type :=
| HThrows
| HNull
| HMat (rows cols : Z) (data64F : list Q).

Class OpenCV : Type := {
  Mat : Type;
  (** [cv.moments(contour, false)] *)
  moments : Contour -> Moments;
  (** [cv.contourArea(contour)] *)
  contourArea : Contour -> Q;
  (** [absdiff], [cvtColor], [threshold] at the given cutoff and
      [findContours] of two frames; [None] when one of them throws *)
  diffContours : Q -> Mat -> Mat -> option (list Contour);
  (** [absdiff], [cvtColor] and [mean(...)[0]] of two frames *)
  meanDiff : Mat -> Mat -> Q;
  (** [warpPerspective] of a frame by a row-major 3x3 matrix, to 500x500 *)
  warpPerspective : Mat -> list Q -> Mat;
  (** [findHomography(src, dst, RANSAC)] on flattened coordinates *)
  findHomography : list Q -> list Q -> HomographyResult
}.

(** ** Tip extraction, centroid-distance variant (DartDetector.tsx) *)

Section TipExtraction.

Context {cv : OpenCV}.
Local Open Scope Q_scope.

(** Squared distance of a contour point from (cX, cY). *)
Definition distanceSq (cX cY : Q) (point : Point Z) : Q :=
  let dx := inject_Z (x point) - cX in
  let dy := inject_Z (y point) - cY in
  dx * dx + dy * dy.

(** The loop over the contour rows, with its two accumulators. *)
Fixpoint furthestLoop (cX cY : Q) (rows : Contour)
         (furthestPoint : option (Point Z)) (maxDistanceSq : Q)
  : option (Point Z) :=
  match rows with
  | [] => furthestPoint
  | point :: rest =>
    if JS.Qgt_bool (distanceSq cX cY point) maxDistanceSq
    then furthestLoop cX cY rest (Some point) (distanceSq cX cY point)
    else furthestLoop cX cY rest furthestPoint maxDistanceSq
  end.

Definition centroid (contour : Contour) : Q * Q :=
  let M := moments contour in
  (m10 M / m00 M, m01 M / m00 M).

Definition findDartTip (contour : Contour) : option (Point Z) :=
  match contour with
  | [] => None
  | _ :: _ =>
    let M := moments contour in
    if Qeq_bool (m00 M) 0 then None
    else
      let cX := m10 M / m00 M in
      let cY := m01 M / m00 M in
      furthestLoop cX cY contour None (-1)
  end.

End TipExtraction.

(** ** Tip extraction in the arithmetic of the runtime

    The same [findDartTip], with the numbers of an arbitrary arithmetic: the
    quotients m10 / m00 and m01 / m00 and the squared distances are whatever
    the arithmetic computes.  [cv.moments] returns numbers, so the moments
    are an argument. *)

Module Numeric.

Class Arithmetic (F : Type) : Type := {
  ofInt : Z -> F;
  add : F -> F -> F;
  sub : F -> F -> F;
  mul : F -> F -> F;
  div : F -> F -> F;
  gt : F -> F -> bool;
  isZero : F -> bool;
  minusOne : F
}.

Record Moments (F : Type) : Type := mkMoments { m00 : F; m10 : F; m01 : F }.

Arguments mkMoments {F} _ _ _.
Arguments m00 {F} _.
Arguments m10 {F} _.
Arguments m01 {F} _.

Section Tip.

Context {F : Type} {A : Arithmetic F}.

Definition distanceSq (cX cY : F) (point : Point Z) : F :=
  let dx := sub (ofInt (x point)) cX in
  let dy := sub (ofInt (y point)) cY in
  add (mul dx dx) (mul dy dy).

Fixpoint furthestLoop (cX cY : F) (rows : Contour)
         (furthestPoint : option (Point Z)) (maxDistanceSq : F)
  : option (Point Z) :=
  match rows with
  | [] => furthestPoint
  | point :: rest =>
    if gt (distanceSq cX cY point) maxDistanceSq
    then furthestLoop cX cY rest (Some point) (distanceSq cX cY point)
    else furthestLoop cX cY rest furthestPoint maxDistanceSq
  end.

Definition findDartTip (M : Moments F) (contour : Contour) : option (Point Z) :=
  match contour with
  | [] => None
  | _ :: _ =>
    if isZero (m00 M) then None
    else
      let cX := div (m10 M) (m00 M) in
      let cY := div (m01 M) (m00 M) in
      furthestLoop cX cY contour None minusOne
  end.

(** The computed squared distances of the contour's points compare as
    numbers do: each exceeds -1, and [>] on them is transitive, as is its
    negation.  Computed distances that are NaN break this. *)
Definition comparable (M : Moments F) (contour : Contour) : Prop :=
  let d := distanceSq (div (m10 M) (m00 M)) (div (m01 M) (m00 M)) in
  (forall p, In p contour -> gt (d p) minusOne = true) /\
  (forall p q r, In p contour -> In q contour -> In r contour ->
     gt (d p) (d q) = true -> gt (d q) (d r) = true -> gt (d p) (d r) = true) /\
  (forall p q r, In p contour -> In q contour -> In r contour ->
     gt (d p) (d q) = false -> gt (d q) (d r) = false -> gt (d p) (d r) = false).

End Tip.

(** Exact rational arithmetic, as in [findDartTip] above. *)
Definition exact : Arithmetic Q :=
  {| ofInt := inject_Z; add := Qplus; sub := Qminus; mul := Qmult; div := Qdiv;
     gt := JS.Qgt_bool; isZero := fun a => Qeq_bool a 0; minusOne := (-1)%Q |}.

(** An Int32 as a binary64 number; exact below 2^53. *)
Fixpoint floatOfPositive (p : positive) : PrimFloat.float :=
  match p with
  | xH => PrimFloat.one
  | xO q => PrimFloat.mul PrimFloat.two (floatOfPositive q)
  | xI q => PrimFloat.add (PrimFloat.mul PrimFloat.two (floatOfPositive q))
                          PrimFloat.one
  end.

Definition floatOfInt (z : Z) : PrimFloat.float :=
  match z with
  | Z0 => PrimFloat.zero
  | Zpos p => floatOfPositive p
  | Zneg p => PrimFloat.opp (floatOfPositive p)
  end.

(** JavaScript's numbers: IEEE 754 binary64, [>] and [=== 0] as IEEE has
    them. *)
Definition binary64 : Arithmetic PrimFloat.float :=
  {| ofInt := floatOfInt; add := PrimFloat.add; sub := PrimFloat.sub;
     mul := PrimFloat.mul; div := PrimFloat.div;
     gt := fun a b => PrimFloat.ltb b a;
     isZero := fun a => PrimFloat.eqb a PrimFloat.zero;
     minusOne := PrimFloat.opp PrimFloat.one |}.

End Numeric.

(** ** Tip extraction, lowest-point variant (the second DartDetector.tsx) *)

Module Variant2.

Fixpoint lowestLoop (rows : Contour) (tip : Point Z) : Point Z :=
  match rows with
  | [] => tip
  | point :: rest =>
    if (y tip <? y point)%Z then lowestLoop rest point
    else lowestLoop rest tip
  end.

Definition findDartTip (contour : Contour) : option (Point Z) :=
  match contour with
  | [] => None
  | _ :: _ =>
    let tip := lowestLoop contour (mkPoint 0 (-1))%Z in
    if (y tip =? -1)%Z then None else Some tip
  end.

End Variant2.

(** ** JSON values and the browser's local storage *)

Unset Elimination Schemes.
Inductive JSValue : Type :=
| JNull
| JBool (b : bool)
| JNum (q : Q)
| JStr (s : string)
| JArr (items : list JSValue)
| JObj (fields : list (string * JSValue)).
Set Elimination Schemes.

(** The text kept under a storage key, up to what [JSON.parse] makes of it:
    the empty string, a text that does not parse, or the text of a value. *)
Inductive StoredText : Type :=
| EmptyText
| BadText
| JsonText (v : JSValue).

(** The storage slot ['dartboardCalibration']; [None] when the key is absent. *)
Definition Storage : Type := option StoredText.

(** Truthiness of a parsed value; [None] is [undefined]. *)
Definition truthy (v : option JSValue) : bool :=
  match v with
  | None => false
  | Some JNull => false
  | Some (JBool b) => b
  | Some (JNum q) => negb (Qeq_bool q 0)
  | Some (JStr s) => negb (String.eqb s EmptyString)
  | Some (JArr _) => true
  | Some (JObj _) => true
  end.

(** The last binding of a key, as [JSON.parse] keeps it. *)
Fixpoint lookupField (key : string) (fields : list (string * JSValue))
  : option JSValue :=
  match fields with
  | [] => None
  | (k, v) :: rest =>
    match lookupField key rest with
    | Some v' => Some v'
    | None => if String.eqb k key then Some v else None
    end
  end.

(** Property read [v.key]: [None] is a TypeError (reading from [null]);
    [Some None] is [undefined]. *)
Definition getProp (v : JSValue) (key : string) : option (option JSValue) :=
  match v with
  | JNull => None
  | JObj fields => Some (lookupField key fields)
  | _ => Some None
  end.

(** The effect that runs once OpenCV is loaded: what it restores into
    [calibrationData] and what it leaves in storage. *)
Definition loadPersisted (storage : Storage) : option JSValue * Storage :=
  match storage with
  | None => (None, storage)
  | Some EmptyText => (None, storage)
  | Some BadText => (None, None)
  | Some (JsonText parsedData) =>
    match getProp parsedData "imagePoints" with
    | None => (None, None)
    | Some imagePoints =>
      if negb (truthy imagePoints) then (None, None)
      else
        match getProp parsedData "worldPoints" with
        | None => (None, None)
        | Some worldPoints =>
          if negb (truthy worldPoints) then (None, None)
          else
            match getProp parsedData "homographyMatrix" with
            | None => (None, None)
            | Some homographyMatrix =>
              if truthy homographyMatrix then (Some parsedData, storage)
              else (None, None)
            end
        end
    end
  end.


(** ** The detector component: state, refs and local storage *)

Record Dimensions : Type := mkDimensions { width : Z; height : Z }.

Definition Dimensions_eqb (a b : Dimensions) : bool :=
  (width a =? width b)%Z && (height a =? height b)%Z.

Record CalibrationData : Type := mkCalibrationData {
  imagePoints : list (Point Q);
  worldPoints : list (Point Q);
  homographyMatrix : option (list Q);
  sourceDimensions : Dimensions
}.

Definition WORLD_POINTS_TARGET : list (Point Q) :=
  let size := inject_Z CALIBRATION_TARGET_SIZE in
  [ mkPoint (size / 2) 10;
    mkPoint (size - 10) (size / 2);
    mkPoint (size / 2) (size - 10);
    mkPoint 10 (size / 2) ]%Q.

(** [JSON.stringify] of a calibration record. *)
Definition pointToJSON (p : Point Q) : JSValue :=
  JObj [("x", JNum (x p)); ("y", JNum (y p))]%string.

Definition calibrationToJSON (c : CalibrationData) : JSValue :=
  JObj [ ("imagePoints", JArr (map pointToJSON (imagePoints c)));
         ("worldPoints", JArr (map pointToJSON (worldPoints c)));
         ("homographyMatrix",
            match homographyMatrix c with
            | Some m => JArr (map JNum m)
            | None => JNull
            end);
         ("sourceDimensions",
            JObj [ ("width", JNum (inject_Z (width (sourceDimensions c))));
                   ("height", JNum (inject_Z (height (sourceDimensions c)))) ])
       ]%string.

(** The [useState] cells of the component. *)
Record State : Type := mkState {
  isConnected : bool;
  isCalibrating : bool;
  isStill : bool;
  calibrationData : option CalibrationData;
  cvLoaded : bool;
  error : option string;
  dimensions : Dimensions;
  clickedPoints : list (Point Q);
  detectedTip : option (Point Z)
}.

Definition initialState : State :=
  {| isConnected := false; isCalibrating := false; isStill := false;
     calibrationData := None; cvLoaded := false; error := None;
     dimensions := mkDimensions 640 480; clickedPoints := [];
     detectedTip := None |}.

Definition setIsCalibrating (v : bool) (s : State) : State :=
  mkState (isConnected s) v (isStill s) (calibrationData s) (cvLoaded s)
          (error s) (dimensions s) (clickedPoints s) (detectedTip s).

Definition setIsStill (v : bool) (s : State) : State :=
  mkState (isConnected s) (isCalibrating s) v (calibrationData s) (cvLoaded s)
          (error s) (dimensions s) (clickedPoints s) (detectedTip s).

Definition setCalibrationData (v : option CalibrationData) (s : State) : State :=
  mkState (isConnected s) (isCalibrating s) (isStill s) v (cvLoaded s)
          (error s) (dimensions s) (clickedPoints s) (detectedTip s).

Definition setError (v : option string) (s : State) : State :=
  mkState (isConnected s) (isCalibrating s) (isStill s) (calibrationData s)
          (cvLoaded s) v (dimensions s) (clickedPoints s) (detectedTip s).

Definition setClickedPoints (v : list (Point Q)) (s : State) : State :=
  mkState (isConnected s) (isCalibrating s) (isStill s) (calibrationData s)
          (cvLoaded s) (error s) (dimensions s) v (detectedTip s).

Definition setDetectedTip (v : option (Point Z)) (s : State) : State :=
  mkState (isConnected s) (isCalibrating s) (isStill s) (calibrationData s)
          (cvLoaded s) (error s) (dimensions s) (clickedPoints s) v.

(** A contour pixel as a point of the plane. *)
Definition pointOfPixel (p : Point Z) : Point R :=
  mkPoint (IZR (x p)) (IZR (y p)).

Section Detector.

Context {cv : OpenCV}.

(** The [useRef] cells that the stillness logic reads and writes.  The refs
    that only feed the debug overlay are left out. *)
Record Refs : Type := mkRefs {
  prevWarpedFrameRef : option Mat;
  stillFrameBeforeDartRef : option Mat;
  stillFrameAfterDartRef : option Mat;
  lastDetectionTimeRef : Q;
  justBecameStillRef : bool
}.

Definition initialRefs : Refs :=
  {| prevWarpedFrameRef := None; stillFrameBeforeDartRef := None;
     stillFrameAfterDartRef := None; lastDetectionTimeRef := 0;
     justBecameStillRef := false |}.

(** The component between two callbacks: committed state, refs, storage. *)
Record World : Type := mkWorld {
  state : State;
  refs : Refs;
  localStorage : Storage
}.

Definition initialWorld (storage : Storage) : World :=
  mkWorld initialState initialRefs storage.

Definition onState (f : State -> State) (w : World) : World :=
  mkWorld (f (state w)) (refs w) (localStorage w).

Definition onRefs (f : Refs -> Refs) (w : World) : World :=
  mkWorld (state w) (f (refs w)) (localStorage w).

Definition setPrev (v : option Mat) (r : Refs) : Refs :=
  mkRefs v (stillFrameBeforeDartRef r) (stillFrameAfterDartRef r)
         (lastDetectionTimeRef r) (justBecameStillRef r).

Definition setBefore (v : option Mat) (r : Refs) : Refs :=
  mkRefs (prevWarpedFrameRef r) v (stillFrameAfterDartRef r)
         (lastDetectionTimeRef r) (justBecameStillRef r).

Definition setAfter (v : option Mat) (r : Refs) : Refs :=
  mkRefs (prevWarpedFrameRef r) (stillFrameBeforeDartRef r) v
         (lastDetectionTimeRef r) (justBecameStillRef r).

Definition setLastDetectionTime (v : Q) (r : Refs) : Refs :=
  mkRefs (prevWarpedFrameRef r) (stillFrameBeforeDartRef r)
         (stillFrameAfterDartRef r) v (justBecameStillRef r).

Definition setJustBecameStill (v : bool) (r : Refs) : Refs :=
  mkRefs (prevWarpedFrameRef r) (stillFrameBeforeDartRef r)
         (stillFrameAfterDartRef r) (lastDetectionTimeRef r) v.

(** What a callback does that the outside can see. *)
Inductive Event : Type :=
| ShowRaw (src : Mat)
| ShowWarped (warped : Mat)
| DetectDartCalled (frameAfter frameBefore : Mat)
| DetectionUpdate (scores : list (option Detection)).

Definition isDetectDartCalled (e : Event) : bool :=
  match e with DetectDartCalled _ _ => true | _ => false end.

(** The loaded image element and the clock readings of one pass:
    [now] is the reading taken before the stillness check, [detectionNow]
    the one taken inside [detectDart]. *)
Record Tick : Type := mkTick {
  naturalWidth : Z;
  naturalHeight : Z;
  pixels : Mat;
  canvasReady : bool;
  now : Q;
  detectionNow : Q
}.

(** *** detectDart *)

(** Step 4: the largest contour with an area strictly between 500 and 2000. *)
Fixpoint largestLoop (contours : list Contour)
         (largestContour : option Contour) (maxArea : Q) : option Contour :=
  match contours with
  | [] => largestContour
  | contour :: rest =>
    let area := contourArea contour in
    if JS.Qgt_bool area 500 && JS.Qlt_bool area 2000 && JS.Qgt_bool area maxArea
    then largestLoop rest (Some contour) area
    else largestLoop rest largestContour maxArea
  end.

(** The body of the [try] block: the state and refs after it, and the
    scores handed to [onDetectionUpdate].  An exception leaves the [try]
    with what was done so far. *)
Definition detectDartTry (w : World) (frameAfter frameBefore : Mat) (t : Q)
  : World * list Event :=
  match diffContours 15 frameAfter frameBefore with
  | None => (w, [])
  | Some contours =>
    match largestLoop contours None 0 with
    | None => (w, [])
    | Some largestContour =>
      match findDartTip largestContour with
      | None => (w, [])
      | Some tip =>
        (onRefs (setLastDetectionTime t) (onState (setDetectedTip (Some tip)) w),
         [DetectionUpdate [getScoreFromCoords (Some (pointOfPixel tip))]])
      end
    end
  end.

Definition detectDart (w : World) (frameAfter frameBefore : Mat) (t : Q)
  : World * list Event :=
  let w0 := onState (setDetectedTip None) w in
  let '(w1, evs) := detectDartTry w0 frameAfter frameBefore t in
  (onRefs (setBefore (Some frameAfter)) w1, evs).

(** *** Calibration *)

Definition resetCalibration (w : World) : World :=
  let s := setCalibrationData None (state w) in
  let s := setError None s in
  let s := setClickedPoints [] s in
  let s := setIsCalibrating false s in
  mkWorld s (refs w) None.

Definition startCalibration (w : World) : World :=
  if negb (isConnected (state w))
  then onState (setError (Some "Connect to camera stream before calibrating."%string)) w
  else onState (fun s => setError None (setIsCalibrating true (setClickedPoints [] s))) w.

Definition cancelCalibration (w : World) : World :=
  onState (fun s => setError None (setClickedPoints [] (setIsCalibrating false s))) w.

Definition flatCoords (ps : list (Point Q)) : list Q :=
  flat_map (fun p => [x p; y p]) ps.

Definition calculateAndStoreHomography (w : World) : World :=
  let s := state w in
  if negb (cvLoaded s)
     || negb (Nat.eqb (List.length (clickedPoints s)) CALIBRATION_POINTS_REQUIRED)
  then w
  else
    let imageCoords := flatCoords (clickedPoints s) in
    let worldCoords := flatCoords WORLD_POINTS_TARGET in
    match findHomography imageCoords worldCoords with
    | HThrows =>
      onState (setError (Some "Error during calibration calculation."%string)) w
    | HMat 3 3 homographyArray =>
      let newCalibration :=
        {| imagePoints := clickedPoints s;
           worldPoints := WORLD_POINTS_TARGET;
           homographyMatrix := Some homographyArray;
           sourceDimensions := dimensions s |} in
      let s' := setCalibrationData (Some newCalibration) s in
      let s' := setIsCalibrating false s' in
      let s' := setClickedPoints [] s' in
      let s' := setError None s' in
      mkWorld s' (refs w) (Some (JsonText (calibrationToJSON newCalibration)))
    | _ =>
      onState (setError (Some "Calibration failed. Could not calculate perspective. Try clicking points again."%string)) w
    end.

(** A click on the canvas, already scaled to canvas coordinates. *)
Definition handleCanvasClick (w : World) (newPoint : Point Q) : World :=
  let s := state w in
  if negb (isCalibrating s)
     || Nat.leb CALIBRATION_POINTS_REQUIRED (List.length (clickedPoints s))
  then w
  else onState (setClickedPoints (clickedPoints s ++ [newPoint])) w.

(** The effect that follows a change of the clicked points. *)
Definition calibrationEffect (w : World) : World :=
  let s := state w in
  if isCalibrating s
     && Nat.eqb (List.length (clickedPoints s)) CALIBRATION_POINTS_REQUIRED
  then calculateAndStoreHomography w
  else w.

(** A click followed by the render and the effect it causes. *)
Definition submitPoint (w : World) (p : Point Q) : World :=
  calibrationEffect (handleCanvasClick w p).

(** *** processFrame *)

Definition motionThreshold : Q := 2.5.
Definition detectionCooldownMs : Q := 1000.

Definition outsideCooldown (r : Refs) (t : Q) : bool :=
  JS.Qgt_bool (t - lastDetectionTimeRef r) detectionCooldownMs.

(** The dimension check at the head of the pass.  [s] is the state the
    callback closed over; the world carries the pending updates. *)
Definition dimensionCheck (s : State) (w : World) (t : Tick) : World :=
  match calibrationData s with
  | Some c =>
    if negb (width (sourceDimensions c) =? naturalWidth t)%Z
       || negb (height (sourceDimensions c) =? naturalHeight t)%Z
    then resetCalibration
           (onState (setError (Some "Camera dimensions changed. Please recalibrate."%string)) w)
    else w
  | None => w
  end.

(** The stillness check: the pending world and [currentIsStill]. *)
Definition stillnessCheck (s : State) (w : World) (warped : Mat) (t : Tick)
  : World * bool :=
  if outsideCooldown (refs w) (now t) then
    match prevWarpedFrameRef (refs w) with
    | Some prev =>
      let calculatedIsStill := JS.Qlt_bool (meanDiff warped prev) motionThreshold in
      if negb (Bool.eqb calculatedIsStill (isStill s))
      then (onState (setIsStill calculatedIsStill) w, calculatedIsStill)
      else (w, isStill s)
    | None => (w, isStill s)
    end
  else
    (if negb (isStill s) then onState (setIsStill true) w else w, true).

(** The transition logic that follows the stillness check. *)
Definition transitionLogic (s : State) (w : World) (warped : Mat)
           (currentIsStill : bool) (t : Tick) : World * list Event :=
  if currentIsStill && negb (isStill s) && outsideCooldown (refs w) (now t) then
    match stillFrameBeforeDartRef (refs w) with
    | Some before =>
      let w1 := onRefs (setAfter (Some warped)) w in
      let '(w2, evs) := detectDart w1 warped before (detectionNow t) in
      (w2, DetectDartCalled warped before :: evs)
    | None => (onRefs (setBefore (Some warped)) w, [])
    end
  else if negb currentIsStill && isStill s then
    match stillFrameBeforeDartRef (refs w) with
    | None => (onRefs (setBefore (prevWarpedFrameRef (refs w))) w, [])
    | Some _ => (w, [])
    end
  else (w, []).

Definition processFrame (w : World) (t : Tick) : World * list Event :=
  let s := state w in
  if negb (cvLoaded s) then (w, [])
  else if negb (canvasReady t) then (w, [])
  else if negb (isConnected s) then (w, [])
  else if (naturalWidth t =? 0)%Z then (w, [])
  else
    let w := dimensionCheck s w t in
    let src := pixels t in
    if isCalibrating s then (w, [ShowRaw src])
    else
      match calibrationData s with
      | Some {| homographyMatrix := Some M |} =>
        let warped := warpPerspective src M in
        let '(w, currentIsStill) := stillnessCheck s w warped t in
        let '(w, evs) := transitionLogic s w warped currentIsStill t in
        (onRefs (setPrev (Some warped)) w, ShowWarped warped :: evs)
      | _ =>
        let w := if isStill s then onState (setIsStill false) w else w in
        let w := onRefs (fun r => setJustBecameStill false
                                    (setAfter None (setBefore None (setPrev None r)))) w in
        let w := match detectedTip s with
                 | Some _ => onState (setDetectedTip None) w
                 | None => w
                 end in
        (w, [ShowRaw src])
      end.

(** Successive passes, each closing over the state the previous one left. *)
Fixpoint run (w : World) (ticks : list Tick) : World * list Event :=
  match ticks with
  | [] => (w, [])
  | t :: rest =>
    let '(w1, evs1) := processFrame w t in
    let '(w2, evs2) := run w1 rest in
    (w2, evs1 ++ evs2)
  end.

End Detector.

(** ** The second detector variant: detectDart *)

Module Variant2Detector.
Section Detector2.

Context {cv : OpenCV}.

Fixpoint largestLoop (contours : list Contour)
         (largestContour : option Contour) (maxArea : Q) : option Contour :=
  match contours with
  | [] => largestContour
  | contour :: rest =>
    let area := contourArea contour in
    if JS.Qgt_bool area maxArea && JS.Qgt_bool area 50
    then largestLoop rest (Some contour) area
    else largestLoop rest largestContour maxArea
  end.

Definition detectDartTry (w : World) (frameAfter frameBefore : Mat) : World :=
  match diffContours 25 frameAfter frameBefore with
  | None => w
  | Some contours =>
    match largestLoop contours None 0 with
    | None => w
    | Some largestContour =>
      match Variant2.findDartTip largestContour with
      | None => w
      | Some tip => onState (setDetectedTip (Some tip)) w
      end
    end
  end.

Definition detectDart (w : World) (frameAfter frameBefore : Mat) : World :=
  let w0 := onState (setDetectedTip None) w in
  let w1 := detectDartTry w0 frameAfter frameBefore in
  onRefs (setBefore (Some frameAfter)) w1.

End Detector2.
End Variant2Detector.


(** ** Vocabulary of the statements *)

(** Straight above the board centre, at distance [d]. *)
Definition above (d : R) : Point R := (mkPoint 250 (250 - d))%R.

(** Euclidean distance of a point of the manual board from the board's
    centre (170, 170). *)
Definition boardDistance (bx by_ : R) : R :=
  sqrt ((bx - 170) * (bx - 170) + (by_ - 170) * (by_ - 170))%R.

Section Vocabulary.

Context {cv : OpenCV}.
Local Open Scope Q_scope.

(** What the accumulators of the tip loop stand for: nothing yet and a
    negative maximum, or a point together with its own squared distance. *)
Definition loopInvariant (cX cY : Q) (acc : option (Point Z)) (m : Q) : Prop :=
  match acc with
  | None => m < 0
  | Some a => m == distanceSq cX cY a
  end.

(** The centroid of a contour as the image moments give it: (m10 / m00,
    m01 / m00), as a point of the real plane. *)
Definition momentCentroid (contour : Contour) : R * R :=
  (Q2R (m10 (moments contour)) / Q2R (m00 (moments contour)),
   Q2R (m01 (moments contour)) / Q2R (m00 (moments contour)))%R.

(** Euclidean distance in the real plane between the point [c] and the
    pixel [p]. *)
Definition euclideanDistance (c : R * R) (p : Point Z) : R :=
  sqrt ((IZR (x p) - fst c) * (IZR (x p) - fst c)
        + (IZR (y p) - snd c) * (IZR (y p) - snd c))%R.

(** The pass reaches the rectification branch: the guards let it through,
    no calibration is in progress, and the state it closed over holds a
    record with a matrix. *)
Definition rectifies (w : World) (t : Tick) (M : list Q) : Prop :=
  cvLoaded (state w) = true /\
  canvasReady t = true /\
  isConnected (state w) = true /\
  naturalWidth t <> 0%Z /\
  isCalibrating (state w) = false /\
  exists c, calibrationData (state w) = Some c /\ homographyMatrix c = Some M.

(** The component is connected and calibrated for frames of size [d]. *)
Definition armed (s : State) (d : Dimensions) : Prop :=
  cvLoaded s = true /\
  isConnected s = true /\
  isCalibrating s = false /\
  exists c M, calibrationData s = Some c /\
              homographyMatrix c = Some M /\
              sourceDimensions c = d.

(** A frame of size [d] arrives at a canvas that can be drawn on. *)
Definition accepted (d : Dimensions) (t : Tick) : Prop :=
  canvasReady t = true /\
  naturalWidth t <> 0%Z /\
  naturalWidth t = width d /\
  naturalHeight t = height d.

(** The pass falls into the cooldown that follows the last detection. *)
Definition inCooldown (r : Refs) (t : Tick) : Prop :=
  now t - lastDetectionTimeRef r <= detectionCooldownMs.

End Vocabulary.

(** The test [calculateAndStoreHomography] applies to the solver's result. *)
Definition validHomography (h : HomographyResult) : bool :=
  match h with
  | HMat 3 3 _ => true
  | _ => false
  end.

(** C8 as the code has it: the three properties are present and truthy. *)
Definition hasTruthyFields (v : JSValue) : bool :=
  match v with
  | JObj fields =>
    truthy (lookupField "imagePoints" fields)
    && truthy (lookupField "worldPoints" fields)
    && truthy (lookupField "homographyMatrix" fields)
  | _ => false
  end.

(** C8 as the specification words it: exactly 4 image points, exactly 4
    world points, and a matrix. *)
Definition isArrayOfLength (n : nat) (v : option JSValue) : bool :=
  match v with
  | Some (JArr items) => Nat.eqb (List.length items) n
  | _ => false
  end.

Definition isArray (v : option JSValue) : bool :=
  match v with
  | Some (JArr _) => true
  | _ => false
  end.

Definition structurallyValid (v : JSValue) : bool :=
  match v with
  | JObj fields =>
    isArrayOfLength 4 (lookupField "imagePoints" fields)
    && isArrayOfLength 4 (lookupField "worldPoints" fields)
    && isArray (lookupField "homographyMatrix" fields)
  | _ => false
  end.

(** ** A stand-in for OpenCV on which the definitions run

    Frames are rows of grey levels and the warp keeps the frame as it is.
    Moments and areas are those of the polygon through the contour points.
    No contour is extracted from a difference, and a homography is refused
    when the four source points share one abscissa. *)

Section Example.

Local Open Scope Q_scope.

Fixpoint sumAbsDiff (a b : list Z) : Z :=
  match a, b with
  | va :: a', vb :: b' => (Z.abs (va - vb) + sumAbsDiff a' b')%Z
  | _, _ => 0%Z
  end.

Definition grayMeanDiff (a b : list Z) : Q :=
  match a with
  | [] => 0
  | _ :: _ => inject_Z (sumAbsDiff a b) / inject_Z (Z.of_nat (List.length a))
  end.

(** The sums over the polygon edges, from the point [prev] on. *)
Fixpoint edgeSums (prev : Point Z) (rows : Contour) : Z * Z * Z :=
  match rows with
  | [] => (0, 0, 0)%Z
  | p :: rest =>
    let dxy := (x prev * y p - x p * y prev)%Z in
    let '(a00, a10, a01) := edgeSums p rest in
    (dxy + a00, dxy * (x prev + x p) + a10, dxy * (y prev + y p) + a01)%Z
  end.

Definition polygonMoments (contour : Contour) : Moments :=
  match contour with
  | [] => mkMoments 0 0 0
  | first :: _ =>
    let '(a00, a10, a01) := edgeSums (List.last contour first) contour in
    if (a00 =? 0)%Z then mkMoments 0 0 0
    else
      let sgn := if (0 <? a00)%Z then 1 else -1 in
      mkMoments (sgn * inject_Z a00 / 2)
                (sgn * inject_Z a10 / 6)
                (sgn * inject_Z a01 / 6)
  end.

Fixpoint everyOther (l : list Q) : list Q :=
  match l with
  | a :: _ :: rest => a :: everyOther rest
  | _ => l
  end.

Definition sameAbscissa (coords : list Q) : bool :=
  match everyOther coords with
  | [] => true
  | a :: rest => forallb (Qeq_bool a) rest
  end.

Definition exampleCV : OpenCV :=
  {| Mat := list Z;
     moments := polygonMoments;
     contourArea := fun c => m00 (polygonMoments c);
     diffContours := fun _ _ _ => Some [];
     meanDiff := grayMeanDiff;
     warpPerspective := fun src _ => src;
     findHomography := fun src _ =>
       if sameAbscissa src then HMat 0 0 []
       else HMat 3 3 [1; 0; 0; 0; 1; 0; 0; 0; 1] |}.

End Example.


(** ** Worlds and frames used in the examples *)

Definition exampleClicks : list (Point Q) :=
  [mkPoint 320 20; mkPoint 600 240; mkPoint 320 460; mkPoint 40 240]%Q.

Definition calibrationFor (M : list Q) (d : Dimensions) : CalibrationData :=
  {| imagePoints := exampleClicks;
     worldPoints := WORLD_POINTS_TARGET;
     homographyMatrix := Some M;
     sourceDimensions := d |}.

(** A connected component in state Moving, calibrated for frames of size [d]. *)
Definition calibratedWorld {cv : OpenCV} (M : list Q) (d : Dimensions) (r : Refs)
  : World :=
  mkWorld
    {| isConnected := true; isCalibrating := false; isStill := false;
       calibrationData := Some (calibrationFor M d); cvLoaded := true;
       error := None; dimensions := d; clickedPoints := [];
       detectedTip := None |}
    r
    (Some (JsonText (calibrationToJSON (calibrationFor M d)))).

(** A connected component collecting calibration points, three so far, all
    on one vertical line, with an earlier calibration still in place. *)
Definition collectingWorld {cv : OpenCV} (M : list Q) (d : Dimensions) : World :=
  mkWorld
    {| isConnected := true; isCalibrating := true; isStill := false;
       calibrationData := Some (calibrationFor M d); cvLoaded := true;
       error := None; dimensions := d;
       clickedPoints := [mkPoint 100 10; mkPoint 100 200; mkPoint 100 300]%Q;
       detectedTip := None |}
    initialRefs
    (Some (JsonText (calibrationToJSON (calibrationFor M d)))).

Definition identityMatrix : list Q := [1; 0; 0; 0; 1; 0; 0; 0; 1]%Q.

Definition vga : Dimensions := mkDimensions 640 480.

(** Refs right after a detection at time 5000 over a quiet board. *)
Definition refsAfterDetection : @Refs exampleCV :=
  mkRefs (cv := exampleCV)
         (Some [10; 10; 10; 10]%Z) (Some [10; 10; 10; 10]%Z)
         (Some [10; 10; 10; 10]%Z) 5000 false.

Definition quietTick (t : Q) : @Tick exampleCV :=
  mkTick (cv := exampleCV) 640 480 [10; 11; 10; 10]%Z true t t.

Definition activeTick (t : Q) : @Tick exampleCV :=
  mkTick (cv := exampleCV) 640 480 [90; 10; 70; 10]%Z true t t.

(** A stored record with three image points only. *)
Definition threePointRecord : JSValue :=
  JObj [ ("imagePoints",
            JArr [pointToJSON (mkPoint 1 2); pointToJSON (mkPoint 3 4);
                  pointToJSON (mkPoint 5 6)]);
         ("worldPoints", JArr (map pointToJSON WORLD_POINTS_TARGET));
         ("homographyMatrix", JArr (map JNum identityMatrix));
         ("sourceDimensions",
            JObj [("width", JNum 640); ("height", JNum 480)]) ]%string.


(** ** Vocabulary of the further properties: score mapping *)

Section CardinalPoints.

Local Open Scope R_scope.

(** Points of the detector's canonical frame on the axes through the centre,
    at distance [d]: to the right, to the left and straight below. *)
Definition rightOf (d : R) : Point R := mkPoint (250 + d) 250.
Definition leftOf (d : R) : Point R := mkPoint (250 - d) 250.
Definition below (d : R) : Point R := mkPoint 250 (250 + d).

(** The detector's score for face value [face] at distance [d]. *)
Definition ringScore (face : Z) (d : R) : Z :=
  if JS.ge d 200 then (face * 2)%Z
  else if JS.ge d 120 && JS.le d 135 then (face * 3)%Z
  else face.

(** The manual board's multiplier at distance [d]. *)
Definition boardMultiplier (d : R) : Z :=
  if JS.ge d 91 && JS.le d 99 then 3%Z
  else if JS.ge d 162 && JS.le d 170 then 2%Z
  else 1%Z.

(** The manual board's score for face value [face] at distance [d]. *)
Definition boardScore (face : Z) (d : R) : DartScore :=
  mkDartScore face (boardMultiplier d) (face * boardMultiplier d) false false.

End CardinalPoints.


(** ** Vocabulary of the further properties: the detector *)

Section DetectorVocabulary.

Context {cv : OpenCV}.

(** The comparison of a warped frame with the previous one is quiet. *)
Definition quiet (warped prev : Mat) : bool :=
  JS.Qlt_bool (meanDiff warped prev) motionThreshold.

(** The pass sees the board settle: outside the cooldown, from state Moving,
    a quiet comparison with the previous frame. *)
Definition settles (w : World) (t : Tick) (warped : Mat) : bool :=
  match prevWarpedFrameRef (refs w) with
  | Some prev =>
    outsideCooldown (refs w) (now t) && negb (isStill (state w))
    && quiet warped prev
  | None => false
  end.

(** The pass sees the board stir: outside the cooldown, from state Still, a
    comparison with the previous frame that is not quiet. *)
Definition stirs (w : World) (t : Tick) (warped : Mat) : bool :=
  match prevWarpedFrameRef (refs w) with
  | Some prev =>
    outsideCooldown (refs w) (now t) && isStill (state w)
    && negb (quiet warped prev)
  | None => false
  end.

(** The guards at the head of [processFrame] let the pass through. *)
Definition passes (w : World) (t : Tick) : Prop :=
  cvLoaded (state w) = true /\
  canvasReady t = true /\
  isConnected (state w) = true /\
  naturalWidth t <> 0%Z.

(** Clicks on the canvas, one after the other. *)
Definition clickAll (w : World) (ps : list (Point Q)) : World :=
  fold_left submitPoint ps w.

End DetectorVocabulary.


(** A frame of another size than [vga]. *)
Definition hdTick (t : Q) : @Tick exampleCV :=
  mkTick (cv := exampleCV) 1280 720 [10; 10; 10; 10]%Z true t t.

(** The record that a solve with matrix [H] stores for the fourth point [p]. *)
Definition recordOf {cv : OpenCV} (w : World) (p : Point Q) (H : list Q)
  : CalibrationData :=
  {| imagePoints := clickedPoints (state w) ++ [p];
     worldPoints := WORLD_POINTS_TARGET;
     homographyMatrix := Some H;
     sourceDimensions := dimensions (state w) |}.


(** ** The game store (gameStore.ts) and the manual board's click handler

    Scores, counters and ids are integers; the current player index is a
    position in the player list.  An action that would read a property of
    [undefined] raises a TypeError before it writes anything: it is [None]
    and the store stays as it was. *)

Module GameStore.

Module Turn.
Record t : Type := mk {
  darts : list DartScore;
  score : Z;
  remainingScore : Z;
  bust : bool
}.
End Turn.

Module Player.
Record t : Type := mk {
  id : Z;
  name : string;
  score : Z;
  initialScore : Z;
  dartsThrown : Z;
  legsWon : Z;
  currentTurn : bool;
  history : list Turn.t
}.
End Player.

Record GameState : Type := mkGameState {
  gameMode : Z;
  players : list Player.t;
  legsToWin : Z;
  currentPlayerIndex : nat;
  dartsRemaining : Z;
  gameStarted : bool;
  gameFinished : bool;
  currentTurn : list DartScore
}.

Definition DEFAULT_DARTS_PER_TURN : Z := 3.

Definition initialStore : GameState :=
  {| gameMode := 501; players := []; legsToWin := 3; currentPlayerIndex := 0;
     dartsRemaining := DEFAULT_DARTS_PER_TURN; gameStarted := false;
     gameFinished := false; currentTurn := [] |}.

(** [arr.map((v, index) => f index v)], counting from [i]. *)
Fixpoint mapiFrom {A B : Type} (i : nat) (f : nat -> A -> B) (l : list A) : list B :=
  match l with
  | [] => []
  | a :: rest => f i a :: mapiFrom (S i) f rest
  end.

Definition mapi {A B : Type} (f : nat -> A -> B) (l : list A) : list B :=
  mapiFrom 0 f l.

(** [copy[i] = v] on a copy of the array.  Every use follows a successful
    read of position [i], so the position exists. *)
Fixpoint setNth {A : Type} (i : nat) (v : A) (l : list A) {struct l} : list A :=
  match l with
  | [] => []
  | a :: rest =>
    match i with
    | O => v :: rest
    | S j => a :: setNth j v rest
    end
  end.

(** [arr.pop()] on a copy: the shortened array and the removed element. *)
Fixpoint pop {A : Type} (l : list A) : option (list A * A) :=
  match l with
  | [] => None
  | a :: rest =>
    match pop rest with
    | None => Some ([], a)
    | Some (front, lastOne) => Some (a :: front, lastOne)
    end
  end.

(** *** Setup actions *)

Definition setGameMode (mode : Z) (s : GameState) : GameState :=
  mkGameState mode (players s) (legsToWin s) (currentPlayerIndex s)
              (dartsRemaining s) (gameStarted s) (gameFinished s) (currentTurn s).

Definition setLegsToWin (legs : Z) (s : GameState) : GameState :=
  mkGameState (gameMode s) (players s) legs (currentPlayerIndex s)
              (dartsRemaining s) (gameStarted s) (gameFinished s) (currentTurn s).

Definition withPlayers (ps : list Player.t) (s : GameState) : GameState :=
  mkGameState (gameMode s) ps (legsToWin s) (currentPlayerIndex s)
              (dartsRemaining s) (gameStarted s) (gameFinished s) (currentTurn s).

Definition addPlayer (s : GameState) (name : string) : GameState :=
  let newPlayer :=
    {| Player.id := Z.of_nat (List.length (players s)) + 1;
       Player.name := name;
       Player.score := gameMode s;
       Player.initialScore := gameMode s;
       Player.dartsThrown := 0;
       Player.legsWon := 0;
       Player.currentTurn := false;
       Player.history := [] |} in
  withPlayers (players s ++ [newPlayer]) s.

Definition removePlayer (id : Z) (s : GameState) : GameState :=
  withPlayers (filter (fun player => negb (Player.id player =? id)%Z) (players s)) s.

Definition resetPlayers (s : GameState) : GameState := withPlayers [] s.

(** *** Game actions *)

Definition startGame (s : GameState) : GameState :=
  match players s with
  | [] => s
  | _ :: _ =>
    let updatedPlayers :=
      mapi (fun index player =>
              Player.mk (Player.id player) (Player.name player)
                        (gameMode s) (gameMode s) 0 (Player.legsWon player)
                        (Nat.eqb index 0) [])
           (players s) in
    mkGameState (gameMode s) updatedPlayers (legsToWin s) 0
                DEFAULT_DARTS_PER_TURN true false []
  end.

Definition withCurrentTurnFlag (v : bool) (p : Player.t) : Player.t :=
  Player.mk (Player.id p) (Player.name p) (Player.score p) (Player.initialScore p)
            (Player.dartsThrown p) (Player.legsWon p) v (Player.history p).

Definition resetGame (s : GameState) : option GameState :=
  let resetList :=
    map (fun player =>
           Player.mk (Player.id player) (Player.name player)
                     (gameMode s) (gameMode s) 0 0 false [])
        (players s) in
  match resetList with
  | [] => None
  | first :: rest =>
    Some (mkGameState (gameMode s) (withCurrentTurnFlag true first :: rest)
                      (legsToWin s) 0 DEFAULT_DARTS_PER_TURN false false [])
  end.

(** The bust test of [registerDart]. *)
Definition isBustDart (newScore : Z) (dart : DartScore) : bool :=
  (newScore <? 0)%Z || (newScore =? 1)%Z
  || ((newScore =? 0)%Z && negb (multiplier dart =? 2)%Z).

Definition registerDart (s : GameState) (dart : DartScore) : option GameState :=
  if (dartsRemaining s <=? 0)%Z || Nat.eqb (List.length (players s)) 0 then Some s
  else
    match nth_error (players s) (currentPlayerIndex s) with
    | None => None
    | Some currentPlayer =>
      let newScore := (Player.score currentPlayer - points dart)%Z in
      let updatedCurrentTurn := currentTurn s ++ [dart] in
      if isBustDart newScore dart then
        Some (mkGameState (gameMode s) (players s) (legsToWin s)
                          (currentPlayerIndex s) (dartsRemaining s - 1)
                          (gameStarted s) (gameFinished s) updatedCurrentTurn)
      else
        let updatedPlayer :=
          Player.mk (Player.id currentPlayer) (Player.name currentPlayer)
                    newScore (Player.initialScore currentPlayer)
                    (Player.dartsThrown currentPlayer + 1)
                    (Player.legsWon currentPlayer)
                    (Player.currentTurn currentPlayer)
                    (Player.history currentPlayer) in
        if (newScore =? 0)%Z then
          let winner :=
            Player.mk (Player.id updatedPlayer) (Player.name updatedPlayer)
                      (Player.score updatedPlayer) (Player.initialScore updatedPlayer)
                      (Player.dartsThrown updatedPlayer)
                      (Player.legsWon updatedPlayer + 1)
                      (Player.currentTurn updatedPlayer)
                      (Player.history updatedPlayer) in
          let updatedPlayers := setNth (currentPlayerIndex s) winner (players s) in
          if (legsToWin s <=? Player.legsWon winner)%Z then
            Some (mkGameState (gameMode s) updatedPlayers (legsToWin s)
                              (currentPlayerIndex s) 0
                              (gameStarted s) true updatedCurrentTurn)
          else
            let nextPlayerIndex :=
              Nat.modulo (currentPlayerIndex s + 1) (List.length (players s)) in
            let playersForNextLeg :=
              mapi (fun index player =>
                      Player.mk (Player.id player) (Player.name player)
                                (gameMode s) (Player.initialScore player)
                                (Player.dartsThrown player) (Player.legsWon player)
                                (Nat.eqb index nextPlayerIndex) [])
                   updatedPlayers in
            Some (mkGameState (gameMode s) playersForNextLeg (legsToWin s)
                              nextPlayerIndex DEFAULT_DARTS_PER_TURN
                              (gameStarted s) (gameFinished s) [])
        else
          Some (mkGameState (gameMode s)
                            (setNth (currentPlayerIndex s) updatedPlayer (players s))
                            (legsToWin s) (currentPlayerIndex s)
                            (dartsRemaining s - 1)
                            (gameStarted s) (gameFinished s) updatedCurrentTurn)
    end.

(** [currentTurn.reduce((sum, dart) => sum + dart.points, 0)] *)
Definition turnTotal (ds : list DartScore) : Z :=
  fold_left (fun sum dart => (sum + points dart)%Z) ds 0%Z.

Definition endTurn (s : GameState) : option GameState :=
  if Nat.eqb (List.length (players s)) 0 then Some s
  else
    match nth_error (players s) (currentPlayerIndex s) with
    | None => None
    | Some currentPlayer =>
      let turnScore := turnTotal (currentTurn s) in
      let finalScore := Player.score currentPlayer in
      let isBust :=
        negb (finalScore =? Player.initialScore currentPlayer - turnScore)%Z in
      let turnHistory :=
        {| Turn.darts := currentTurn s;
           Turn.score := turnScore;
           Turn.remainingScore :=
             if isBust then Player.initialScore currentPlayer else finalScore;
           Turn.bust := isBust |} in
      let playerWithHistory :=
        Player.mk (Player.id currentPlayer) (Player.name currentPlayer)
                  (Player.score currentPlayer)
                  (if isBust then Player.initialScore currentPlayer else finalScore)
                  (Player.dartsThrown currentPlayer) (Player.legsWon currentPlayer)
                  false
                  (Player.history currentPlayer ++ [turnHistory]) in
      let updatedPlayers := setNth (currentPlayerIndex s) playerWithHistory (players s) in
      let nextPlayerIndex :=
        Nat.modulo (currentPlayerIndex s + 1) (List.length (players s)) in
      match nth_error updatedPlayers nextPlayerIndex with
      | None => None
      | Some nextPlayer =>
        Some (mkGameState (gameMode s)
                          (setNth nextPlayerIndex (withCurrentTurnFlag true nextPlayer)
                                  updatedPlayers)
                          (legsToWin s) nextPlayerIndex DEFAULT_DARTS_PER_TURN
                          (gameStarted s) (gameFinished s) [])
      end
    end.

Definition undoLastDart (s : GameState) : option GameState :=
  if Nat.eqb (List.length (currentTurn s)) 0 || Nat.eqb (List.length (players s)) 0
  then Some s
  else
    match pop (currentTurn s) with
    | None => Some s
    | Some (updatedCurrentTurn, removedDart) =>
      match nth_error (players s) (currentPlayerIndex s) with
      | None => None
      | Some currentPlayer =>
        let updatedScore := (Player.score currentPlayer + points removedDart)%Z in
        let updatedPlayer :=
          Player.mk (Player.id currentPlayer) (Player.name currentPlayer)
                    updatedScore (Player.initialScore currentPlayer)
                    (Z.max 0 (Player.dartsThrown currentPlayer - 1))
                    (Player.legsWon currentPlayer)
                    (Player.currentTurn currentPlayer)
                    (Player.history currentPlayer) in
        Some (mkGameState (gameMode s)
                          (setNth (currentPlayerIndex s) updatedPlayer (players s))
                          (legsToWin s) (currentPlayerIndex s)
                          (dartsRemaining s + 1)
                          (gameStarted s) (gameFinished s) updatedCurrentTurn)
      end
    end.

Definition getCurrentPlayer (s : GameState) : option Player.t :=
  nth_error (players s) (currentPlayerIndex s).

(** *** The actions as data, and runs of them *)

Inductive Action : Type :=
| RegisterDart (dart : DartScore)
| EndTurn
| UndoLastDart
| ResetGame.

Definition act (s : GameState) (a : Action) : option GameState :=
  match a with
  | RegisterDart dart => registerDart s dart
  | EndTurn => endTurn s
  | UndoLastDart => undoLastDart s
  | ResetGame => resetGame s
  end.

Fixpoint actAll (s : GameState) (actions : list Action) : option GameState :=
  match actions with
  | [] => Some s
  | a :: rest =>
    match act s a with
    | None => None
    | Some s' => actAll s' rest
    end
  end.

(** *** Vocabulary of the statements *)

(** The current player index is a position of the player list. *)
Definition indexed (s : GameState) : Prop :=
  (currentPlayerIndex s < List.length (players s))%nat.

(** Exactly the player at the current index carries the turn flag. *)
Definition flagged (s : GameState) : Prop :=
  forall i p, nth_error (players s) i = Some p ->
              Player.currentTurn p = Nat.eqb i (currentPlayerIndex s).

(** No score is negative or 1; a score of 0 ends the game. *)
Definition sound (s : GameState) : Prop :=
  forall p, In p (players s) ->
            (2 <= Player.score p)%Z \/ (Player.score p = 0%Z /\ gameFinished s = true).

(** Each dart of the list, thrown in turn from score [sc], leaves at least 2. *)
Fixpoint scoring (sc : Z) (ds : list DartScore) : bool :=
  match ds with
  | [] => true
  | d :: rest => (2 <=? sc - points d)%Z && scoring (sc - points d) rest
  end.

Fixpoint registerAll (s : GameState) (ds : list DartScore) : option GameState :=
  match ds with
  | [] => Some s
  | d :: rest =>
    match registerDart s d with
    | None => None
    | Some s' => registerAll s' rest
    end
  end.

(** The names given to [addPlayer], one after the other. *)
Definition addPlayers (s : GameState) (names : list string) : GameState :=
  fold_left addPlayer names s.

End GameStore.

(** *** The click handler of the manual board (Dartboard.tsx) *)

Record HitMark : Type := mkHitMark { markX : R; markY : R; dartIndex : Z }.

(** The bounding rectangle of the board element. *)
Record ClientRect : Type := mkClientRect {
  rectLeft : R; rectTop : R; rectWidth : R; rectHeight : R
}.

(** The component's hit marks and the store it registers darts in. *)
Record BoardView : Type := mkBoardView {
  hitMarks : list HitMark;
  store : GameStore.GameState
}.

Section BoardClick.

Local Open Scope R_scope.

Definition viewBoxPoint (clientX clientY : R) (svgRect : ClientRect) : Point R :=
  let clickX := clientX - rectLeft svgRect in
  let clickY := clientY - rectTop svgRect in
  let scaleX := SVG_SIZE DARTBOARD_CONFIG / rectWidth svgRect in
  let scaleY := SVG_SIZE DARTBOARD_CONFIG / rectHeight svgRect in
  mkPoint (clickX * scaleX) (clickY * scaleY).

(** [handleBoardClick] with the board element in place.  [None] is a
    TypeError raised by [registerDart], or a score built on an [undefined]
    face value. *)
Definition handleBoardClick (v : BoardView) (clientX clientY : R)
           (svgRect : ClientRect) : option BoardView :=
  if (GameStore.dartsRemaining (store v) =? 0)%Z then Some v
  else
    let vb := viewBoxPoint clientX clientY svgRect in
    let dx := x vb - x (CENTER DARTBOARD_CONFIG) in
    let dy := y vb - y (CENTER DARTBOARD_CONFIG) in
    let distance := sqrt (dx * dx + dy * dy) in
    if JS.le distance (OUTER_BORDER_RADIUS DARTBOARD_CONFIG) then
      let mark := mkHitMark (x vb) (y vb) (3 - GameStore.dartsRemaining (store v)) in
      match calculateScore (x vb) (y vb) with
      | None => None
      | Some dartScore =>
        match GameStore.registerDart (store v) dartScore with
        | None => None
        | Some store' => Some (mkBoardView (hitMarks v ++ [mark]) store')
        end
      end
    else Some v.

End BoardClick.


(** ** Stores and darts used in the examples *)

Definition treble20 : DartScore := mkDartScore 20 3 60 false false.
Definition double20 : DartScore := mkDartScore 20 2 40 false false.
Definition single20 : DartScore := mkDartScore 20 1 20 false false.

(** A started game of 501 between two players. *)
Definition twoPlayers : GameStore.GameState :=
  GameStore.startGame
    (GameStore.addPlayers GameStore.initialStore ["Ann"; "Bob"]%string).

(** The same game with the first player on 40 at the start of a turn. *)
Definition onForty : GameStore.GameState :=
  GameStore.withPlayers
    [ GameStore.Player.mk 1 "Ann" 40 40 9 0 true [];
      GameStore.Player.mk 2 "Bob" 501 501 9 0 false [] ]%string
    twoPlayers.

(** A board element of 680 by 680 pixels at the top left of the page. *)
Definition boardRect : ClientRect := mkClientRect 0 0 680 680.


(** ** Frame ingestion of the detector: the image load handler and the
    requests for a processing pass (DartDetector.tsx) *)

Definition setDimensions (v : Dimensions) (s : State) : State :=
  mkState (isConnected s) (isCalibrating s) (isStill s) (calibrationData s)
          (cvLoaded s) (error s) v (clickedPoints s) (detectedTip s).

Section Ingestion.

Context {cv : OpenCV}.

(** The component with the scheduling refs: whether [processFrameRef] holds
    the callback, the [processingScheduled] flag, and the number of animation
    frame requests that have not run yet. *)
Record Ingest : Type := mkIngest {
  world : World;
  processFrameSet : bool;
  processingScheduled : bool;
  requested : nat
}.

(** [img.onload] for a decoded frame of the given size; [d] is the
    [dimensions] value that [connectWebSocket] closed over when it installed
    the handler. *)
Definition onImageLoad (d : Dimensions) (g : Ingest) (naturalW naturalH : Z) : Ingest :=
  let w :=
    if negb (width d =? naturalW)%Z || negb (height d =? naturalH)%Z
    then onState (setDimensions (mkDimensions naturalW naturalH)) (world g)
    else world g in
  if negb (processingScheduled g) && processFrameSet g
  then mkIngest w (processFrameSet g) true (S (requested g))
  else mkIngest w (processFrameSet g) (processingScheduled g) (requested g).

(** The browser runs one requested pass, if one is requested: the pass
    clears the flag and goes on as [processFrame]. *)
Definition runRequestedPass (g : Ingest) (t : Tick) : Ingest * list Event :=
  match requested g with
  | O => (g, [])
  | S n =>
    let '(w, evs) := processFrame (world g) t in
    (mkIngest w (processFrameSet g) false n, evs)
  end.

Inductive IngestEvent : Type :=
| FrameLoaded (d : Dimensions) (naturalW naturalH : Z)
| PassRuns (t : Tick).

Definition ingestStep (g : Ingest) (e : IngestEvent) : Ingest :=
  match e with
  | FrameLoaded d naturalW naturalH => onImageLoad d g naturalW naturalH
  | PassRuns t => fst (runRequestedPass g t)
  end.

Definition ingest (g : Ingest) (events : list IngestEvent) : Ingest :=
  fold_left ingestStep events g.

(** The flag tells whether a pass is requested, and at most one is. *)
Definition coalesced (g : Ingest) : Prop :=
  requested g = if processingScheduled g then 1%nat else 0%nat.

End Ingestion.

(** ** The second detector variant: processFrame

    [empty] stands for [Mat.empty()], which the first variant does not call.

    A [Mat] is freed by [delete()], and [delete()] on a Mat that is already
    deleted throws.  The previous-frame and pre-throw refs are reassigned or
    set to null right after each of their deletes; the post-throw ref is
    not, in the uncalibrated branch, so it alone can hold a deleted Mat. *)

Module Variant2Pass.
Section Pass2.

Context {cv : OpenCV}.
Variable empty : Mat -> bool.

(** The component with the throttle and scheduling refs, and whether the Mat
    that [stillFrameAfterDartRef] holds has been deleted. *)
Record Pass : Type := mkPass {
  world : World;
  lastFrameTime : Q;
  processingScheduled : bool;
  requested : nat;
  afterDartDeleted : bool
}.

(** One pass: the tick of the first variant, whether the image element has
    finished loading, and whether the canvas gives a 2d context. *)
Record Tick2 : Type := mkTick2 {
  tick : Tick;
  complete : bool;
  contextReady : bool
}.

(** How the [try] block ends: normally, with the liveness of the post-throw
    Mat and what was drawn, or by a throw. *)
Inductive Outcome : Type :=
| Returned (w : World) (deleted : bool) (evs : list Event)
| Thrown (w : World).

Definition STILLNESS_THRESHOLD : Q := 2.

(** A frame reference holds a frame that is not empty. *)
Definition held (m : option Mat) : bool :=
  match m with
  | Some f => negb (empty f)
  | None => false
  end.

(** [stillFrameAfterDartRef.current?.delete()] throws: the ref holds a Mat,
    and that Mat is deleted. *)
Definition deleteAfterThrows (deleted : bool) (w : World) : bool :=
  match stillFrameAfterDartRef (refs w) with
  | Some _ => deleted
  | None => false
  end.

(** The branch taken when there is no previous frame to compare against. *)
Definition withoutPrevious (w : World) (warpDst : Mat) : World :=
  let w := onState (setIsStill false) w in
  let w := onRefs (setJustBecameStill false) w in
  if negb (held (stillFrameBeforeDartRef (refs w)))
  then onRefs (setBefore (Some warpDst)) w
  else w.

(** The branch taken when the comparison is quiet and the closed-over state
    is Moving. *)
Definition becameStill (deleted : bool) (w : World) (warpDst : Mat) : Outcome :=
  let w := onState (setIsStill true) w in
  let w := onRefs (setJustBecameStill true) w in
  if deleteAfterThrows deleted w then Thrown w
  else
    let w := onRefs (setAfter (Some warpDst)) w in
    match stillFrameBeforeDartRef (refs w) with
    | Some before =>
      if negb (empty before) && negb (empty warpDst)
      then Returned (Variant2Detector.detectDart w warpDst before) false
                    [DetectDartCalled warpDst before]
      else Returned (onRefs (setBefore (Some warpDst)) w) false []
    | None => Returned (onRefs (setBefore (Some warpDst)) w) false []
    end.

(** Stillness detection and detection trigger; [s] is the closed-over state. *)
Definition stillness (deleted : bool) (s : State) (w : World) (warpDst : Mat)
  : Outcome :=
  match prevWarpedFrameRef (refs w) with
  | Some prev =>
    if negb (empty prev) then
      if JS.Qlt_bool (meanDiff warpDst prev) STILLNESS_THRESHOLD then
        if negb (isStill s) then becameStill deleted w warpDst
        else Returned (onRefs (setJustBecameStill false) w) deleted []
      else
        Returned (onRefs (setJustBecameStill false)
                         (if isStill s then onState (setIsStill false) w else w))
                 deleted []
    else Returned (withoutPrevious w warpDst) deleted []
  | None => Returned (withoutPrevious w warpDst) deleted []
  end.

(** The branch taken without a calibration matrix. *)
Definition notCalibrated (deleted : bool) (s : State) (w : World) (src : Mat)
  : Outcome :=
  let w := if isStill s then onState (setIsStill false) w else w in
  let w := onRefs (fun r => setBefore None (setPrev None r)) w in
  if deleteAfterThrows deleted w then Thrown w
  else
    let deleted := match stillFrameAfterDartRef (refs w) with
                   | Some _ => true
                   | None => deleted
                   end in
    let w := onRefs (setJustBecameStill false) w in
    let w := match detectedTip s with
             | Some _ => onState (setDetectedTip None) w
             | None => w
             end in
    Returned w deleted [ShowRaw src].

(** The [try] block. *)
Definition tryBlock (g : Pass) (t : Tick2) : Outcome :=
  let s := state (world g) in
  let src := pixels (tick t) in
  if isCalibrating s
  then Returned (world g) (afterDartDeleted g) [ShowRaw src]
  else
    match calibrationData s with
    | Some {| homographyMatrix := Some M |} =>
      let warpDst := warpPerspective src M in
      match stillness (afterDartDeleted g) s (world g) warpDst with
      | Returned w deleted evs =>
        Returned (onRefs (setPrev (Some warpDst)) w) deleted
                 (evs ++ [ShowWarped warpDst])
      | Thrown w => Thrown w
      end
    | _ => notCalibrated (afterDartDeleted g) s (world g) src
    end.

Definition processFrame (g : Pass) (t : Tick2) : Pass * list Event :=
  let s := state (world g) in
  if negb (cvLoaded s) || negb (isConnected s) || isCalibrating s
     || negb (canvasReady (tick t)) || negb (complete t)
     || (naturalHeight (tick t) =? 0)%Z
  then (mkPass (world g) (lastFrameTime g) false (requested g)
               (afterDartDeleted g), [])
  else if JS.Qlt_bool (now (tick t) - lastFrameTime g) 200
  then (mkPass (world g) (lastFrameTime g) true (S (requested g))
               (afterDartDeleted g), [])
  else
    let lastTime := now (tick t) in
    if negb (contextReady t)
    then (mkPass (world g) lastTime false (requested g) (afterDartDeleted g), [])
    else
      match tryBlock g t with
      | Returned w deleted evs =>
        (mkPass w lastTime false (requested g) deleted, evs)
      | Thrown w =>
        (mkPass (onState (setError (Some "Error during image processing."%string)) w)
                lastTime false (requested g) (afterDartDeleted g), [])
      end.

(** The browser runs one requested pass, if one is requested. *)
Definition runRequestedPass (g : Pass) (t : Tick2) : Pass * list Event :=
  match requested g with
  | O => (g, [])
  | S n => processFrame (mkPass (world g) (lastFrameTime g) (processingScheduled g) n
                                (afterDartDeleted g)) t
  end.

(** What happens to the component over time: a pass runs, or another
    handler (connection, calibration, a commit of queued state) changes
    state and storage; no other handler touches the frame refs. *)
Inductive Step : Type :=
| PassRuns (t : Tick2)
| HandlerRuns (f : State -> State) (store : Storage -> Storage).

Definition step (g : Pass) (e : Step) : Pass * list Event :=
  match e with
  | PassRuns t => processFrame g t
  | HandlerRuns f store =>
    (mkPass (mkWorld (f (state (world g))) (refs (world g))
                     (store (localStorage (world g))))
            (lastFrameTime g) (processingScheduled g) (requested g)
            (afterDartDeleted g), [])
  end.

Fixpoint run (g : Pass) (steps : list Step) : Pass * list Event :=
  match steps with
  | [] => (g, [])
  | e :: rest =>
    let '(g1, evs1) := step g e in
    let '(g2, evs2) := run g1 rest in
    (g2, evs1 ++ evs2)
  end.

(** The guards let the pass through, 200 ms have gone by and the canvas
    gives a context. *)
Definition processes (g : Pass) (t : Tick2) : Prop :=
  cvLoaded (state (world g)) = true /\
  isConnected (state (world g)) = true /\
  isCalibrating (state (world g)) = false /\
  canvasReady (tick t) = true /\
  complete t = true /\
  naturalHeight (tick t) <> 0%Z /\
  JS.Qlt_bool (now (tick t) - lastFrameTime g) 200 = false /\
  contextReady t = true.

(** The pass gets to the warp: the guards let it through, 200 ms have gone
    by, the canvas gives a context and the closed-over state holds a record
    with matrix [M]. *)
Definition warps (g : Pass) (t : Tick2) (M : list Q) : Prop :=
  cvLoaded (state (world g)) = true /\
  isConnected (state (world g)) = true /\
  isCalibrating (state (world g)) = false /\
  canvasReady (tick t) = true /\
  complete t = true /\
  naturalHeight (tick t) <> 0%Z /\
  JS.Qlt_bool (now (tick t) - lastFrameTime g) 200 = false /\
  contextReady t = true /\
  exists c, calibrationData (state (world g)) = Some c /\ homographyMatrix c = Some M.

(** The closed-over state holds no calibration matrix. *)
Definition lacksMatrix (s : State) : Prop :=
  match calibrationData s with
  | Some c => homographyMatrix c = None
  | None => True
  end.

(** The pass sees the board settle. *)
Definition settles (g : Pass) (warpDst : Mat) : bool :=
  match prevWarpedFrameRef (refs (world g)) with
  | Some prev =>
    negb (empty prev)
    && JS.Qlt_bool (meanDiff warpDst prev) STILLNESS_THRESHOLD
    && negb (isStill (state (world g)))
  | None => false
  end.

(** The post-throw ref holds a deleted Mat. *)
Definition dangling (g : Pass) : bool :=
  deleteAfterThrows (afterDartDeleted g) (world g).

(** The flag tells whether a pass is requested, and at most one is. *)
Definition coalesced (g : Pass) : Prop :=
  requested g = if processingScheduled g then 1%nat else 0%nat.

End Pass2.
End Variant2Pass.

(** ** The winner shown when the game is finished (GameFinished.tsx) *)

Module GameFinished.

Import GameStore.

(** [players.reduce((max, p) => p.legsWon > max.legsWon ? p : max, players[0])];
    [None] is the [undefined] that an empty player list gives. *)
Definition winner (s : GameState) : option Player.t :=
  match players s with
  | [] => None
  | first :: _ =>
    Some (fold_left (fun max p =>
                       if (Player.legsWon max <? Player.legsWon p)%Z then p else max)
                    (players s) first)
  end.

End GameFinished.


(** ** The bust warning of the current turn (CurrentTurn.tsx) *)

Module CurrentTurnView.

Import GameStore.

(** [currentPlayer.score - turnTotal < 2]; [None] when the component renders
    nothing. *)
Definition potentialBust (s : GameState) : option bool :=
  match getCurrentPlayer s with
  | None => None
  | Some currentPlayer =>
    if gameFinished s then None
    else Some (Player.score currentPlayer - turnTotal (currentTurn s) <? 2)%Z
  end.

(** The warning is drawn: [potentialBust && currentTurn.length > 0]. *)
Definition warningShown (s : GameState) : bool :=
  match potentialBust s with
  | Some b => b && (0 <? List.length (currentTurn s))%nat
  | None => false
  end.

End CurrentTurnView.

(** A game in which the first player needs one more leg and stands on 40,
    and the same player on 100 at the start of a turn. *)
Definition lastLeg : GameStore.GameState :=
  GameStore.withPlayers
    [ GameStore.Player.mk 1 "Ann" 40 40 9 2 true [];
      GameStore.Player.mk 2 "Bob" 501 501 9 1 false [] ]%string
    twoPlayers.

Definition onHundred : GameStore.GameState :=
  GameStore.withPlayers
    [ GameStore.Player.mk 1 "Ann" 100 100 9 0 true [];
      GameStore.Player.mk 2 "Bob" 501 501 9 0 false [] ]%string
    twoPlayers.

(** The second variant over the example frames: a frame without pixels is
    empty. *)
Definition noPixels (m : @Mat exampleCV) : bool :=
  match m with [] => true | _ :: _ => false end.

Definition settlingPass : @Variant2Pass.Pass exampleCV :=
  Variant2Pass.mkPass
    (calibratedWorld identityMatrix vga
       (mkRefs (cv := exampleCV) (Some [10; 10; 10; 10]%Z)
               (Some [10; 10; 10; 10]%Z) None 0 false))
    1000 false 0 false.

(** The same component after a settle, with a post-throw frame held and
    live, and with the calibration record then dropped. *)
Definition droppedPass : @Variant2Pass.Pass exampleCV :=
  Variant2Pass.mkPass
    (onState (setCalibrationData None)
       (calibratedWorld identityMatrix vga
          (mkRefs (cv := exampleCV) (Some [10; 10; 10; 10]%Z)
                  (Some [10; 10; 10; 10]%Z) (Some [10; 10; 10; 10]%Z) 0 false)))
    1000 false 0 false.

(** Calibrating again with the identity matrix. *)
Definition calibratesAgain : @Variant2Pass.Step exampleCV :=
  Variant2Pass.HandlerRuns
    (setCalibrationData (Some (calibrationFor identityMatrix vga)))
    (fun store => store).

Definition secondTick (t : Q) : @Variant2Pass.Tick2 exampleCV :=
  Variant2Pass.mkTick2 (quietTick t) true true.

(** The first variant's component, calibrated, with no pass requested. *)
Definition idleIngest : @Ingest exampleCV :=
  mkIngest (calibratedWorld identityMatrix vga refsAfterDetection) true false 0.


(** A contour whose two end points are equally far from the centroid of its
    moments, and those moments. *)
Definition tiedContour : Contour :=
  [mkPoint 0 0; mkPoint 56 16; mkPoint 72 72]%Z.

Definition tiedMoments {F : Type} {A : Numeric.Arithmetic F} : Numeric.Moments F :=
  Numeric.mkMoments (Numeric.ofInt 1440) (Numeric.ofInt 61440) (Numeric.ofInt 42240).

(* ================================================================== *)
(** * Part II: theorems                                                *)
(* ================================================================== *)

Section JSFacts.

Local Open Scope R_scope.

Lemma trunc_small (r : R) : -1 < r < 1 -> JS.trunc r = 0%Z.
Proof.
  intros [Hlo Hhi]. unfold JS.trunc.
  destruct (Rle_dec 0 r) as [Hr | Hr].
  - apply Zfloor_eq. simpl. lra.
  - apply Zceil_eq. simpl. lra.
Qed.

Lemma rem_small (a b : R) : 0 < b -> - b < a < b -> JS.rem a b = a.
Proof.
  intros Hb [Hlo Hhi]. unfold JS.rem.
  rewrite trunc_small.
  - simpl. lra.
  - split.
    + apply Rmult_lt_reg_r with b; [exact Hb|].
      unfold Rdiv. rewrite Rmult_assoc, Rinv_l by lra. lra.
    + apply Rmult_lt_reg_r with b; [exact Hb|].
      unfold Rdiv. rewrite Rmult_assoc, Rinv_l by lra. lra.
Qed.

(** The remainder stays strictly inside (-b, b). *)
Lemma rem_bound (a b : R) : 0 < b -> - b < JS.rem a b < b.
Proof.
  intros Hb. unfold JS.rem, JS.trunc.
  assert (Hq : a = b * (a / b)) by (field; lra).
  destruct (Rle_dec 0 (a / b)) as [Hr | Hr].
  - pose proof (Zfloor_bound (a / b)) as [H1 H2].
    set (k := IZR (Zfloor (a / b))) in *.
    assert (0 <= a / b - k < 1) as [H3 H4] by lra.
    replace (a - b * k) with (b * (a / b - k)) by (field; lra).
    split; nra.
  - pose proof (Zceil_bound (a / b)) as [H1 H2].
    set (k := IZR (Zceil (a / b))) in *.
    assert (-1 < a / b - k <= 0) as [H3 H4] by lra.
    replace (a - b * k) with (b * (a / b - k)) by (field; lra).
    split; nra.
Qed.

Lemma atan2_up (v : R) : 0 < v -> JS.atan2 v 0 = PI / 2.
Proof.
  intros Hv. unfold JS.atan2.
  destruct (Rlt_dec 0 0) as [H | _]; [lra|].
  destruct (Rlt_dec 0 0) as [H | _]; [lra|].
  destruct (Rlt_dec 0 v) as [_ | H]; [reflexivity | lra].
Qed.

End JSFacts.

Section ComparisonFacts.

Local Open Scope R_scope.

Lemma le_true (a b : R) : JS.le a b = true <-> a <= b.
Proof. unfold JS.le. destruct (Rle_dec a b); split; intros; auto; discriminate. Qed.

Lemma le_false (a b : R) : JS.le a b = false <-> b < a.
Proof.
  unfold JS.le. destruct (Rle_dec a b); split; intros; auto; try discriminate; lra.
Qed.

Lemma lt_true (a b : R) : JS.lt a b = true <-> a < b.
Proof. unfold JS.lt. destruct (Rlt_dec a b); split; intros; auto; discriminate. Qed.

Lemma lt_false (a b : R) : JS.lt a b = false <-> b <= a.
Proof.
  unfold JS.lt. destruct (Rlt_dec a b); split; intros; auto; try discriminate; lra.
Qed.

Lemma ge_true (a b : R) : JS.ge a b = true <-> b <= a.
Proof.
  unfold JS.ge. destruct (Rge_dec a b); split; intros; auto; try discriminate; lra.
Qed.

Lemma ge_false (a b : R) : JS.ge a b = false <-> a < b.
Proof.
  unfold JS.ge. destruct (Rge_dec a b); split; intros; auto; try discriminate; lra.
Qed.

Lemma gt_true (a b : R) : JS.gt a b = true <-> b < a.
Proof.
  unfold JS.gt. destruct (Rgt_dec a b); split; intros; auto; try discriminate; lra.
Qed.

Lemma gt_false (a b : R) : JS.gt a b = false <-> a <= b.
Proof.
  unfold JS.gt. destruct (Rgt_dec a b); split; intros; auto; try discriminate; lra.
Qed.

End ComparisonFacts.

(** Rewrites a comparison whose outcome follows from the context. *)
Ltac decide_cmp :=
  repeat match goal with
  | |- context [JS.le ?a ?b] =>
      first [ rewrite (proj2 (le_true a b)) by (simpl; lra)
            | rewrite (proj2 (le_false a b)) by (simpl; lra) ]
  | |- context [JS.lt ?a ?b] =>
      first [ rewrite (proj2 (lt_true a b)) by (simpl; lra)
            | rewrite (proj2 (lt_false a b)) by (simpl; lra) ]
  | |- context [JS.ge ?a ?b] =>
      first [ rewrite (proj2 (ge_true a b)) by (simpl; lra)
            | rewrite (proj2 (ge_false a b)) by (simpl; lra) ]
  | |- context [JS.gt ?a ?b] =>
      first [ rewrite (proj2 (gt_true a b)) by (simpl; lra)
            | rewrite (proj2 (gt_false a b)) by (simpl; lra) ]
  end.

Section ScoreMappingFacts.

Local Open Scope R_scope.

Lemma distance_above (d : R) : 0 <= d -> distanceFromCenter (above d) = d.
Proof.
  intros Hd. unfold distanceFromCenter, above, boardCenterX, boardCenterY,
    CALIBRATION_TARGET_SIZE. simpl.
  replace ((250 - 500 / 2) * (250 - 500 / 2) + (250 - d - 500 / 2) * (250 - d - 500 / 2))
    with (d * d) by field.
  apply sqrt_square; exact Hd.
Qed.

(** The code's angle for a point straight above the centre is 180 degrees,
    which selects index 10 of the table. *)
Lemma segmentIndexOf_above (d : R) : 0 < d -> segmentIndexOf (above d) = 10%Z.
Proof.
  intros Hd. unfold segmentIndexOf, above, boardCenterX, boardCenterY,
    CALIBRATION_TARGET_SIZE. simpl.
  replace (250 - 500 / 2) with 0 by field.
  replace (- (250 - d - 500 / 2)) with d by field.
  rewrite atan2_up by exact Hd.
  pose proof PI_RGT_0 as Hpi.
  rewrite (proj2 (lt_false (PI / 2) 0)) by lra.
  rewrite (rem_small (PI / 2 + PI / 2) (2 * PI)) by lra.
  replace ((PI / 2 + PI / 2) * (180 / PI)) with 180 by (field; lra).
  rewrite (rem_small (180 + 9) 360) by lra.
  unfold JS.floor. apply Zfloor_eq. simpl. lra.
Qed.

End ScoreMappingFacts.

Section ScoreMappingTheorems.

Local Open Scope R_scope.

(** Every point straight above the board centre inside the scoring area
    gets face value 3 (the entry at index 10), whatever its ring. *)
Lemma getScoreFromCoords_above (d : R) :
  20 < d <= 215 ->
  getScoreFromCoords (Some (above d)) =
    Some (mkDetection
            (if JS.ge d 200 then 6
             else if JS.ge d 120 && JS.le d 135 then 9 else 3) 1).
Proof.
  intros [Hlo Hhi]. unfold getScoreFromCoords.
  rewrite distance_above by lra. cbv zeta.
  rewrite segmentIndexOf_above by lra.
  change (JS.index segmentScores 10) with (Some 3%Z).
  unfold radii; cbn [doubleBull singleBull innerTriple outerTriple
                     innerDouble outerDouble].
  rewrite (proj2 (le_false d 8)) by lra.
  rewrite (proj2 (le_false d 20)) by lra.
  rewrite (proj2 (gt_false d 215)) by lra.
  destruct (JS.ge d 200); [reflexivity|].
  destruct (JS.ge d 120 && JS.le d 135); reflexivity.
Qed.

(** C1 (the code at the failing inputs): the point at the angular centre of
    the 20 segment, straight above the centre, scores 3 at single-ring
    distance 150 and 9 at triple-ring distance 125, not 20 and 60. *)
Theorem getScoreFromCoords_top_of_board :
  getScoreFromCoords (Some (mkPoint 250 100)) = Some (mkDetection 3 1) /\
  getScoreFromCoords (Some (mkPoint 250 125)) = Some (mkDetection 9 1).
Proof.
  split.
  - replace (mkPoint 250 100) with (above 150)
      by (unfold above; f_equal; lra).
    rewrite getScoreFromCoords_above by lra.
    decide_cmp. reflexivity.
  - replace (mkPoint 250 125) with (above 125)
      by (unfold above; f_equal; lra).
    rewrite getScoreFromCoords_above by lra.
    decide_cmp. reflexivity.
Qed.



End ScoreMappingTheorems.

Section ManualBoardTheorems.

Local Open Scope R_scope.

Lemma boardAngle_range (bx by_ : R) : 0 <= boardAngle bx by_ < 360.
Proof.
  unfold boardAngle. cbv zeta.
  set (r := JS.rem _ 360).
  assert (Hr : - 360 < r < 360) by (apply rem_bound; lra).
  destruct (JS.lt r 0) eqn:E.
  - apply lt_true in E. lra.
  - apply lt_false in E. lra.
Qed.

Lemma floor_range (a : R) (n : Z) :
  0 <= a < IZR n -> (0 <= JS.floor a < n)%Z.
Proof.
  intros [Hlo Hhi]. unfold JS.floor.
  pose proof (Zfloor_bound a) as [H1 H2].
  split.
  - apply Zfloor_lub. simpl. exact Hlo.
  - apply lt_IZR. lra.
Qed.

Lemma index_in_range {A : Type} (l : list A) (i : Z) :
  (0 <= i < Z.of_nat (List.length l))%Z -> exists a, JS.index l i = Some a.
Proof.
  intros [Hlo Hhi]. unfold JS.index.
  destruct (Z.ltb_spec i 0) as [H | _]; [lia|].
  destruct (nth_error l (Z.to_nat i)) as [a|] eqn:E.
  - exists a. reflexivity.
  - apply nth_error_None in E. lia.
Qed.

Lemma DARTBOARD_NUMBERS_range (k face : Z) :
  JS.index DARTBOARD_NUMBERS k = Some face -> (1 <= face <= 20)%Z.
Proof.
  unfold JS.index. destruct (k <? 0)%Z; [discriminate|].
  intros H. apply nth_error_In in H.
  assert (Hall : Forall (fun f => (1 <= f <= 20)%Z) DARTBOARD_NUMBERS)
    by (unfold DARTBOARD_NUMBERS; repeat constructor; lia).
  rewrite Forall_forall in Hall. apply Hall. exact H.
Qed.

Lemma boardDistance_above (d : R) : 0 <= d -> boardDistance 170 (170 - d) = d.
Proof.
  intros Hd. unfold boardDistance.
  replace ((170 - 170) * (170 - 170) + (170 - d - 170) * (170 - d - 170))
    with (d * d) by lra.
  apply sqrt_square. exact Hd.
Qed.

(** C9: the manual board's [calculateScore] always returns a score whose
    points are the segment times the multiplier, and the score is the one
    of the band the point's distance from the centre falls in: 25 x 2 = 50
    with the bull flag within the inner-bull radius, 25 x 1 = 25 with the
    outer-bull flag within the outer-bull radius, 0 x 1 = 0 beyond the
    outer border, and otherwise the face value at the point's angle (one of
    1..20) times the ring multiplier: 3 in the triple ring, 2 in the double
    ring, 1 elsewhere. *)
Theorem calculateScore_points (bx by_ : R) :
  (exists s : DartScore,
     calculateScore bx by_ = Some s /\
     points s = (segment s * multiplier s)%Z) /\
  (boardDistance bx by_ <= 635 / 100 ->
     calculateScore bx by_ = Some (mkDartScore 25 2 50 true false)) /\
  (635 / 100 < boardDistance bx by_ <= 16 ->
     calculateScore bx by_ = Some (mkDartScore 25 1 25 false true)) /\
  (170 < boardDistance bx by_ ->
     calculateScore bx by_ = Some (mkDartScore 0 1 0 false false)) /\
  (16 < boardDistance bx by_ <= 170 ->
     exists face m : Z,
       JS.index DARTBOARD_NUMBERS (JS.floor (boardAngle bx by_ / 18)) = Some face /\
       (1 <= face <= 20)%Z /\
       (91 <= boardDistance bx by_ <= 99 -> m = 3%Z) /\
       (162 <= boardDistance bx by_ <= 170 -> m = 2%Z) /\
       (boardDistance bx by_ < 91 \/ 99 < boardDistance bx by_ < 162 -> m = 1%Z) /\
       calculateScore bx by_ = Some (mkDartScore face m (face * m) false false)).
Proof.
  pose proof (boardAngle_range bx by_) as Ha.
  assert (Hk : (0 <= JS.floor (boardAngle bx by_ / 18) < 20)%Z)
    by (apply floor_range; simpl; lra).
  destruct (index_in_range DARTBOARD_NUMBERS _ Hk) as [n Hn].
  unfold calculateScore, boardDistance. cbv zeta.
  cbn [DARTBOARD_CONFIG CENTER x y INNER_BULL_RADIUS OUTER_BULL_RADIUS
       OUTER_BORDER_RADIUS TRIPLE_RING_INNER_RADIUS TRIPLE_RING_OUTER_RADIUS
       DOUBLE_RING_INNER_RADIUS DOUBLE_RING_OUTER_RADIUS].
  generalize (sqrt ((bx - 170) * (bx - 170) + (by_ - 170) * (by_ - 170))) as d.
  intros d. rewrite Z.rem_small by lia. rewrite Hn.
  split; [|split; [|split; [|split]]].
  - destruct (JS.le d (635 / 100)); [eexists; split; reflexivity|].
    destruct (JS.le d 16); [eexists; split; reflexivity|].
    destruct (JS.gt d 170); eexists; split; reflexivity.
  - intros H. decide_cmp. reflexivity.
  - intros [H1 H2]. decide_cmp. reflexivity.
  - intros H. decide_cmp. reflexivity.
  - intros [H1 H2].
    rewrite (proj2 (le_false d (635 / 100))) by lra.
    rewrite (proj2 (le_false d 16)) by lra.
    rewrite (proj2 (gt_false d 170)) by lra.
    exists n.
    destruct (Rle_dec 91 d) as [T1 | T1].
    + destruct (Rle_dec d 99) as [T2 | T2].
      * exists 3%Z. decide_cmp. cbn [andb].
        repeat split; try reflexivity; try lra;
          try (apply (DARTBOARD_NUMBERS_range _ _ Hn)); intros; lra.
      * destruct (Rle_dec 162 d) as [D1 | D1].
        -- exists 2%Z. decide_cmp. cbn [andb].
           repeat split; try reflexivity; try lra;
             try (apply (DARTBOARD_NUMBERS_range _ _ Hn)); intros; lra.
        -- exists 1%Z. decide_cmp. cbn [andb].
           repeat split; try reflexivity; try lra;
             try (apply (DARTBOARD_NUMBERS_range _ _ Hn)); intros; lra.
    + exists 1%Z. decide_cmp. cbn [andb].
      repeat split; try reflexivity; try lra;
        try (apply (DARTBOARD_NUMBERS_range _ _ Hn)); intros; lra.
Qed.

Lemma calculateScore_points_witness :
  calculateScore 170 (170 - 0) = Some (mkDartScore 25 2 50 true false) /\
  calculateScore 170 (170 - 10) = Some (mkDartScore 25 1 25 false true) /\
  calculateScore 170 (170 - 180) = Some (mkDartScore 0 1 0 false false) /\
  (exists face m : Z,
     (1 <= face <= 20)%Z /\ m = 3%Z /\
     calculateScore 170 (170 - 95) = Some (mkDartScore face m (face * m) false false)).
Proof.
  split; [|split; [|split]].
  - apply (calculateScore_points 170 (170 - 0)).
    rewrite boardDistance_above by lra. lra.
  - apply (calculateScore_points 170 (170 - 10)).
    rewrite boardDistance_above by lra. lra.
  - apply (calculateScore_points 170 (170 - 180)).
    rewrite boardDistance_above by lra. lra.
  - destruct (calculateScore_points 170 (170 - 95)) as (_ & _ & _ & _ & H).
    destruct H as (face & m & _ & Hface & Hm & _ & _ & Hs).
    + rewrite boardDistance_above by lra. lra.
    + exists face, m. split; [exact Hface|]. split; [|exact Hs].
      apply Hm. rewrite boardDistance_above by lra. lra.
Defined.

(** The manual board, for comparison, gives the top of the board to 20. *)
Lemma calculateScore_top_of_board :
  calculateScore 170 100 = Some (mkDartScore 20 1 20 false false).
Proof.
  assert (Hang : boardAngle 170 100 = 9).
  { unfold boardAngle. cbn [DARTBOARD_CONFIG CENTER x y].
    replace (170 - 170) with 0 by lra.
    replace (100 - 170) with (- 70) by lra.
    assert (Hat : JS.atan2 (- 70) 0 = - (PI / 2)).
    { unfold JS.atan2.
      destruct (Rlt_dec 0 0) as [H | _]; [lra|].
      destruct (Rlt_dec 0 0) as [H | _]; [lra|].
      destruct (Rlt_dec 0 (- 70)) as [H | _]; [lra|].
      destruct (Rlt_dec (- 70) 0) as [_ | H]; [reflexivity | lra]. }
    cbv zeta. rewrite Hat.
    pose proof PI_RGT_0 as Hpi.
    replace (- (PI / 2) * 180 / PI + 99) with 9 by (field; lra).
    rewrite (rem_small 9 360) by lra.
    decide_cmp. reflexivity. }
  unfold calculateScore. cbv zeta. rewrite Hang.
  cbn [DARTBOARD_CONFIG CENTER x y INNER_BULL_RADIUS OUTER_BULL_RADIUS
       OUTER_BORDER_RADIUS TRIPLE_RING_INNER_RADIUS TRIPLE_RING_OUTER_RADIUS
       DOUBLE_RING_INNER_RADIUS DOUBLE_RING_OUTER_RADIUS].
  replace ((170 - 170) * (170 - 170) + (100 - 170) * (100 - 170))
    with (70 * 70) by lra.
  rewrite sqrt_square by lra.
  decide_cmp.
  replace (JS.floor (9 / 18)) with 0%Z
    by (symmetry; apply Zfloor_eq; simpl; lra).
  reflexivity.
Qed.

End ManualBoardTheorems.

Section RationalComparisons.

Local Open Scope Q_scope.

Lemma Qlt_bool_true (a b : Q) : JS.Qlt_bool a b = true <-> a < b.
Proof.
  unfold JS.Qlt_bool. rewrite negb_true_iff.
  split; intros H.
  - apply Qnot_le_lt. intros Hle. apply Qle_bool_iff in Hle. congruence.
  - destruct (Qle_bool b a) eqn:E; [|reflexivity].
    apply Qle_bool_iff in E. exfalso. exact (Qlt_not_le _ _ H E).
Qed.

Lemma Qlt_bool_false (a b : Q) : JS.Qlt_bool a b = false <-> b <= a.
Proof.
  unfold JS.Qlt_bool. rewrite negb_false_iff. apply Qle_bool_iff.
Qed.

Lemma Qgt_bool_true (a b : Q) : JS.Qgt_bool a b = true <-> b < a.
Proof. unfold JS.Qgt_bool. apply Qlt_bool_true. Qed.

Lemma Qgt_bool_false (a b : Q) : JS.Qgt_bool a b = false <-> a <= b.
Proof. unfold JS.Qgt_bool. apply Qlt_bool_false. Qed.

End RationalComparisons.

Section TipExtractionTheorems.

Context {cv : OpenCV}.
Local Open Scope Q_scope.

Lemma Qsquare_nonneg (a : Q) : 0 <= a * a.
Proof.
  unfold Qle, Qmult. cbn [Qnum Qden]. rewrite Z.mul_0_l, Z.mul_1_r.
  apply Z.square_nonneg.
Qed.

Lemma distanceSq_nonneg (cX cY : Q) (p : Point Z) : 0 <= distanceSq cX cY p.
Proof.
  unfold distanceSq. cbv zeta.
  generalize (inject_Z (x p) - cX) (inject_Z (y p) - cY). intros dx dy.
  pose proof (Qsquare_nonneg dx) as Hx.
  pose proof (Qsquare_nonneg dy) as Hy.
  Lqa.lra.
Qed.

Lemma furthestLoop_spec (cX cY : Q) (rows : Contour) :
  forall (acc : option (Point Z)) (m : Q),
    loopInvariant cX cY acc m ->
    match furthestLoop cX cY rows acc m with
    | None => rows = [] /\ acc = None
    | Some p =>
      (In p rows \/ acc = Some p) /\
      (forall q, In q rows -> distanceSq cX cY q <= distanceSq cX cY p) /\
      m <= distanceSq cX cY p
    end.
Proof.
  induction rows as [| point rest IH]; intros acc m Hinv; cbn [furthestLoop].
  - destruct acc as [a |]; cbn in Hinv.
    + split; [right; reflexivity|]. split; [intros q []|]. Lqa.lra.
    + split; reflexivity.
  - destruct (JS.Qgt_bool (distanceSq cX cY point) m) eqn:E.
    + apply Qgt_bool_true in E.
      specialize (IH (Some point) (distanceSq cX cY point)).
      cbn [loopInvariant] in IH. specialize (IH (Qeq_refl _)).
      destruct (furthestLoop cX cY rest (Some point) (distanceSq cX cY point))
        as [p |].
      * destruct IH as (Hin & Hmax & Hm). repeat split.
        -- left. destruct Hin as [Hin | Heq];
             [right; exact Hin | left; congruence].
        -- intros q [<- | Hq]; [exact Hm | apply Hmax; exact Hq].
        -- Lqa.lra.
      * destruct IH as [_ Hacc]. discriminate.
    + apply Qgt_bool_false in E.
      specialize (IH acc m Hinv).
      destruct (furthestLoop cX cY rest acc m) as [p |].
      * destruct IH as (Hin & Hmax & Hm). repeat split.
        -- destruct Hin as [Hin | Heq];
             [left; right; exact Hin | right; exact Heq].
        -- intros q [<- | Hq]; [Lqa.lra | apply Hmax; exact Hq].
        -- exact Hm.
      * destruct IH as [_ ->]. cbn in Hinv.
        pose proof (distanceSq_nonneg cX cY point). Lqa.lra.
  Qed.

Lemma Q2R_inject_Z (z : Z) : Q2R (inject_Z z) = IZR z.
Proof. unfold Q2R, inject_Z. cbn [Qnum Qden]. lra. Qed.

(** The squared distance the loop computes is the square of the Euclidean
    distance from the point the rationals [cX], [cY] stand for. *)
Lemma distanceSq_euclidean (cX cY : Q) (p : Point Z) :
  sqrt (Q2R (distanceSq cX cY p)) = euclideanDistance (Q2R cX, Q2R cY) p.
Proof.
  unfold distanceSq, euclideanDistance. cbv zeta. cbn [fst snd].
  rewrite Q2R_plus, !Q2R_mult, !Q2R_minus, !Q2R_inject_Z. reflexivity.
Qed.

Lemma momentCentroid_centroid (contour : Contour) :
  ~ m00 (moments contour) == 0 ->
  momentCentroid contour =
    (Q2R (m10 (moments contour) / m00 (moments contour)),
     Q2R (m01 (moments contour) / m00 (moments contour))).
Proof.
  intros H. unfold momentCentroid.
  unfold Qdiv. rewrite !Q2R_mult, (Q2R_inv _ H). reflexivity.
Qed.

(** C10: [findDartTip] returns null exactly when the contour has no rows or
    its zeroth moment is 0; otherwise it returns a point of the contour at
    maximal Euclidean distance, in the real plane, from the centroid
    (m10 / m00, m01 / m00).  The arithmetic is exact here; [Numeric] has the
    loop in binary64, where rounding decides between near ties. *)
Theorem findDartTip_spec (contour : Contour) :
  match findDartTip contour with
  | None => contour = [] \/ m00 (moments contour) == 0
  | Some tip =>
    contour <> [] /\ ~ m00 (moments contour) == 0 /\
    In tip contour /\
    forall q, In q contour ->
      (euclideanDistance (momentCentroid contour) q
       <= euclideanDistance (momentCentroid contour) tip)%R
  end.
Proof.
  unfold findDartTip.
  destruct contour as [| p0 rest]; [left; reflexivity|].
  set (c := p0 :: rest). cbv zeta.
  destruct (Qeq_bool (m00 (moments c)) 0) eqn:E.
  - right. apply Qeq_bool_eq. exact E.
  - apply Qeq_bool_neq in E.
    pose proof (furthestLoop_spec (m10 (moments c) / m00 (moments c))
                  (m01 (moments c) / m00 (moments c)) c None (-1)) as H.
    cbn [loopInvariant] in H. specialize (H ltac:(reflexivity)).
    destruct (furthestLoop _ _ c None (-1)) as [tip |].
    + destruct H as (Hin & Hmax & _).
      split; [discriminate|]. split; [exact E|].
      split; [destruct Hin as [Hin | Heq]; [exact Hin | discriminate]|].
      intros q Hq. rewrite (momentCentroid_centroid c E).
      rewrite <- !distanceSq_euclidean.
      apply sqrt_le_1_alt. apply Qle_Rle. apply Hmax. exact Hq.
    + destruct H as [Hnil _]. discriminate.
Qed.

End TipExtractionTheorems.

Section DetectDartTheorems.

Context {cv : OpenCV}.

Lemma detectDartTry_refs (w : World) (a b : Mat) (t : Q) :
  stillFrameBeforeDartRef (refs (fst (detectDartTry w a b t)))
    = stillFrameBeforeDartRef (refs w) /\
  prevWarpedFrameRef (refs (fst (detectDartTry w a b t)))
    = prevWarpedFrameRef (refs w) /\
  isStill (state (fst (detectDartTry w a b t))) = isStill (state w) /\
  calibrationData (state (fst (detectDartTry w a b t)))
    = calibrationData (state w) /\
  isCalibrating (state (fst (detectDartTry w a b t)))
    = isCalibrating (state w) /\
  cvLoaded (state (fst (detectDartTry w a b t))) = cvLoaded (state w) /\
  isConnected (state (fst (detectDartTry w a b t)))
    = isConnected (state w).
Proof.
  unfold detectDartTry.
  destruct (diffContours 15 a b) as [contours |]; [|repeat split].
  destruct (largestLoop contours None 0) as [largest |]; [|repeat split].
  destruct (findDartTip largest) as [tip |]; repeat split.
Qed.

Lemma detectDart_state (w : World) (a b : Mat) (t : Q) :
  isStill (state (fst (detectDart w a b t))) = isStill (state w) /\
  calibrationData (state (fst (detectDart w a b t)))
    = calibrationData (state w) /\
  isCalibrating (state (fst (detectDart w a b t)))
    = isCalibrating (state w) /\
  cvLoaded (state (fst (detectDart w a b t))) = cvLoaded (state w) /\
  isConnected (state (fst (detectDart w a b t))) = isConnected (state w).
Proof.
  unfold detectDart.
  pose proof (detectDartTry_refs (onState (setDetectedTip None) w) a b t)
    as (_ & _ & H1 & H2 & H3 & H4 & H5).
  destruct (detectDartTry (onState (setDetectedTip None) w) a b t)
    as [w1 evs].
  cbn [fst] in *. cbn. repeat split; assumption.
Qed.

(** C7: both variants of [detectDart] leave the post-throw frame they were
    given as the held pre-throw reference, whatever the detection found. *)
Theorem detectDart_advances_baseline
        (w : World) (frameAfter frameBefore : Mat) (t : Q) :
  stillFrameBeforeDartRef (refs (fst (detectDart w frameAfter frameBefore t)))
    = Some frameAfter /\
  stillFrameBeforeDartRef
    (refs (Variant2Detector.detectDart w frameAfter frameBefore))
    = Some frameAfter.
Proof.
  split.
  - unfold detectDart.
    destruct (detectDartTry (onState (setDetectedTip None) w)
                            frameAfter frameBefore t) as [w1 evs].
    reflexivity.
  - reflexivity.
Qed.

End DetectDartTheorems.

Section ProcessFrameFacts.

Context {cv : OpenCV}.
Local Open Scope Q_scope.

Lemma dimensionCheck_keeps (s : State) (w : World) (t : Tick) :
  refs (dimensionCheck s w t) = refs w /\
  isStill (state (dimensionCheck s w t)) = isStill (state w) /\
  cvLoaded (state (dimensionCheck s w t)) = cvLoaded (state w) /\
  isConnected (state (dimensionCheck s w t)) = isConnected (state w).
Proof.
  unfold dimensionCheck.
  destruct (calibrationData s) as [c |]; [|repeat split].
  destruct (negb _ || negb _); repeat split.
Qed.

Lemma dimensionCheck_same (s : State) (w : World) (t : Tick) (c : CalibrationData) :
  calibrationData s = Some c ->
  naturalWidth t = width (sourceDimensions c) ->
  naturalHeight t = height (sourceDimensions c) ->
  dimensionCheck s w t = w.
Proof.
  intros Hc Hw Hh. unfold dimensionCheck. rewrite Hc, Hw, Hh.
  rewrite !Z.eqb_refl. reflexivity.
Qed.

Lemma dimensionCheck_mismatch (s : State) (w : World) (t : Tick) (c : CalibrationData) :
  calibrationData s = Some c ->
  Dimensions_eqb (sourceDimensions c)
                 (mkDimensions (naturalWidth t) (naturalHeight t)) = false ->
  calibrationData (state (dimensionCheck s w t)) = None /\
  localStorage (dimensionCheck s w t) = None.
Proof.
  intros Hc Hd. unfold dimensionCheck. rewrite Hc.
  unfold Dimensions_eqb in Hd. cbn [width height] in Hd.
  rewrite <- negb_andb, Hd. split; reflexivity.
Qed.

Lemma processFrame_rectified (w : World) (t : Tick) (M : list Q) :
  rectifies w t M ->
  processFrame w t =
    let warped := warpPerspective (pixels t) M in
    let '(w1, currentIsStill) :=
      stillnessCheck (state w) (dimensionCheck (state w) w t) warped t in
    let '(w2, evs) := transitionLogic (state w) w1 warped currentIsStill t in
    (onRefs (setPrev (Some warped)) w2, ShowWarped warped :: evs).
Proof.
  intros (Hcv & Hcanvas & Hconn & Hwidth & Hcal & c & Hc & HM).
  unfold processFrame. rewrite Hcv, Hcanvas, Hconn, Hcal. cbn [negb].
  destruct (Z.eqb_spec (naturalWidth t) 0) as [E | _]; [contradiction|].
  cbv zeta. rewrite Hc. destruct c as [ip wp hm sd]. cbn in HM. subst hm.
  reflexivity.
Qed.

Lemma stillnessCheck_keeps (s : State) (w : World) (warped : Mat) (t : Tick) :
  refs (fst (stillnessCheck s w warped t)) = refs w /\
  localStorage (fst (stillnessCheck s w warped t)) = localStorage w /\
  calibrationData (state (fst (stillnessCheck s w warped t)))
    = calibrationData (state w) /\
  isCalibrating (state (fst (stillnessCheck s w warped t)))
    = isCalibrating (state w) /\
  cvLoaded (state (fst (stillnessCheck s w warped t))) = cvLoaded (state w) /\
  isConnected (state (fst (stillnessCheck s w warped t)))
    = isConnected (state w).
Proof.
  unfold stillnessCheck.
  destruct (outsideCooldown (refs w) (now t)).
  - destruct (prevWarpedFrameRef (refs w)) as [prev |]; [|repeat split].
    destruct (negb _); repeat split.
  - destruct (negb (isStill s)); repeat split.
Qed.


(** Inside the cooldown the comparison is skipped and the pending state is
    Still. *)
Lemma stillnessCheck_cooldown (s : State) (w : World) (warped : Mat) (t : Tick) :
  isStill (state w) = isStill s ->
  outsideCooldown (refs w) (now t) = false ->
  isStill (state (fst (stillnessCheck s w warped t))) = true /\
  snd (stillnessCheck s w warped t) = true.
Proof.
  intros Hs Hout. unfold stillnessCheck. rewrite Hout.
  destruct (isStill s) eqn:Es; cbn; auto.
Qed.

Lemma transitionLogic_state
      (s : State) (w : World) (warped : Mat) (cur : bool) (t : Tick) :
  isStill (state (fst (transitionLogic s w warped cur t))) = isStill (state w) /\
  calibrationData (state (fst (transitionLogic s w warped cur t)))
    = calibrationData (state w) /\
  isCalibrating (state (fst (transitionLogic s w warped cur t)))
    = isCalibrating (state w) /\
  cvLoaded (state (fst (transitionLogic s w warped cur t))) = cvLoaded (state w) /\
  isConnected (state (fst (transitionLogic s w warped cur t)))
    = isConnected (state w).
Proof.
  unfold transitionLogic.
  destruct (cur && negb (isStill s) && outsideCooldown (refs w) (now t)).
  - destruct (stillFrameBeforeDartRef (refs w)) as [before |]; [|repeat split].
    pose proof (detectDart_state (onRefs (setAfter (Some warped)) w)
                  warped before (detectionNow t)) as H.
    destruct (detectDart _ warped before (detectionNow t)) as [w2 evs].
    exact H.
  - destruct (negb cur && isStill s); [|repeat split].
    destruct (stillFrameBeforeDartRef (refs w)); repeat split.
Qed.

(** Inside the cooldown the transition logic neither calls [detectDart] nor
    touches the time of the last detection. *)
Lemma transitionLogic_cooldown
      (s : State) (w : World) (warped : Mat) (cur : bool) (t : Tick) :
  outsideCooldown (refs w) (now t) = false ->
  filter isDetectDartCalled (snd (transitionLogic s w warped cur t)) = [] /\
  lastDetectionTimeRef (refs (fst (transitionLogic s w warped cur t)))
    = lastDetectionTimeRef (refs w).
Proof.
  intros Hout. unfold transitionLogic. rewrite Hout, andb_false_r.
  destruct (negb cur && isStill s); [|split; reflexivity].
  destruct (stillFrameBeforeDartRef (refs w)); split; reflexivity.
Qed.

End ProcessFrameFacts.

Section StillnessTheorems.

Context {cv : OpenCV}.
Local Open Scope Q_scope.


(** A pass in the cooldown: no detection, the detection time stays, and a
    rectified pass leaves the state at Still. *)
Lemma processFrame_cooldown (w : World) (t : Tick) :
  now t - lastDetectionTimeRef (refs w) <= detectionCooldownMs ->
  filter isDetectDartCalled (snd (processFrame w t)) = [] /\
  lastDetectionTimeRef (refs (fst (processFrame w t)))
    = lastDetectionTimeRef (refs w) /\
  (forall M, rectifies w t M -> isStill (state (fst (processFrame w t))) = true).
Proof.
  intros Hcool.
  assert (Hout : outsideCooldown (refs w) (now t) = false)
    by (unfold outsideCooldown; apply Qgt_bool_false; exact Hcool).
  pose proof (dimensionCheck_keeps (state w) w t) as (Hrefs & Hstill & _).
  assert (Hgen : forall M, rectifies w t M ->
    filter isDetectDartCalled (snd (processFrame w t)) = [] /\
    lastDetectionTimeRef (refs (fst (processFrame w t)))
      = lastDetectionTimeRef (refs w) /\
    isStill (state (fst (processFrame w t))) = true).
  { intros M Hrect.
    rewrite (processFrame_rectified w t M Hrect). cbv zeta.
    set (warped := warpPerspective (pixels t) M).
    pose proof (stillnessCheck_keeps (state w) (dimensionCheck (state w) w t)
                  warped t) as (Hr1 & _).
    pose proof (stillnessCheck_cooldown (state w) _ warped t Hstill
                  ltac:(rewrite Hrefs; exact Hout)) as [Hs1 _].
    destruct (stillnessCheck (state w) (dimensionCheck (state w) w t) warped t)
      as [w1 cur].
    cbn [fst] in *.
    assert (Hout1 : outsideCooldown (refs w1) (now t) = false)
      by (rewrite Hr1, Hrefs; exact Hout).
    pose proof (transitionLogic_cooldown (state w) w1 warped cur t Hout1)
      as [Hev Hlast].
    pose proof (transitionLogic_state (state w) w1 warped cur t) as [Htr _].
    destruct (transitionLogic (state w) w1 warped cur t) as [w2 evs].
    cbn [fst snd] in *. cbn [onRefs state refs setPrev lastDetectionTimeRef].
    cbn [filter isDetectDartCalled].
    rewrite Hev, Hlast, Hr1, Hrefs, Htr, Hs1. repeat split. }
  split; [|split].
  - unfold processFrame.
    destruct (negb (cvLoaded (state w))) eqn:E1; [reflexivity|].
    destruct (negb (canvasReady t)) eqn:E2; [reflexivity|].
    destruct (negb (isConnected (state w))) eqn:E3; [reflexivity|].
    destruct (Z.eqb_spec (naturalWidth t) 0) as [E4 | E4]; [reflexivity|].
    cbv zeta.
    destruct (isCalibrating (state w)) eqn:E5; [reflexivity|].
    destruct (calibrationData (state w)) as [[ip wp [M |] sd] |] eqn:E6;
      try reflexivity.
    assert (Hrect : rectifies w t M).
    { unfold rectifies. apply negb_false_iff in E1, E2, E3.
      repeat split; try assumption.
      eexists. split; [exact E6 | reflexivity]. }
    destruct (Hgen M Hrect) as (Hev & _).
    rewrite (processFrame_rectified w t M Hrect) in Hev. exact Hev.
  - unfold processFrame.
    destruct (negb (cvLoaded (state w))) eqn:E1; [reflexivity|].
    destruct (negb (canvasReady t)) eqn:E2; [reflexivity|].
    destruct (negb (isConnected (state w))) eqn:E3; [reflexivity|].
    destruct (Z.eqb_spec (naturalWidth t) 0) as [E4 | E4]; [reflexivity|].
    cbv zeta.
    destruct (isCalibrating (state w)) eqn:E5;
      [cbn [fst]; rewrite Hrefs; reflexivity|].
    destruct (calibrationData (state w)) as [[ip wp [M |] sd] |] eqn:E6.
    + assert (Hrect : rectifies w t M).
      { unfold rectifies. apply negb_false_iff in E1, E2, E3.
        repeat split; try assumption.
        eexists. split; [exact E6 | reflexivity]. }
      destruct (Hgen M Hrect) as (_ & Hlast & _).
      rewrite (processFrame_rectified w t M Hrect) in Hlast. exact Hlast.
    + cbn [fst].
      destruct (isStill (state w)); destruct (detectedTip (state w));
        cbn; rewrite Hrefs; reflexivity.
    + cbn [fst].
      destruct (isStill (state w)); destruct (detectedTip (state w));
        cbn; rewrite Hrefs; reflexivity.
  - intros M Hrect. apply (Hgen M Hrect).
Qed.

End StillnessTheorems.

Section CooldownTheorems.

Context {cv : OpenCV}.
Local Open Scope Q_scope.

Lemma armed_rectifies (w : World) (d : Dimensions) (t : Tick) :
  armed (state w) d -> accepted d t -> exists M, rectifies w t M.
Proof.
  intros (Hcv & Hconn & Hcal & c & M & Hc & HM & _) (Hcanvas & Hwidth & _).
  exists M. unfold rectifies. repeat split; try assumption.
  exists c. split; assumption.
Qed.

(** A frame of the calibrated size leaves the component armed. *)
Lemma processFrame_armed (w : World) (d : Dimensions) (t : Tick) :
  armed (state w) d -> accepted d t ->
  armed (state (fst (processFrame w t))) d.
Proof.
  intros Harmed Hacc.
  destruct (armed_rectifies w d t Harmed Hacc) as [M Hrect].
  destruct Harmed as (Hcv & Hconn & Hcal & c & M' & Hc & HM & Hd).
  destruct Hacc as (Hcanvas & Hwidth & Hw & Hh).
  rewrite (processFrame_rectified w t M Hrect). cbv zeta.
  set (warped := warpPerspective (pixels t) M).
  rewrite (dimensionCheck_same (state w) w t c Hc)
    by (rewrite Hd; assumption).
  pose proof (stillnessCheck_keeps (state w) w warped t)
    as (_ & _ & K1 & K2 & K3 & K4).
  destruct (stillnessCheck (state w) w warped t) as [w1 cur].
  pose proof (transitionLogic_state (state w) w1 warped cur t)
    as (_ & T1 & T2 & T3 & T4).
  destruct (transitionLogic (state w) w1 warped cur t) as [w2 evs].
  cbn [fst] in *. cbn [onRefs state].
  unfold armed. rewrite T3, K3, T4, K4, T2, K2, T1, K1.
  repeat split; try assumption.
  exists c, M'. repeat split; assumption.
Qed.

(** C4: over any succession of passes that all fall into the cooldown of
    the last detection, [detectDart] is never called and the time of the
    last detection stays; when the frames have the calibrated size, the
    state is Still at the end of every such succession, whatever the
    frames show. *)
Theorem cooldown_suppresses_detection (ticks : list Tick) :
  forall w : World,
    Forall (inCooldown (refs w)) ticks ->
    filter isDetectDartCalled (snd (run w ticks)) = [] /\
    lastDetectionTimeRef (refs (fst (run w ticks)))
      = lastDetectionTimeRef (refs w) /\
    (forall d, armed (state w) d -> Forall (accepted d) ticks ->
               ticks <> [] ->
               isStill (state (fst (run w ticks))) = true).
Proof.
  induction ticks as [| t rest IH]; intros w Hcool.
  - cbn. repeat split. intros d _ _ Hne. contradiction.
  - inversion Hcool as [| ? ? Ht Hrest]; subst.
    pose proof (processFrame_cooldown w t Ht) as (Hev & Hlast & Hstill).
    cbn [run].
    destruct (processFrame w t) as [w1 evs1] eqn:E1. cbn [fst snd] in *.
    assert (Hcool1 : Forall (inCooldown (refs w1)) rest).
    { eapply Forall_impl; [|exact Hrest].
      intros a Ha. unfold inCooldown in *. rewrite Hlast. exact Ha. }
    specialize (IH w1 Hcool1). destruct IH as (IHev & IHlast & IHstill).
    destruct (run w1 rest) as [w2 evs2] eqn:E2. cbn [fst snd] in *.
    split; [|split].
    + rewrite filter_app, Hev, IHev. reflexivity.
    + rewrite IHlast. exact Hlast.
    + intros d Harmed Hacc _.
      inversion Hacc as [| ? ? Hat Harest]; subst.
      destruct rest as [| t' rest'].
      * cbn in E2. inversion E2; subst.
        destruct (armed_rectifies w d t Harmed Hat) as [M Hrect].
        apply (Hstill M Hrect).
      * apply (IHstill d).
        -- pose proof (processFrame_armed w d t Harmed Hat) as Ha.
           rewrite E1 in Ha. exact Ha.
        -- exact Harest.
        -- discriminate.
Qed.

End CooldownTheorems.

Section StillnessWitnesses.

Local Open Scope Q_scope.

Lemma calibratedWorld_rectifies (r : @Refs exampleCV) (t : @Tick exampleCV) :
  canvasReady t = true -> naturalWidth t <> 0%Z ->
  rectifies (calibratedWorld identityMatrix vga r) t identityMatrix.
Proof.
  intros Hc Hw. unfold rectifies. repeat split; try assumption.
  eexists. split; reflexivity.
Qed.


Lemma cooldown_suppresses_detection_witness :
  let w := calibratedWorld identityMatrix vga refsAfterDetection in
  let ticks := [activeTick 5200; quietTick 5400; activeTick 5600; quietTick 5900] in
  filter isDetectDartCalled (snd (run w ticks)) = [] /\
  lastDetectionTimeRef (refs (fst (run w ticks))) = 5000 /\
  isStill (state (fst (run w ticks))) = true.
Proof.
  intros w ticks.
  assert (Hcool : Forall (inCooldown (refs w)) ticks)
    by (repeat constructor; vm_compute; discriminate).
  destruct (cooldown_suppresses_detection ticks w Hcool) as (H1 & H2 & H3).
  split; [exact H1 | split; [exact H2 |]].
  apply (H3 vga).
  - unfold armed. repeat split. exists (calibrationFor identityMatrix vga), identityMatrix.
    repeat split.
  - repeat constructor; discriminate.
  - discriminate.
Defined.

End StillnessWitnesses.

Section RectificationTheorems.

Context {cv : OpenCV}.
Local Open Scope Q_scope.

Lemma detectDart_storage (w : World) (a b : Mat) (t : Q) :
  localStorage (fst (detectDart w a b t)) = localStorage w.
Proof.
  unfold detectDart, detectDartTry.
  destruct (diffContours 15 a b) as [contours |]; [|reflexivity].
  destruct (largestLoop contours None 0) as [largest |]; [|reflexivity].
  destruct (findDartTip largest) as [tip |]; reflexivity.
Qed.

Lemma transitionLogic_storage
      (s : State) (w : World) (warped : Mat) (cur : bool) (t : Tick) :
  localStorage (fst (transitionLogic s w warped cur t)) = localStorage w.
Proof.
  unfold transitionLogic.
  destruct (cur && negb (isStill s) && outsideCooldown (refs w) (now t)).
  - destruct (stillFrameBeforeDartRef (refs w)) as [before |]; [|reflexivity].
    pose proof (detectDart_storage (onRefs (setAfter (Some warped)) w)
                  warped before (detectionNow t)) as H.
    destruct (detectDart _ warped before (detectionNow t)) as [w2 evs].
    exact H.
  - destruct (negb cur && isStill s); [|reflexivity].
    destruct (stillFrameBeforeDartRef (refs w)); reflexivity.
Qed.

(** Whatever the state and the frame: a pass that reaches the rectification
    branch with a frame of another size than the record's invalidates the
    record and warps the frame all the same. *)
Lemma processFrame_mismatch_still_warps
      (w : World) (t : Tick) (M : list Q) (c : CalibrationData) :
  rectifies w t M ->
  calibrationData (state w) = Some c ->
  Dimensions_eqb (sourceDimensions c)
                 (mkDimensions (naturalWidth t) (naturalHeight t)) = false ->
  (exists evs, snd (processFrame w t)
               = ShowWarped (warpPerspective (pixels t) M) :: evs) /\
  prevWarpedFrameRef (refs (fst (processFrame w t)))
    = Some (warpPerspective (pixels t) M) /\
  calibrationData (state (fst (processFrame w t))) = None /\
  localStorage (fst (processFrame w t)) = None.
Proof.
  intros Hrect Hc Hd.
  rewrite (processFrame_rectified w t M Hrect). cbv zeta.
  set (warped := warpPerspective (pixels t) M).
  destruct (dimensionCheck_mismatch (state w) w t c Hc Hd) as [Hcal Hsto].
  pose proof (stillnessCheck_keeps (state w) (dimensionCheck (state w) w t)
                warped t) as (_ & K0 & K1 & _).
  destruct (stillnessCheck (state w) (dimensionCheck (state w) w t) warped t)
    as [w1 cur].
  pose proof (transitionLogic_state (state w) w1 warped cur t) as (_ & T1 & _).
  pose proof (transitionLogic_storage (state w) w1 warped cur t) as T0.
  destruct (transitionLogic (state w) w1 warped cur t) as [w2 evs].
  cbn [fst snd] in *. cbn [onRefs state refs localStorage setPrev prevWarpedFrameRef].
  split; [exists evs; reflexivity|]. split; [reflexivity|].
  split; [rewrite T1, K1; exact Hcal | rewrite T0, K0; exact Hsto].
Qed.

(** C2 (the code at the failing input): a 1280x720 frame arrives while the
    record in force was made for 640x480.  The record is invalidated, in
    the state and in storage, but the pass still warps the frame, shows the
    warped frame, compares it with the previous canonical frame and keeps
    it as the next previous frame. *)
Theorem processFrame_dimension_mismatch (frame prev : Mat) (M : list Q) :
  let w := calibratedWorld M vga (setPrev (Some prev) initialRefs) in
  let t := mkTick 1280 720 frame true 5000 5000 in
  let warped := warpPerspective frame M in
  Dimensions_eqb vga (mkDimensions (naturalWidth t) (naturalHeight t)) = false /\
  snd (processFrame w t) = [ShowWarped warped] /\
  prevWarpedFrameRef (refs (fst (processFrame w t))) = Some warped /\
  isStill (state (fst (processFrame w t)))
    = JS.Qlt_bool (meanDiff warped prev) motionThreshold /\
  calibrationData (state (fst (processFrame w t))) = None /\
  localStorage (fst (processFrame w t)) = None.
Proof.
  intros w t warped.
  split; [reflexivity|].
  unfold processFrame, w, t, calibratedWorld. cbn -[motionThreshold meanDiff].
  fold warped.
  unfold stillnessCheck. cbn -[motionThreshold meanDiff].
  destruct (JS.Qlt_bool (meanDiff warped prev) motionThreshold) eqn:E;
    cbn; repeat split.
Qed.

End RectificationTheorems.

Section CalibrationTheorems.

Context {cv : OpenCV}.

(** C6 (the code on a failed solve): when the solver returns no valid 3x3
    matrix for the fourth point, the component stays in collection mode,
    reports an error and leaves the earlier record and the storage alone,
    but it keeps the four points, so that every further click is ignored. *)
Theorem failed_calibration_keeps_points (w : World) (p : Point Q) :
  cvLoaded (state w) = true ->
  isCalibrating (state w) = true ->
  List.length (clickedPoints (state w)) = 3%nat ->
  validHomography
    (findHomography (flatCoords (clickedPoints (state w) ++ [p]))
                    (flatCoords WORLD_POINTS_TARGET)) = false ->
  let w' := submitPoint w p in
  isCalibrating (state w') = true /\
  clickedPoints (state w') = clickedPoints (state w) ++ [p] /\
  error (state w') <> None /\
  calibrationData (state w') = calibrationData (state w) /\
  localStorage w' = localStorage w /\
  forall q : Point Q, handleCanvasClick w' q = w'.
Proof.
  intros Hcv Hcal Hlen Hbad w'.
  assert (Hlen4 : List.length (clickedPoints (state w) ++ [p]) = 4%nat)
    by (rewrite length_app, Hlen; reflexivity).
  assert (Hclick : handleCanvasClick w p
                   = onState (setClickedPoints (clickedPoints (state w) ++ [p])) w).
  { unfold handleCanvasClick. rewrite Hcal, Hlen. reflexivity. }
  unfold w', submitPoint, calibrationEffect. rewrite Hclick.
  cbn [onState state setClickedPoints isCalibrating clickedPoints].
  rewrite Hcal, Hlen4. cbn [Nat.eqb CALIBRATION_POINTS_REQUIRED andb].
  unfold calculateAndStoreHomography.
  cbn [onState state setClickedPoints cvLoaded clickedPoints].
  rewrite Hcv, Hlen4. cbn [Nat.eqb CALIBRATION_POINTS_REQUIRED negb orb].
  cbv zeta.
  assert (Hkeep : forall (msg : string) (q : Point Q),
    let w1 := onState (setError (Some msg))
                (onState (setClickedPoints (clickedPoints (state w) ++ [p])) w) in
    isCalibrating (state w1) = true /\
    clickedPoints (state w1) = clickedPoints (state w) ++ [p] /\
    error (state w1) <> None /\
    calibrationData (state w1) = calibrationData (state w) /\
    localStorage w1 = localStorage w /\
    handleCanvasClick w1 q = w1).
  { intros msg q. cbn. rewrite Hcal. repeat split; try discriminate.
    unfold handleCanvasClick. cbn. rewrite Hcal, Hlen4. reflexivity. }
  destruct (findHomography (flatCoords (clickedPoints (state w) ++ [p]))
                           (flatCoords WORLD_POINTS_TARGET))
    as [| | rows cols data] eqn:Eh.
  - pose proof (Hkeep "Error during calibration calculation."%string) as K.
    cbv zeta in K. repeat split; try apply (K p). intros q. apply (K q).
  - pose proof (Hkeep "Calibration failed. Could not calculate perspective. Try clicking points again."%string) as K.
    cbv zeta in K. repeat split; try apply (K p). intros q. apply (K q).
  - pose proof (Hkeep "Calibration failed. Could not calculate perspective. Try clicking points again."%string) as K.
    cbv zeta in K.
    destruct rows as [| [[| |] | [| |] |] |]; try (repeat split; try apply (K p); intros q; apply (K q)).
    destruct cols as [| [[| |] | [| |] |] |]; try (repeat split; try apply (K p); intros q; apply (K q)).
    cbn in Hbad. discriminate.
Qed.

End CalibrationTheorems.

Section CalibrationWitnesses.

Lemma failed_calibration_keeps_points_witness :
  let w := collectingWorld (cv := exampleCV) identityMatrix vga in
  let w' := submitPoint w (mkPoint 100 400)%Q in
  isCalibrating (state w') = true /\
  List.length (clickedPoints (state w')) = 4%nat /\
  calibrationData (state w') = calibrationData (state w) /\
  handleCanvasClick w' (mkPoint 320 20)%Q = w'.
Proof.
  intros w w'.
  destruct (failed_calibration_keeps_points (cv := exampleCV) w (mkPoint 100 400)%Q
              eq_refl eq_refl eq_refl eq_refl)
    as (H1 & H2 & _ & H4 & _ & H6).
  fold w' in H1, H2, H4, H6.
  split; [exact H1|]. split; [rewrite H2; reflexivity|].
  split; [exact H4 | apply H6].
Defined.

End CalibrationWitnesses.

Section PersistenceTheorems.

Lemma loadPersisted_parsed (v : JSValue) :
  loadPersisted (Some (JsonText v)) =
    if hasTruthyFields v then (Some v, Some (JsonText v)) else (None, None).
Proof.
  unfold loadPersisted, hasTruthyFields.
  destruct v as [| b | q | s | items | fields]; cbn [getProp truthy negb];
    try reflexivity.
  destruct (truthy (lookupField "imagePoints" fields)); [|reflexivity].
  destruct (truthy (lookupField "worldPoints" fields)); [|reflexivity].
  destruct (truthy (lookupField "homographyMatrix" fields)); reflexivity.
Qed.

(** C8 (as stated, refuted): a stored record with three image points is not
    structurally valid, and it is restored all the same. *)
Lemma loadPersisted_restores_three_points :
  structurallyValid threePointRecord = false /\
  loadPersisted (Some (JsonText threePointRecord))
    = (Some threePointRecord, Some (JsonText threePointRecord)).
Proof. split; reflexivity. Qed.

(** C8 (amended): a record is restored exactly when the stored text parses
    to an object whose imagePoints, worldPoints and homographyMatrix are
    all truthy, and then storage is left as it is; every other stored text
    but the empty one is removed from storage and nothing is restored. *)
Theorem loadPersisted_restores_iff_truthy (storage : Storage) :
  (forall v : JSValue,
      fst (loadPersisted storage) = Some v <->
      storage = Some (JsonText v) /\ hasTruthyFields v = true) /\
  (fst (loadPersisted storage) <> None ->
      snd (loadPersisted storage) = storage) /\
  (fst (loadPersisted storage) = None -> storage <> Some EmptyText ->
      snd (loadPersisted storage) = None).
Proof.
  assert (Hnone : forall st : Storage,
    (forall v, st <> Some (JsonText v)) ->
    fst (loadPersisted st) = None ->
    forall v, fst (loadPersisted st) = Some v <->
              st = Some (JsonText v) /\ hasTruthyFields v = true).
  { intros st Hst Hfst v. rewrite Hfst. split.
    - discriminate.
    - intros [Hv _]. exfalso. exact (Hst v Hv). }
  destruct storage as [[| | v0] |].
  - split; [apply Hnone; [discriminate | reflexivity]|].
    split; [intros Hr; exfalso; apply Hr; reflexivity|].
    intros _ Hne. exfalso. apply Hne. reflexivity.
  - split; [apply Hnone; [discriminate | reflexivity]|].
    split; [intros Hr; exfalso; apply Hr; reflexivity|].
    intros _ _. reflexivity.
  - rewrite loadPersisted_parsed.
    destruct (hasTruthyFields v0) eqn:E; cbn [fst snd].
    + split; [|split].
      * intros v. split.
        -- intros Hv. injection Hv as <-. split; [reflexivity | exact E].
        -- intros [Hv _]. injection Hv as <-. reflexivity.
      * intros _. reflexivity.
      * discriminate.
    + split; [|split].
      * intros v. split.
        -- discriminate.
        -- intros [Hv Ht]. injection Hv as <-. congruence.
      * intros Hr. exfalso. apply Hr. reflexivity.
      * intros _ _. reflexivity.
  - split; [apply Hnone; [discriminate | reflexivity]|].
    split; [intros Hr; exfalso; apply Hr; reflexivity|].
    intros _ _. reflexivity.
Qed.

Lemma loadPersisted_restores_iff_truthy_witness :
  let record := calibrationToJSON (calibrationFor identityMatrix vga) in
  fst (loadPersisted (Some (JsonText record))) = Some record /\
  snd (loadPersisted (Some (JsonText JNull))) = None.
Proof.
  intros record. split.
  - apply (proj1 (loadPersisted_restores_iff_truthy (Some (JsonText record)))).
    split; reflexivity.
  - apply (proj2 (proj2 (loadPersisted_restores_iff_truthy (Some (JsonText JNull)))));
      [reflexivity | discriminate].
Defined.

End PersistenceTheorems.

Section TipExamples.

(** On a kite whose long end points right, the tip is the far corner. *)
Example findDartTip_kite :
  findDartTip (cv := exampleCV)
              [mkPoint 0 0; mkPoint 10 0; mkPoint 30 1; mkPoint 0 2]%Z
    = Some (mkPoint 30 1)%Z.
Proof. reflexivity. Qed.

(** Three points in a row enclose no area: no tip. *)
Example findDartTip_flat :
  findDartTip (cv := exampleCV) [mkPoint 0 0; mkPoint 10 0; mkPoint 20 0]%Z
    = None.
Proof. reflexivity. Qed.

End TipExamples.

(* ================================================================== *)
(** * Part III: further properties of the code                         *)
(* ================================================================== *)

Section ScoreMappingRange.

Local Open Scope R_scope.

Lemma rem_nonneg (a b : R) : 0 <= a -> 0 < b -> 0 <= JS.rem a b < b.
Proof.
  intros Ha Hb. unfold JS.rem, JS.trunc.
  assert (Hq : 0 <= a / b).
  { unfold Rdiv. apply Rmult_le_pos; [exact Ha|].
    left. apply Rinv_0_lt_compat. exact Hb. }
  destruct (Rle_dec 0 (a / b)) as [_ | Hn]; [|contradiction].
  pose proof (Zfloor_bound (a / b)) as [H1 H2].
  set (k := IZR (Zfloor (a / b))) in *.
  replace (a - b * k) with (b * (a / b - k)) by (field; lra).
  split; nra.
Qed.

Lemma rem_self (b : R) : 0 < b -> JS.rem b b = 0.
Proof.
  intros Hb. unfold JS.rem, JS.trunc.
  replace (b / b) with 1 by (field; lra).
  destruct (Rle_dec 0 1) as [_ | Hn]; [|lra].
  replace (Zfloor 1) with 1%Z by (symmetry; apply Zfloor_eq; simpl; lra).
  simpl. lra.
Qed.

(** A loose bound on [atan2], enough to place the adjusted angle. *)
Lemma atan2_bound (v u : R) : - (3 * PI / 2) < JS.atan2 v u < 3 * PI / 2.
Proof.
  pose proof PI_RGT_0 as Hpi.
  pose proof (atan_bound (v / u)) as [Hlo Hhi].
  unfold JS.atan2.
  destruct (Rlt_dec 0 u); [lra|].
  destruct (Rlt_dec u 0).
  - destruct (Rle_dec 0 v); lra.
  - destruct (Rlt_dec 0 v); [lra|].
    destruct (Rlt_dec v 0); lra.
Qed.

Lemma segmentIndexOf_range (p : Point R) : (0 <= segmentIndexOf p < 20)%Z.
Proof.
  unfold segmentIndexOf. cbv zeta.
  pose proof PI_RGT_0 as Hpi.
  set (a := JS.atan2 _ _).
  pose proof (atan2_bound (- (y p - boardCenterY)) (x p - boardCenterX)) as Ha.
  fold a in Ha.
  set (a1 := if JS.lt a 0 then a + 2 * PI else a).
  assert (Ha1 : 0 <= a1).
  { unfold a1. destruct (JS.lt a 0) eqn:E.
    - lra.
    - apply lt_false in E. exact E. }
  pose proof (rem_nonneg (a1 + PI / 2) (2 * PI) ltac:(lra) ltac:(lra)) as [Hr1 Hr2].
  set (r := JS.rem (a1 + PI / 2) (2 * PI)) in *.
  assert (Hdeg : 0 <= r * (180 / PI) < 360).
  { replace (r * (180 / PI)) with (r / (2 * PI) * 360) by (field; lra).
    assert (0 <= r / (2 * PI) < 1).
    { split.
      - unfold Rdiv. apply Rmult_le_pos; [lra|].
        left. apply Rinv_0_lt_compat. lra.
      - apply Rmult_lt_reg_r with (2 * PI); [lra|].
        unfold Rdiv. rewrite Rmult_assoc, Rinv_l by lra. lra. }
    lra. }
  pose proof (rem_nonneg (r * (180 / PI) + 9) 360 ltac:(lra) ltac:(lra)) as Hr.
  apply floor_range. simpl. lra.
Qed.

Lemma segmentScores_faces (i : Z) (face : Z) :
  JS.index segmentScores i = Some face -> (1 <= face <= 20)%Z.
Proof.
  unfold JS.index. destruct (i <? 0)%Z; [discriminate|].
  intros H. apply nth_error_In in H.
  assert (Hall : Forall (fun f => (1 <= f <= 20)%Z) segmentScores)
    by (repeat constructor; lia).
  rewrite Forall_forall in Hall. apply Hall. exact H.
Qed.

(** X1: for every point the detector's score mapping yields a defined score
    between 0 and 60 with confidence 1; the table read never falls outside
    the 20 entries. *)
Theorem getScoreFromCoords_defined (p : Point R) :
  exists d : Detection,
    getScoreFromCoords (Some p) = Some d /\
    (0 <= score d <= 60)%Z /\ confidence d = 1%Z.
Proof.
  unfold getScoreFromCoords. cbv zeta.
  destruct (JS.le _ (doubleBull radii));
    [eexists; split; [reflexivity | cbn; split; [lia | reflexivity]]|].
  destruct (JS.le _ (singleBull radii));
    [eexists; split; [reflexivity | cbn; split; [lia | reflexivity]]|].
  destruct (JS.gt _ (outerDouble radii));
    [eexists; split; [reflexivity | cbn; split; [lia | reflexivity]]|].
  pose proof (segmentIndexOf_range p) as Hk.
  destruct (index_in_range segmentScores (segmentIndexOf p) Hk) as [face Hf].
  rewrite Hf. pose proof (segmentScores_faces _ _ Hf) as Hface.
  destruct (JS.ge _ (innerDouble radii));
    [eexists; split; [reflexivity | cbn; split; [lia | reflexivity]]|].
  destruct (JS.ge _ (innerTriple radii) && JS.le _ (outerTriple radii));
    eexists; (split; [reflexivity | cbn; split; [lia | reflexivity]]).
Qed.

End ScoreMappingRange.

Section CardinalDirections.

Local Open Scope R_scope.

Lemma atan2_flat_right (u : R) : 0 < u -> JS.atan2 0 u = 0.
Proof.
  intros Hu. unfold JS.atan2.
  destruct (Rlt_dec 0 u) as [_ | H]; [|contradiction].
  replace (0 / u) with 0 by (field; lra). apply atan_0.
Qed.

Lemma atan2_flat_left (u : R) : u < 0 -> JS.atan2 0 u = PI.
Proof.
  intros Hu. unfold JS.atan2.
  destruct (Rlt_dec 0 u) as [H | _]; [lra|].
  destruct (Rlt_dec u 0) as [_ | H]; [|contradiction].
  destruct (Rle_dec 0 0) as [_ | H]; [|lra].
  replace (0 / u) with 0 by (field; lra). rewrite atan_0. lra.
Qed.

Lemma atan2_down (v : R) : v < 0 -> JS.atan2 v 0 = - (PI / 2).
Proof.
  intros Hv. unfold JS.atan2.
  destruct (Rlt_dec 0 0) as [H | _]; [lra|].
  destruct (Rlt_dec 0 0) as [H | _]; [lra|].
  destruct (Rlt_dec 0 v) as [H | _]; [lra|].
  destruct (Rlt_dec v 0) as [_ | H]; [reflexivity | contradiction].
Qed.

Lemma floor_half (k : Z) : JS.floor (IZR k + / 2) = k.
Proof. unfold JS.floor. apply Zfloor_eq. lra. Qed.

Lemma distance_rightOf (d : R) : 0 <= d -> distanceFromCenter (rightOf d) = d.
Proof.
  intros Hd. unfold distanceFromCenter, rightOf, boardCenterX, boardCenterY,
    CALIBRATION_TARGET_SIZE. cbn [x y].
  replace ((250 + d - 500 / 2) * (250 + d - 500 / 2)
           + (250 - 500 / 2) * (250 - 500 / 2)) with (d * d) by field.
  apply sqrt_square; exact Hd.
Qed.

Lemma distance_leftOf (d : R) : 0 <= d -> distanceFromCenter (leftOf d) = d.
Proof.
  intros Hd. unfold distanceFromCenter, leftOf, boardCenterX, boardCenterY,
    CALIBRATION_TARGET_SIZE. cbn [x y].
  replace ((250 - d - 500 / 2) * (250 - d - 500 / 2)
           + (250 - 500 / 2) * (250 - 500 / 2)) with (d * d) by field.
  apply sqrt_square; exact Hd.
Qed.

Lemma distance_below (d : R) : 0 <= d -> distanceFromCenter (below d) = d.
Proof.
  intros Hd. unfold distanceFromCenter, below, boardCenterX, boardCenterY,
    CALIBRATION_TARGET_SIZE. cbn [x y].
  replace ((250 - 500 / 2) * (250 - 500 / 2)
           + (250 + d - 500 / 2) * (250 + d - 500 / 2)) with (d * d) by field.
  apply sqrt_square; exact Hd.
Qed.

Lemma segmentIndexOf_rightOf (d : R) : 0 < d -> segmentIndexOf (rightOf d) = 5%Z.
Proof.
  intros Hd. unfold segmentIndexOf, rightOf, boardCenterX, boardCenterY,
    CALIBRATION_TARGET_SIZE. cbn [x y].
  replace (- (250 - 500 / 2)) with 0 by field.
  replace (250 + d - 500 / 2) with d by field.
  rewrite atan2_flat_right by exact Hd.
  pose proof PI_RGT_0 as Hpi.
  rewrite (proj2 (lt_false 0 0)) by lra.
  rewrite (rem_small (0 + PI / 2) (2 * PI)) by lra.
  replace ((0 + PI / 2) * (180 / PI)) with 90 by (field; lra).
  rewrite (rem_small (90 + 9) 360) by lra.
  unfold JS.floor. apply Zfloor_eq. simpl. lra.
Qed.

Lemma segmentIndexOf_leftOf (d : R) : 0 < d -> segmentIndexOf (leftOf d) = 15%Z.
Proof.
  intros Hd. unfold segmentIndexOf, leftOf, boardCenterX, boardCenterY,
    CALIBRATION_TARGET_SIZE. cbn [x y].
  replace (- (250 - 500 / 2)) with 0 by field.
  replace (250 - d - 500 / 2) with (- d) by field.
  rewrite atan2_flat_left by lra.
  pose proof PI_RGT_0 as Hpi.
  rewrite (proj2 (lt_false PI 0)) by lra.
  rewrite (rem_small (PI + PI / 2) (2 * PI)) by lra.
  replace ((PI + PI / 2) * (180 / PI)) with 270 by (field; lra).
  rewrite (rem_small (270 + 9) 360) by lra.
  unfold JS.floor. apply Zfloor_eq. simpl. lra.
Qed.

Lemma segmentIndexOf_below (d : R) : 0 < d -> segmentIndexOf (below d) = 0%Z.
Proof.
  intros Hd. unfold segmentIndexOf, below, boardCenterX, boardCenterY,
    CALIBRATION_TARGET_SIZE. cbn [x y].
  replace (250 - 500 / 2) with 0 by field.
  replace (- (250 + d - 500 / 2)) with (- d) by field.
  rewrite atan2_down by lra.
  pose proof PI_RGT_0 as Hpi.
  rewrite (proj2 (lt_true (- (PI / 2)) 0)) by lra.
  replace (- (PI / 2) + 2 * PI + PI / 2) with (2 * PI) by lra.
  rewrite rem_self by lra.
  replace (0 * (180 / PI)) with 0 by (field; lra).
  rewrite (rem_small (0 + 9) 360) by lra.
  unfold JS.floor. apply Zfloor_eq. simpl. lra.
Qed.

Lemma getScoreFromCoords_in_ring (p : Point R) (d : R) (k face : Z) :
  distanceFromCenter p = d -> segmentIndexOf p = k ->
  JS.index segmentScores k = Some face ->
  20 < d <= 215 ->
  getScoreFromCoords (Some p) = Some (mkDetection (ringScore face d) 1).
Proof.
  intros Hd Hk Hface [Hlo Hhi]. unfold getScoreFromCoords. cbv zeta.
  rewrite Hd, Hk, Hface.
  unfold radii; cbn [doubleBull singleBull innerTriple outerTriple
                     innerDouble outerDouble].
  rewrite (proj2 (le_false d 8)) by lra.
  rewrite (proj2 (le_false d 20)) by lra.
  rewrite (proj2 (gt_false d 215)) by lra.
  unfold ringScore.
  destruct (JS.ge d 200); [reflexivity|].
  destruct (JS.ge d 120 && JS.le d 135); reflexivity.
Qed.

(** X2: on the detector's board the horizontal axis reads as on a real
    board (6 to the right, 11 to the left) while the vertical axis is
    mirrored (20 straight below the centre), each with the multiplier of the
    ring the distance falls in. *)
Theorem getScoreFromCoords_axes (d : R) :
  20 < d <= 215 ->
  getScoreFromCoords (Some (rightOf d)) = Some (mkDetection (ringScore 6 d) 1) /\
  getScoreFromCoords (Some (leftOf d)) = Some (mkDetection (ringScore 11 d) 1) /\
  getScoreFromCoords (Some (below d)) = Some (mkDetection (ringScore 20 d) 1).
Proof.
  intros Hd. repeat split.
  - apply (getScoreFromCoords_in_ring _ d 5);
      [apply distance_rightOf; lra | apply segmentIndexOf_rightOf; lra
       | reflexivity | exact Hd].
  - apply (getScoreFromCoords_in_ring _ d 15);
      [apply distance_leftOf; lra | apply segmentIndexOf_leftOf; lra
       | reflexivity | exact Hd].
  - apply (getScoreFromCoords_in_ring _ d 0);
      [apply distance_below; lra | apply segmentIndexOf_below; lra
       | reflexivity | exact Hd].
Qed.

Lemma getScoreFromCoords_axes_witness :
  getScoreFromCoords (Some (rightOf 205)) = Some (mkDetection (ringScore 6 205) 1) /\
  getScoreFromCoords (Some (leftOf 205)) = Some (mkDetection (ringScore 11 205) 1) /\
  getScoreFromCoords (Some (below 205)) = Some (mkDetection (ringScore 20 205) 1).
Proof. apply (getScoreFromCoords_axes 205). lra. Defined.

(** The manual board's angle along the four axes. *)
Lemma boardAngle_axes (d : R) :
  0 < d ->
  boardAngle 170 (170 - d) = 9 /\
  boardAngle (170 + d) 170 = 99 /\
  boardAngle 170 (170 + d) = 189 /\
  boardAngle (170 - d) 170 = 279.
Proof.
  intros Hd. pose proof PI_RGT_0 as Hpi.
  unfold boardAngle. cbn [DARTBOARD_CONFIG CENTER x y]. cbv zeta.
  repeat split.
  - replace (170 - 170) with 0 by lra.
    replace (170 - d - 170) with (- d) by lra.
    rewrite atan2_down by lra.
    replace (- (PI / 2) * 180 / PI + 99) with 9 by (field; lra).
    rewrite (rem_small 9 360) by lra. decide_cmp. reflexivity.
  - replace (170 - 170) with 0 by lra.
    replace (170 + d - 170) with d by lra.
    rewrite atan2_flat_right by lra.
    replace (0 * 180 / PI + 99) with 99 by (field; lra).
    rewrite (rem_small 99 360) by lra. decide_cmp. reflexivity.
  - replace (170 - 170) with 0 by lra.
    replace (170 + d - 170) with d by lra.
    rewrite atan2_up by lra.
    replace (PI / 2 * 180 / PI + 99) with 189 by (field; lra).
    rewrite (rem_small 189 360) by lra. decide_cmp. reflexivity.
  - replace (170 - 170) with 0 by lra.
    replace (170 - d - 170) with (- d) by lra.
    rewrite atan2_flat_left by lra.
    replace (PI * 180 / PI + 99) with 279 by (field; lra).
    rewrite (rem_small 279 360) by lra. decide_cmp. reflexivity.
Qed.

Lemma calculateScore_in_ring (bx by_ d a : R) (k face : Z) :
  sqrt ((bx - 170) * (bx - 170) + (by_ - 170) * (by_ - 170)) = d ->
  boardAngle bx by_ = a ->
  JS.floor (a / 18) = k -> (0 <= k < 20)%Z ->
  JS.index DARTBOARD_NUMBERS k = Some face ->
  16 < d <= 170 ->
  calculateScore bx by_ = Some (boardScore face d).
Proof.
  intros Hd Ha Hk Hrange Hface [Hlo Hhi].
  unfold calculateScore. cbv zeta.
  cbn [DARTBOARD_CONFIG CENTER x y INNER_BULL_RADIUS OUTER_BULL_RADIUS
       OUTER_BORDER_RADIUS TRIPLE_RING_INNER_RADIUS TRIPLE_RING_OUTER_RADIUS
       DOUBLE_RING_INNER_RADIUS DOUBLE_RING_OUTER_RADIUS].
  rewrite Hd, Ha, Hk, (Z.rem_small k 20) by lia. rewrite Hface.
  rewrite (proj2 (le_false d (635 / 100))) by lra.
  rewrite (proj2 (le_false d 16)) by lra.
  rewrite (proj2 (gt_false d 170)) by lra.
  reflexivity.
Qed.

(** X3: the manual board reads as a real board along the four axes: 20
    straight above the centre, 6 to the right, 3 below and 11 to the left,
    each with the multiplier of the ring the distance falls in. *)
Theorem calculateScore_axes (d : R) :
  16 < d <= 170 ->
  calculateScore 170 (170 - d) = Some (boardScore 20 d) /\
  calculateScore (170 + d) 170 = Some (boardScore 6 d) /\
  calculateScore 170 (170 + d) = Some (boardScore 3 d) /\
  calculateScore (170 - d) 170 = Some (boardScore 11 d).
Proof.
  intros Hd.
  destruct (boardAngle_axes d ltac:(lra)) as (A1 & A2 & A3 & A4).
  repeat split.
  - apply (calculateScore_in_ring _ _ d 9 0); try assumption; try reflexivity; try lia.
    + replace ((170 - 170) * (170 - 170) + (170 - d - 170) * (170 - d - 170))
        with (d * d) by lra.
      apply sqrt_square. lra.
    + replace (9 / 18) with (IZR 0 + / 2) by (simpl; lra). apply floor_half.
  - apply (calculateScore_in_ring _ _ d 99 5); try assumption; try reflexivity; try lia.
    + replace ((170 + d - 170) * (170 + d - 170) + (170 - 170) * (170 - 170))
        with (d * d) by lra.
      apply sqrt_square. lra.
    + replace (99 / 18) with (IZR 5 + / 2) by (simpl; lra). apply floor_half.
  - apply (calculateScore_in_ring _ _ d 189 10); try assumption; try reflexivity; try lia.
    + replace ((170 - 170) * (170 - 170) + (170 + d - 170) * (170 + d - 170))
        with (d * d) by lra.
      apply sqrt_square. lra.
    + replace (189 / 18) with (IZR 10 + / 2) by (simpl; lra). apply floor_half.
  - apply (calculateScore_in_ring _ _ d 279 15); try assumption; try reflexivity; try lia.
    + replace ((170 - d - 170) * (170 - d - 170) + (170 - 170) * (170 - 170))
        with (d * d) by lra.
      apply sqrt_square. lra.
    + replace (279 / 18) with (IZR 15 + / 2) by (simpl; lra). apply floor_half.
Qed.

Lemma calculateScore_axes_witness :
  calculateScore 170 (170 - 95) = Some (boardScore 20 95) /\
  calculateScore (170 + 95) 170 = Some (boardScore 6 95) /\
  calculateScore 170 (170 + 95) = Some (boardScore 3 95) /\
  calculateScore (170 - 95) 170 = Some (boardScore 11 95).
Proof. apply (calculateScore_axes 95). lra. Defined.

End CardinalDirections.

Section TipTieBreaking.

Context {F : Type} {A : Numeric.Arithmetic F}.

Lemma numeric_furthestLoop_first (contour : Contour) (cX cY : F) :
  let d := Numeric.distanceSq cX cY in
  (forall p q r, In p contour -> In q contour -> In r contour ->
     Numeric.gt (d p) (d q) = true -> Numeric.gt (d q) (d r) = true ->
     Numeric.gt (d p) (d r) = true) ->
  (forall p q r, In p contour -> In q contour -> In r contour ->
     Numeric.gt (d p) (d q) = false -> Numeric.gt (d q) (d r) = false ->
     Numeric.gt (d p) (d r) = false) ->
  forall (rows pre : Contour) (a : Point Z) (mid : Contour),
    (forall q, In q (pre ++ a :: mid ++ rows) -> In q contour) ->
    (forall q, In q pre -> Numeric.gt (d a) (d q) = true) ->
    (forall q, In q mid -> Numeric.gt (d q) (d a) = false) ->
    exists pre' tip post',
      pre ++ a :: mid ++ rows = pre' ++ tip :: post' /\
      Numeric.furthestLoop cX cY rows (Some a) (d a) = Some tip /\
      (forall q, In q pre' -> Numeric.gt (d tip) (d q) = true) /\
      (forall q, In q post' -> Numeric.gt (d q) (d tip) = false).
Proof.
  intros d Htrans Hneg.
  induction rows as [| p rest IH]; intros pre a mid Hin Hpre Hmid.
  - exists pre, a, mid. rewrite app_nil_r. repeat split; assumption.
  - cbn [Numeric.furthestLoop]. fold d.
    assert (Hp : In p contour)
      by (apply Hin; apply in_or_app; right; right; apply in_or_app; right; left; reflexivity).
    assert (Ha : In a contour)
      by (apply Hin; apply in_or_app; right; left; reflexivity).
    destruct (Numeric.gt (d p) (d a)) eqn:E.
    + destruct (IH (pre ++ a :: mid) p []) as (pre' & tip & post' & Heq & Hres & H1 & H2).
      * intros q Hq. apply Hin. rewrite <- app_assoc in Hq. exact Hq.
      * intros q Hq. apply in_app_or in Hq. destruct Hq as [Hq | [<- | Hq]].
        -- apply (Htrans p a q); try assumption.
           ++ apply Hin. apply in_or_app. left. exact Hq.
           ++ apply Hpre. exact Hq.
        -- exact E.
        -- assert (Hqc : In q contour)
             by (apply Hin; apply in_or_app; right; right; apply in_or_app; left; exact Hq).
           destruct (Numeric.gt (d p) (d q)) eqn:Epq; [reflexivity|].
           rewrite (Hneg p q a Hp Hqc Ha Epq (Hmid q Hq)) in E. discriminate.
      * intros q [].
      * exists pre', tip, post'. rewrite <- Heq, <- app_assoc.
        repeat split; assumption.
    + destruct (IH pre a (mid ++ [p])) as (pre' & tip & post' & Heq & Hres & H1 & H2).
      * intros q Hq. apply Hin. rewrite <- app_assoc in Hq. exact Hq.
      * exact Hpre.
      * intros q Hq. apply in_app_or in Hq.
        destruct Hq as [Hq | [<- | []]]; [apply Hmid; exact Hq | exact E].
      * exists pre', tip, post'. rewrite <- Heq, <- app_assoc.
        repeat split; assumption.
Qed.

(** X4: which point the tip loop picks, in the arithmetic it runs in.  When
    the computed squared distances of the contour's points compare as
    numbers do, [findDartTip] returns the first point whose computed
    distance none exceeds: the computed distance of every earlier point is
    strictly smaller, and that of no later point is greater.  In binary64
    two points at the same exact distance can get different computed
    distances, and then the later one can win. *)
Theorem findDartTip_first_of_ties (M : Numeric.Moments F) (contour : Contour) :
  contour <> [] ->
  Numeric.isZero (Numeric.m00 M) = false ->
  Numeric.comparable M contour ->
  let d := Numeric.distanceSq (Numeric.div (Numeric.m10 M) (Numeric.m00 M))
                              (Numeric.div (Numeric.m01 M) (Numeric.m00 M)) in
  exists pre tip post,
    contour = pre ++ tip :: post /\
    Numeric.findDartTip M contour = Some tip /\
    (forall q, In q pre -> Numeric.gt (d tip) (d q) = true) /\
    (forall q, In q post -> Numeric.gt (d q) (d tip) = false).
Proof.
  intros Hne Hz Hc d.
  unfold Numeric.comparable in Hc. cbv zeta in Hc. fold d in Hc.
  destruct Hc as (Hfirst & Htrans & Hneg).
  destruct contour as [| p0 rest]; [contradiction|].
  unfold Numeric.findDartTip. rewrite Hz. cbv zeta.
  cbn [Numeric.furthestLoop]. fold d.
  rewrite (Hfirst p0 (or_introl eq_refl)).
  destruct (numeric_furthestLoop_first (p0 :: rest) _ _ Htrans Hneg rest [] p0 [])
    as (pre & tip & post & Heq & Hres & H1 & H2).
  - intros q Hq. exact Hq.
  - intros q [].
  - intros q [].
  - exists pre, tip, post. repeat split; assumption.
Qed.

End TipTieBreaking.

Section ExactTip.

Context {cv : OpenCV}.

(** The exact arithmetic is the one of [findDartTip], and its comparisons
    are always those of numbers. *)
Lemma exact_findDartTip (contour : Contour) :
  Numeric.findDartTip (A := Numeric.exact)
    (Numeric.mkMoments (m00 (moments contour)) (m10 (moments contour))
                       (m01 (moments contour)))
    contour
  = findDartTip contour.
Proof.
  unfold Numeric.findDartTip, findDartTip.
  destruct contour as [| p0 rest]; [reflexivity|].
  set (c := p0 :: rest). cbn [Numeric.m00 Numeric.m10 Numeric.m01 Numeric.isZero
                                Numeric.exact Numeric.div Numeric.minusOne].
  destruct (Qeq_bool (m00 (moments c)) 0); [reflexivity|]. cbv zeta.
  generalize (m10 (moments c) / m00 (moments c))%Q
             (m01 (moments c) / m00 (moments c))%Q (@None (Point Z)) (-1)%Q.
  intros cX cY. induction c as [| p rest' IH]; intros acc m; [reflexivity|].
  cbn [Numeric.furthestLoop furthestLoop].
  change (Numeric.gt (Numeric.distanceSq (A := Numeric.exact) cX cY p) m)
    with (JS.Qgt_bool (distanceSq cX cY p) m).
  change (Numeric.distanceSq (A := Numeric.exact) cX cY p) with (distanceSq cX cY p).
  destruct (JS.Qgt_bool (distanceSq cX cY p) m); apply IH.
Qed.

Lemma exact_comparable (M : Numeric.Moments Q) (contour : Contour) :
  Numeric.comparable (A := Numeric.exact) M contour.
Proof.
  unfold Numeric.comparable. cbv zeta.
  set (cX := Numeric.div _ _). set (cY := Numeric.div _ _).
  assert (Hd : forall p, Numeric.distanceSq (A := Numeric.exact) cX cY p
                         = distanceSq cX cY p)
    by reflexivity.
  cbn [Numeric.gt Numeric.exact Numeric.minusOne].
  repeat split.
  - intros p _. rewrite Hd. apply Qgt_bool_true.
    pose proof (distanceSq_nonneg cX cY p). Lqa.lra.
  - intros p q r _ _ _ H1 H2. apply Qgt_bool_true in H1, H2.
    apply Qgt_bool_true. Lqa.lra.
  - intros p q r _ _ _ H1 H2. apply Qgt_bool_false in H1, H2.
    apply Qgt_bool_false. Lqa.lra.
Qed.

End ExactTip.

Section TipTieBreakingWitness.

(** On the tied contour the exact loop keeps the first end point, the
    binary64 loop moves on to the last. *)
Example tiedContour_exact :
  Numeric.findDartTip (A := Numeric.exact) (tiedMoments (A := Numeric.exact)) tiedContour
  = Some (mkPoint 0 0)%Z.
Proof. vm_compute. reflexivity. Qed.

Example tiedContour_binary64 :
  Numeric.findDartTip (A := Numeric.binary64) (tiedMoments (A := Numeric.binary64)) tiedContour
  = Some (mkPoint 72 72)%Z.
Proof. vm_compute. reflexivity. Qed.

Lemma tiedContour_comparable :
  Numeric.comparable (A := Numeric.binary64) (tiedMoments (A := Numeric.binary64)) tiedContour.
Proof.
  unfold Numeric.comparable, tiedContour. cbv zeta.
  repeat split.
  - intros p Hp. cbn [In] in Hp.
    repeat match goal with
           | H : _ \/ _ |- _ => destruct H as [<- | H]
           | H : False |- _ => destruct H
           end; vm_compute; reflexivity.
  - intros p q r Hp Hq Hr. cbn [In] in Hp, Hq, Hr.
    repeat match goal with
           | H : _ \/ _ |- _ => destruct H as [<- | H]
           | H : False |- _ => destruct H
           end; vm_compute; intros; congruence.
  - intros p q r Hp Hq Hr. cbn [In] in Hp, Hq, Hr.
    repeat match goal with
           | H : _ \/ _ |- _ => destruct H as [<- | H]
           | H : False |- _ => destruct H
           end; vm_compute; intros; congruence.
Qed.

Lemma findDartTip_first_of_ties_witness :
  exists pre tip post,
    tiedContour = pre ++ tip :: post /\
    Numeric.findDartTip (A := Numeric.binary64) (tiedMoments (A := Numeric.binary64)) tiedContour = Some tip.
Proof.
  destruct (findDartTip_first_of_ties (A := Numeric.binary64) (tiedMoments (A := Numeric.binary64)) tiedContour)
    as (pre & tip & post & Heq & Hres & _).
  - discriminate.
  - vm_compute. reflexivity.
  - exact tiedContour_comparable.
  - exists pre, tip, post. split; [exact Heq | exact Hres].
Defined.

End TipTieBreakingWitness.

Section LowestPointTip.

Lemma lowestLoop_spec (rows : Contour) :
  forall tip : Point Z,
    (Variant2.lowestLoop rows tip = tip \/ In (Variant2.lowestLoop rows tip) rows) /\
    (y tip <= y (Variant2.lowestLoop rows tip))%Z /\
    (forall q, In q rows -> (y q <= y (Variant2.lowestLoop rows tip))%Z).
Proof.
  induction rows as [| point rest IH]; intros tip; cbn [Variant2.lowestLoop].
  - split; [left; reflexivity|]. split; [lia | intros q []].
  - destruct (Z.ltb_spec (y tip) (y point)) as [Hlt | Hge].
    + destruct (IH point) as (Hin & Hle & Hmax).
      split; [right; destruct Hin as [-> | Hin]; [left; reflexivity | right; exact Hin]|].
      split; [lia|].
      intros q [<- | Hq]; [exact Hle | apply Hmax; exact Hq].
    + destruct (IH tip) as (Hin & Hle & Hmax).
      split; [destruct Hin as [Heq | Hin]; [left; exact Heq | right; right; exact Hin]|].
      split; [exact Hle|].
      intros q [<- | Hq]; [lia | apply Hmax; exact Hq].
Qed.

(** X5: the lowest-point [findDartTip] of the second variant returns a point
    of the contour with the greatest y, provided that y is above -1; on an
    empty contour, and on one whose points all have y at most -1, it returns
    null. *)
Theorem lowest_findDartTip_spec (contour : Contour) :
  match Variant2.findDartTip contour with
  | None => forall q, In q contour -> (y q <= -1)%Z
  | Some tip =>
    In tip contour /\ (-1 < y tip)%Z /\
    forall q, In q contour -> (y q <= y tip)%Z
  end.
Proof.
  unfold Variant2.findDartTip.
  destruct contour as [| p0 rest]; [intros q []|].
  set (c := p0 :: rest). cbv zeta.
  destruct (lowestLoop_spec c (mkPoint 0 (-1))%Z) as (Hin & Hle & Hmax).
  cbn [y] in Hle.
  destruct (Z.eqb_spec (y (Variant2.lowestLoop c (mkPoint 0 (-1))%Z)) (-1)) as [E | E].
  - intros q Hq. rewrite <- E. apply Hmax. exact Hq.
  - split; [|split; [lia | exact Hmax]].
    destruct Hin as [Heq | Hin]; [|exact Hin].
    exfalso. apply E. rewrite Heq. reflexivity.
Qed.

End LowestPointTip.

Section AreaFilter.

Context {cv : OpenCV}.
Local Open Scope Q_scope.

Lemma largestLoop_spec (contours : list Contour) :
  forall (acc : option Contour) (m : Q),
    match acc with
    | None => m <= 500
    | Some a => m == contourArea a /\ 500 < contourArea a < 2000
    end ->
    match largestLoop contours acc m with
    | None =>
      acc = None /\
      forall c, In c contours -> ~ (500 < contourArea c < 2000)
    | Some best =>
      (In best contours \/ acc = Some best) /\
      500 < contourArea best < 2000 /\
      m <= contourArea best /\
      forall c, In c contours -> 500 < contourArea c < 2000 ->
                contourArea c <= contourArea best
    end.
Proof.
  induction contours as [| contour rest IH]; intros acc m Hinv; cbn [largestLoop].
  - destruct acc as [a |].
    + destruct Hinv as [Hm Hq]. split; [right; reflexivity|].
      split; [exact Hq|]. split; [Lqa.lra | intros c []].
    + split; [reflexivity | intros c []].
  - cbv zeta.
    destruct (JS.Qgt_bool (contourArea contour) 500) eqn:E1;
      destruct (JS.Qlt_bool (contourArea contour) 2000) eqn:E2;
      destruct (JS.Qgt_bool (contourArea contour) m) eqn:E3; cbn [andb];
      try apply Qgt_bool_true in E1; try apply Qgt_bool_false in E1;
      try apply Qlt_bool_true in E2; try apply Qlt_bool_false in E2;
      try apply Qgt_bool_true in E3; try apply Qgt_bool_false in E3.
    1: { specialize (IH (Some contour) (contourArea contour)).
         cbn beta iota in IH.
         specialize (IH (conj (Qeq_refl _) (conj E1 E2))).
         destruct (largestLoop rest (Some contour) (contourArea contour)) as [best |].
         - destruct IH as (Hin & Hq & Hm & Hmax).
           split; [left; destruct Hin as [Hin | Heq];
                   [right; exact Hin | left; congruence]|].
           split; [exact Hq|]. split; [Lqa.lra|].
           intros c [<- | Hc] Hqc; [exact Hm | apply Hmax; assumption].
         - destruct IH as [Hacc _]. discriminate. }
    all: specialize (IH acc m Hinv);
      destruct (largestLoop rest acc m) as [best |];
      [ destruct IH as (Hin & Hq & Hm & Hmax);
        (split; [destruct Hin as [Hin | Heq];
                 [left; right; exact Hin | right; exact Heq]|]);
        (split; [exact Hq|]); (split; [exact Hm|]);
        intros c [<- | Hc] Hqc; [Lqa.lra | apply Hmax; assumption]
      | destruct IH as [Hacc Hnone]; (split; [exact Hacc|]);
        intros c [<- | Hc]; [subst acc; Lqa.lra | apply Hnone; exact Hc] ].
Qed.

(** X6: the contour that [detectDart] keeps is one of the extracted contours
    with an area strictly between 500 and 2000, and no other such contour
    has a greater area; it keeps none exactly when no contour has such an
    area. *)
Theorem largestLoop_filters_by_area (contours : list Contour) :
  match largestLoop contours None 0 with
  | None => forall c, In c contours -> ~ (500 < contourArea c < 2000)
  | Some best =>
    In best contours /\
    500 < contourArea best < 2000 /\
    forall c, In c contours -> 500 < contourArea c < 2000 ->
              contourArea c <= contourArea best
  end.
Proof.
  pose proof (largestLoop_spec contours None 0) as H.
  cbn beta iota in H. specialize (H ltac:(Lqa.lra)).
  destruct (largestLoop contours None 0) as [best |].
  - destruct H as (Hin & Hq & _ & Hmax).
    split; [destruct Hin as [Hin | Heq]; [exact Hin | discriminate]|].
    split; assumption.
  - apply H.
Qed.

(** X7: one call of [detectDart] either reports nothing, and then clears the
    shown tip and leaves the time of the last detection alone, or reports
    exactly one score, that of the tip it stores, and stamps the time of the
    last detection. *)
Theorem detectDart_outcome (w : World) (frameAfter frameBefore : Mat) (t : Q) :
  (snd (detectDart w frameAfter frameBefore t) = [] /\
   detectedTip (state (fst (detectDart w frameAfter frameBefore t))) = None /\
   lastDetectionTimeRef (refs (fst (detectDart w frameAfter frameBefore t)))
     = lastDetectionTimeRef (refs w))
  \/
  (exists tip : Point Z,
      snd (detectDart w frameAfter frameBefore t)
        = [DetectionUpdate [getScoreFromCoords (Some (pointOfPixel tip))]] /\
      detectedTip (state (fst (detectDart w frameAfter frameBefore t))) = Some tip /\
      lastDetectionTimeRef (refs (fst (detectDart w frameAfter frameBefore t))) = t).
Proof.
  unfold detectDart, detectDartTry.
  destruct (diffContours 15 frameAfter frameBefore) as [contours |];
    [|left; repeat split].
  destruct (largestLoop contours None 0) as [largest |]; [|left; repeat split].
  destruct (findDartTip largest) as [tip |]; [|left; repeat split].
  right. exists tip. repeat split.
Qed.

End AreaFilter.

Section PassTheorems.

Context {cv : OpenCV}.
Local Open Scope Q_scope.

Lemma detectDart_no_call (w : World) (a b : Mat) (t : Q) :
  filter isDetectDartCalled (snd (detectDart w a b t)) = [] /\
  stillFrameBeforeDartRef (refs (fst (detectDart w a b t))) = Some a.
Proof.
  unfold detectDart, detectDartTry.
  destruct (diffContours 15 a b) as [contours |]; [|split; reflexivity].
  destruct (largestLoop contours None 0) as [largest |]; [|split; reflexivity].
  destruct (findDartTip largest) as [tip |]; split; reflexivity.
Qed.

(** The stillness check followed by the transition logic, from a pending
    world [w0] that has the refs of [w] and a state closed over from [w]. *)
Lemma rectified_core (w w0 : World) (warped : Mat) (t : Tick) :
  refs w0 = refs w ->
  let r1 := stillnessCheck (state w) w0 warped t in
  let r2 := transitionLogic (state w) (fst r1) warped (snd r1) t in
  filter isDetectDartCalled (snd r2)
    = match stillFrameBeforeDartRef (refs w) with
      | Some before =>
        if settles w t warped then [DetectDartCalled warped before] else []
      | None => []
      end /\
  stillFrameBeforeDartRef (refs (fst r2))
    = match stillFrameBeforeDartRef (refs w) with
      | Some before => if settles w t warped then Some warped else Some before
      | None =>
        if settles w t warped then Some warped
        else if stirs w t warped then prevWarpedFrameRef (refs w)
        else None
      end.
Proof.
  intros Hrefs. cbv zeta.
  unfold stillnessCheck, transitionLogic, settles, stirs, quiet.
  rewrite Hrefs.
  destruct (outsideCooldown (refs w) (now t)) eqn:Eo.
  - destruct (prevWarpedFrameRef (refs w)) as [prev |] eqn:Ep.
    + destruct (JS.Qlt_bool (meanDiff warped prev) motionThreshold) eqn:Eq;
        destruct (isStill (state w)) eqn:Es;
        cbn -[detectDart]; rewrite ?Hrefs, ?Eo, ?Ep;
        destruct (stillFrameBeforeDartRef (refs w)) as [before |] eqn:Eb;
        cbn -[detectDart]; rewrite ?Hrefs, ?Ep, ?Eb; try (split; reflexivity).
      pose proof (detectDart_no_call
                    (onRefs (setAfter (Some warped)) (onState (setIsStill true) w0))
                    warped before (detectionNow t)) as [Hev Hbef].
      destruct (detectDart _ warped before (detectionNow t)) as [w2 evs].
      cbn [fst snd] in *. cbn [filter isDetectDartCalled].
      rewrite Hev, Hbef. split; reflexivity.
    + destruct (isStill (state w)) eqn:Es; cbn; rewrite ?Hrefs, ?Eo, ?Ep;
        destruct (stillFrameBeforeDartRef (refs w)) eqn:Eb;
        cbn; rewrite ?Hrefs, ?Eb; split; reflexivity.
  - destruct (prevWarpedFrameRef (refs w)) as [prev |] eqn:Ep;
      destruct (isStill (state w)) eqn:Es; cbn; rewrite ?Hrefs, ?Eo;
      destruct (stillFrameBeforeDartRef (refs w)) eqn:Eb;
      cbn; rewrite ?Hrefs, ?Eb; split; reflexivity.
Qed.

Lemma processFrame_rectified_core (w : World) (t : Tick) (M : list Q) :
  rectifies w t M ->
  let warped := warpPerspective (pixels t) M in
  filter isDetectDartCalled (snd (processFrame w t))
    = match stillFrameBeforeDartRef (refs w) with
      | Some before =>
        if settles w t warped then [DetectDartCalled warped before] else []
      | None => []
      end /\
  stillFrameBeforeDartRef (refs (fst (processFrame w t)))
    = match stillFrameBeforeDartRef (refs w) with
      | Some before => if settles w t warped then Some warped else Some before
      | None =>
        if settles w t warped then Some warped
        else if stirs w t warped then prevWarpedFrameRef (refs w)
        else None
      end.
Proof.
  intros Hrect warped.
  rewrite (processFrame_rectified w t M Hrect). cbv zeta. fold warped.
  pose proof (dimensionCheck_keeps (state w) w t) as (Hrefs & _).
  pose proof (rectified_core w (dimensionCheck (state w) w t) warped t Hrefs) as H.
  cbv zeta in H.
  destruct (stillnessCheck (state w) (dimensionCheck (state w) w t) warped t)
    as [w1 cur].
  cbn [fst snd] in H.
  destruct (transitionLogic (state w) w1 warped cur t) as [w2 evs].
  cbn [fst snd] in *. cbn [filter isDetectDartCalled onRefs refs setPrev
                           stillFrameBeforeDartRef].
  exact H.
Qed.

(** X8: a rectified pass calls [detectDart] exactly when it sees the board
    settle while a pre-throw frame is held, and then once, on the warped
    frame and the held pre-throw frame; with no pre-throw frame, or without
    a previous frame to compare against, it never calls it. *)
Theorem processFrame_detects_on_settling (w : World) (t : Tick) (M : list Q) :
  rectifies w t M ->
  filter isDetectDartCalled (snd (processFrame w t))
    = match stillFrameBeforeDartRef (refs w) with
      | Some before =>
        if settles w t (warpPerspective (pixels t) M)
        then [DetectDartCalled (warpPerspective (pixels t) M) before]
        else []
      | None => []
      end.
Proof.
  intros Hrect. apply (processFrame_rectified_core w t M Hrect).
Qed.

(** X9: how a rectified pass moves the pre-throw reference.  A held
    reference stays, unless the board settles, which replaces it by the
    warped frame.  With none held, a settling board stores the warped frame,
    a stirring board stores the previous frame, and otherwise none is
    stored. *)
Theorem processFrame_baseline (w : World) (t : Tick) (M : list Q) :
  rectifies w t M ->
  stillFrameBeforeDartRef (refs (fst (processFrame w t)))
    = match stillFrameBeforeDartRef (refs w) with
      | Some before =>
        if settles w t (warpPerspective (pixels t) M)
        then Some (warpPerspective (pixels t) M) else Some before
      | None =>
        if settles w t (warpPerspective (pixels t) M)
        then Some (warpPerspective (pixels t) M)
        else if stirs w t (warpPerspective (pixels t) M)
        then prevWarpedFrameRef (refs w)
        else None
      end.
Proof.
  intros Hrect. apply (processFrame_rectified_core w t M Hrect).
Qed.

(** X10: while calibration points are being collected, a pass shows the raw
    frame and leaves the stillness state and every frame reference as they
    were. *)
Theorem processFrame_while_calibrating (w : World) (t : Tick) :
  passes w t ->
  isCalibrating (state w) = true ->
  snd (processFrame w t) = [ShowRaw (pixels t)] /\
  refs (fst (processFrame w t)) = refs w /\
  isStill (state (fst (processFrame w t))) = isStill (state w).
Proof.
  intros (Hcv & Hcanvas & Hconn & Hwidth) Hcal.
  unfold processFrame. rewrite Hcv, Hcanvas, Hconn, Hcal. cbn [negb].
  destruct (Z.eqb_spec (naturalWidth t) 0) as [E | _]; [contradiction|].
  cbv zeta. cbn [fst snd].
  pose proof (dimensionCheck_keeps (state w) w t) as (Hrefs & Hstill & _).
  repeat split; assumption.
Qed.

Lemma processFrame_uncalibrated (w : World) (t : Tick) :
  passes w t ->
  isCalibrating (state w) = false ->
  calibrationData (state w) = None ->
  snd (processFrame w t) = [ShowRaw (pixels t)] /\
  isStill (state (fst (processFrame w t))) = false /\
  prevWarpedFrameRef (refs (fst (processFrame w t))) = None /\
  stillFrameBeforeDartRef (refs (fst (processFrame w t))) = None /\
  stillFrameAfterDartRef (refs (fst (processFrame w t))) = None /\
  detectedTip (state (fst (processFrame w t))) = None.
Proof.
  intros (Hcv & Hcanvas & Hconn & Hwidth) Hcal Hnone.
  unfold processFrame. rewrite Hcv, Hcanvas, Hconn, Hcal, Hnone. cbn [negb].
  destruct (Z.eqb_spec (naturalWidth t) 0) as [E | _]; [contradiction|].
  cbv zeta. unfold dimensionCheck. rewrite Hnone.
  destruct (isStill (state w)) eqn:Es; destruct (detectedTip (state w)) eqn:Et;
    cbn; rewrite ?Es, ?Et; repeat split.
Qed.

Lemma processFrame_mismatch_state
      (w : World) (t : Tick) (M : list Q) (c : CalibrationData) :
  rectifies w t M ->
  calibrationData (state w) = Some c ->
  Dimensions_eqb (sourceDimensions c)
                 (mkDimensions (naturalWidth t) (naturalHeight t)) = false ->
  cvLoaded (state (fst (processFrame w t))) = true /\
  isConnected (state (fst (processFrame w t))) = true /\
  isCalibrating (state (fst (processFrame w t))) = false /\
  calibrationData (state (fst (processFrame w t))) = None.
Proof.
  intros Hrect Hc Hd.
  pose proof Hrect as (Hcv & _ & Hconn & _ & Hcal & _).
  rewrite (processFrame_rectified w t M Hrect). cbv zeta.
  set (warped := warpPerspective (pixels t) M).
  assert (H0 : cvLoaded (state (dimensionCheck (state w) w t)) = true /\
               isConnected (state (dimensionCheck (state w) w t)) = true /\
               isCalibrating (state (dimensionCheck (state w) w t)) = false /\
               calibrationData (state (dimensionCheck (state w) w t)) = None).
  { unfold dimensionCheck. rewrite Hc.
    unfold Dimensions_eqb in Hd. cbn [width height] in Hd.
    rewrite <- negb_andb, Hd. cbn. repeat split; assumption. }
  destruct H0 as (D1 & D2 & D3 & D4).
  pose proof (stillnessCheck_keeps (state w) (dimensionCheck (state w) w t)
                warped t) as (_ & _ & K1 & K2 & K3 & K4).
  destruct (stillnessCheck (state w) (dimensionCheck (state w) w t) warped t)
    as [w1 cur].
  pose proof (transitionLogic_state (state w) w1 warped cur t)
    as (_ & T1 & T2 & T3 & T4).
  destruct (transitionLogic (state w) w1 warped cur t) as [w2 evs].
  cbn [fst] in *. cbn [onRefs state].
  rewrite T3, K3, T4, K4, T2, K2, T1, K1. repeat split; assumption.
Qed.

(** X11: a frame of another size than the record's costs one pass: the pass
    that follows it shows the raw frame, puts the state back to Moving and
    drops the previous, pre-throw and post-throw frames. *)
Theorem mismatch_resets_on_next_pass
        (w : World) (t1 t2 : Tick) (M : list Q) (c : CalibrationData) :
  rectifies w t1 M ->
  calibrationData (state w) = Some c ->
  Dimensions_eqb (sourceDimensions c)
                 (mkDimensions (naturalWidth t1) (naturalHeight t1)) = false ->
  canvasReady t2 = true ->
  naturalWidth t2 <> 0%Z ->
  let w2 := fst (processFrame (fst (processFrame w t1)) t2) in
  snd (processFrame (fst (processFrame w t1)) t2) = [ShowRaw (pixels t2)] /\
  isStill (state w2) = false /\
  prevWarpedFrameRef (refs w2) = None /\
  stillFrameBeforeDartRef (refs w2) = None /\
  stillFrameAfterDartRef (refs w2) = None.
Proof.
  intros Hrect Hc Hd Hcanvas Hwidth w2.
  destruct (processFrame_mismatch_state w t1 M c Hrect Hc Hd)
    as (S1 & S2 & S3 & S4).
  destruct (processFrame_uncalibrated (fst (processFrame w t1)) t2)
    as (U1 & U2 & U3 & U4 & U5 & _); try assumption.
  - unfold passes. repeat split; assumption.
  - repeat split; assumption.
Qed.

End PassTheorems.

Section PassWitnesses.

Local Open Scope Q_scope.

Lemma processFrame_detects_on_settling_witness :
  filter isDetectDartCalled
         (snd (processFrame (calibratedWorld identityMatrix vga refsAfterDetection)
                            (quietTick 7000)))
    = [DetectDartCalled (cv := exampleCV) [10; 11; 10; 10]%Z [10; 10; 10; 10]%Z].
Proof.
  apply (processFrame_detects_on_settling
           (calibratedWorld identityMatrix vga refsAfterDetection)
           (quietTick 7000) identityMatrix).
  apply calibratedWorld_rectifies; [reflexivity | discriminate].
Defined.

Lemma processFrame_baseline_witness :
  stillFrameBeforeDartRef
    (refs (fst (processFrame (calibratedWorld identityMatrix vga refsAfterDetection)
                             (activeTick 7000))))
    = Some [10; 10; 10; 10]%Z.
Proof.
  apply (processFrame_baseline
           (calibratedWorld identityMatrix vga refsAfterDetection)
           (activeTick 7000) identityMatrix).
  apply calibratedWorld_rectifies; [reflexivity | discriminate].
Defined.

Lemma processFrame_while_calibrating_witness :
  snd (processFrame (collectingWorld (cv := exampleCV) identityMatrix vga)
                    (quietTick 7000))
    = [ShowRaw (cv := exampleCV) [10; 11; 10; 10]%Z] /\
  refs (fst (processFrame (collectingWorld (cv := exampleCV) identityMatrix vga)
                          (quietTick 7000)))
    = initialRefs /\
  isStill (state (fst (processFrame (collectingWorld (cv := exampleCV) identityMatrix vga)
                                    (quietTick 7000))))
    = false.
Proof.
  apply (processFrame_while_calibrating
           (collectingWorld (cv := exampleCV) identityMatrix vga) (quietTick 7000)).
  - unfold passes. repeat split. discriminate.
  - reflexivity.
Defined.

Lemma mismatch_resets_on_next_pass_witness :
  let w := calibratedWorld identityMatrix vga refsAfterDetection in
  let w2 := fst (processFrame (fst (processFrame w (hdTick 7000))) (hdTick 7100)) in
  snd (processFrame (fst (processFrame w (hdTick 7000))) (hdTick 7100))
    = [ShowRaw (cv := exampleCV) [10; 10; 10; 10]%Z] /\
  isStill (state w2) = false /\
  prevWarpedFrameRef (refs w2) = None /\
  stillFrameBeforeDartRef (refs w2) = None /\
  stillFrameAfterDartRef (refs w2) = None.
Proof.
  intros w.
  apply (mismatch_resets_on_next_pass w (hdTick 7000) (hdTick 7100) identityMatrix
           (calibrationFor identityMatrix vga)).
  - apply calibratedWorld_rectifies; [reflexivity | discriminate].
  - reflexivity.
  - reflexivity.
  - reflexivity.
  - discriminate.
Defined.

End PassWitnesses.

Section CalibrationRoundTrip.

Context {cv : OpenCV}.

Lemma calibrationToJSON_truthy (c : CalibrationData) (H : list Q) :
  homographyMatrix c = Some H -> hasTruthyFields (calibrationToJSON c) = true.
Proof.
  intros HM. unfold calibrationToJSON. rewrite HM. reflexivity.
Qed.

(** X12: when the solver returns a 3x3 matrix for the fourth point, the
    component leaves collection mode with a record made of the four clicked
    points, the target points, the matrix and the current frame size, writes
    that record to storage, and what it wrote is what [loadPersisted]
    restores at the next start. *)
Theorem successful_calibration_round_trip (w : World) (p : Point Q) (H : list Q) :
  cvLoaded (state w) = true ->
  isCalibrating (state w) = true ->
  List.length (clickedPoints (state w)) = 3%nat ->
  findHomography (flatCoords (clickedPoints (state w) ++ [p]))
                 (flatCoords WORLD_POINTS_TARGET) = HMat 3 3 H ->
  let w' := submitPoint w p in
  calibrationData (state w') = Some (recordOf w p H) /\
  isCalibrating (state w') = false /\
  clickedPoints (state w') = [] /\
  error (state w') = None /\
  localStorage w' = Some (JsonText (calibrationToJSON (recordOf w p H))) /\
  loadPersisted (localStorage w')
    = (Some (calibrationToJSON (recordOf w p H)), localStorage w').
Proof.
  intros Hcv Hcal Hlen Hsolve w'.
  assert (Hlen4 : List.length (clickedPoints (state w) ++ [p]) = 4%nat)
    by (rewrite length_app, Hlen; reflexivity).
  assert (Hw' : w' = mkWorld
            (setError None (setClickedPoints [] (setIsCalibrating false
               (setCalibrationData (Some (recordOf w p H))
                  (setClickedPoints (clickedPoints (state w) ++ [p]) (state w))))))
            (refs w)
            (Some (JsonText (calibrationToJSON (recordOf w p H))))).
  { unfold w', submitPoint, calibrationEffect, handleCanvasClick.
    rewrite Hcal, Hlen.
    cbn [negb orb Nat.leb CALIBRATION_POINTS_REQUIRED].
    cbn [onState state setClickedPoints isCalibrating clickedPoints].
    rewrite Hcal, Hlen4. cbn [Nat.eqb CALIBRATION_POINTS_REQUIRED andb].
    unfold calculateAndStoreHomography.
    cbn [onState state setClickedPoints cvLoaded clickedPoints dimensions refs].
    rewrite Hcv, Hlen4. cbn [Nat.eqb CALIBRATION_POINTS_REQUIRED negb orb].
    cbv zeta. rewrite Hsolve. reflexivity. }
  rewrite Hw'. cbn [state localStorage].
  split; [reflexivity|]. split; [reflexivity|]. split; [reflexivity|].
  split; [reflexivity|]. split; [reflexivity|].
  rewrite loadPersisted_parsed.
  rewrite (calibrationToJSON_truthy (recordOf w p H) H eq_refl). reflexivity.
Qed.

Lemma submitPoint_at_most_four (w : World) (p : Point Q) :
  (List.length (clickedPoints (state w)) <= 4)%nat ->
  (List.length (clickedPoints (state (submitPoint w p))) <= 4)%nat.
Proof.
  intros Hle.
  assert (Hclick : (List.length (clickedPoints (state (handleCanvasClick w p))) <= 4)%nat).
  { unfold handleCanvasClick. cbv zeta.
    destruct (negb (isCalibrating (state w))); [exact Hle|].
    cbn [orb]. unfold CALIBRATION_POINTS_REQUIRED.
    destruct (Nat.leb_spec 4 (List.length (clickedPoints (state w)))) as [H4 | H4];
      [exact Hle|].
    cbn. rewrite length_app. cbn. lia. }
  unfold submitPoint, calibrationEffect. cbv zeta.
  set (w1 := handleCanvasClick w p) in *.
  destruct (isCalibrating (state w1) && _); [|exact Hclick].
  unfold calculateAndStoreHomography. cbv zeta.
  destruct (negb (cvLoaded (state w1)) || _); [exact Hclick|].
  destruct (findHomography _ _) as [| | rows cols data]; try exact Hclick.
  destruct rows as [| [[| |] | [| |] |] |]; try exact Hclick.
  destruct cols as [| [[| |] | [| |] |] |]; try exact Hclick.
  cbn. lia.
Qed.

(** X13: however many clicks arrive, the component never holds more than
    four calibration points. *)
Theorem clickAll_at_most_four (ps : list (Point Q)) :
  forall w : World,
    (List.length (clickedPoints (state w)) <= 4)%nat ->
    (List.length (clickedPoints (state (clickAll w ps))) <= 4)%nat.
Proof.
  induction ps as [| p rest IH]; intros w Hle; cbn [clickAll fold_left].
  - exact Hle.
  - apply IH. apply submitPoint_at_most_four. exact Hle.
Qed.

End CalibrationRoundTrip.

Section CalibrationRoundTripWitnesses.

Local Open Scope Q_scope.

Lemma successful_calibration_round_trip_witness :
  let w := collectingWorld (cv := exampleCV) identityMatrix vga in
  let w' := submitPoint w (mkPoint 40 240) in
  isCalibrating (state w') = false /\
  loadPersisted (localStorage w')
    = (Some (calibrationToJSON (recordOf w (mkPoint 40 240) identityMatrix)),
       localStorage w').
Proof.
  intros w w'.
  destruct (successful_calibration_round_trip (cv := exampleCV) w (mkPoint 40 240)
              identityMatrix eq_refl eq_refl eq_refl eq_refl)
    as (_ & H2 & _ & _ & _ & H6).
  split; [exact H2 | exact H6].
Defined.

Lemma clickAll_at_most_four_witness :
  (List.length
     (clickedPoints
        (state (clickAll (collectingWorld (cv := exampleCV) identityMatrix vga)
                         [mkPoint 100 400; mkPoint 1 1; mkPoint 2 2]%Q)))
   <= 4)%nat.
Proof.
  apply (clickAll_at_most_four (cv := exampleCV)). cbn. lia.
Defined.

End CalibrationRoundTripWitnesses.

Module GameStoreFacts.

Import GameStore.

Section Lists.

Context {A : Type}.

Lemma length_setNth (i : nat) (v : A) (l : list A) :
  List.length (setNth i v l) = List.length l.
Proof.
  revert i. induction l as [| a rest IH]; intros i; [reflexivity|].
  destruct i; cbn; [reflexivity | rewrite IH; reflexivity].
Qed.

Lemma nth_error_setNth_eq (i : nat) (v : A) (l : list A) :
  (i < List.length l)%nat -> nth_error (setNth i v l) i = Some v.
Proof.
  revert i. induction l as [| a rest IH]; intros i Hi; cbn in Hi; [lia|].
  destruct i; cbn; [reflexivity | apply IH; lia].
Qed.

Lemma nth_error_setNth_neq (i j : nat) (v : A) (l : list A) :
  i <> j -> nth_error (setNth i v l) j = nth_error l j.
Proof.
  revert i j. induction l as [| a rest IH]; intros i j Hij; [reflexivity|].
  destruct i, j; cbn; try reflexivity; [contradiction | apply IH; lia].
Qed.

Lemma setNth_setNth (i : nat) (u v : A) (l : list A) :
  setNth i v (setNth i u l) = setNth i v l.
Proof.
  revert i. induction l as [| a rest IH]; intros i; [reflexivity|].
  destruct i; cbn; [reflexivity | rewrite IH; reflexivity].
Qed.

Lemma setNth_same (i : nat) (v : A) (l : list A) :
  nth_error l i = Some v -> setNth i v l = l.
Proof.
  revert i. induction l as [| a rest IH]; intros i Hi; [reflexivity|].
  destruct i; cbn in *; [congruence | rewrite IH by exact Hi; reflexivity].
Qed.

Lemma In_setNth (i : nat) (v p : A) (l : list A) :
  In p (setNth i v l) -> p = v \/ In p l.
Proof.
  revert i. induction l as [| a rest IH]; intros i Hin; [contradiction|].
  destruct i; cbn in Hin.
  - destruct Hin as [<- | Hin]; [left; reflexivity | right; right; exact Hin].
  - destruct Hin as [<- | Hin]; [right; left; reflexivity|].
    destruct (IH _ Hin) as [-> | H]; [left; reflexivity | right; right; exact H].
Qed.

Lemma map_setNth_same {B : Type} (f : A -> B) (i : nat) (u v : A) (l : list A) :
  nth_error l i = Some u -> f v = f u -> map f (setNth i v l) = map f l.
Proof.
  revert i. induction l as [| a rest IH]; intros i Hi Hf; [reflexivity|].
  destruct i; cbn in *.
  - injection Hi as ->. rewrite Hf. reflexivity.
  - rewrite (IH _ Hi Hf). reflexivity.
Qed.

Lemma pop_app (l : list A) (a : A) : pop (l ++ [a]) = Some (l, a).
Proof.
  induction l as [| b rest IH]; cbn; [reflexivity|]. rewrite IH. reflexivity.
Qed.

Lemma length_mapiFrom {B : Type} (k : nat) (f : nat -> A -> B) (l : list A) :
  List.length (mapiFrom k f l) = List.length l.
Proof.
  revert k. induction l as [| a rest IH]; intros k; cbn; [reflexivity|].
  rewrite IH. reflexivity.
Qed.

Lemma nth_error_mapiFrom {B : Type} (k i : nat) (f : nat -> A -> B) (l : list A) :
  nth_error (mapiFrom k f l) i = option_map (f (k + i)%nat) (nth_error l i).
Proof.
  revert k i. induction l as [| a rest IH]; intros k i.
  - destruct i; reflexivity.
  - destruct i; cbn.
    + rewrite Nat.add_0_r. reflexivity.
    + rewrite IH. replace (S k + i)%nat with (k + S i)%nat by lia. reflexivity.
Qed.

Lemma In_mapiFrom {B : Type} (k : nat) (f : nat -> A -> B) (l : list A) (b : B) :
  In b (mapiFrom k f l) -> exists i a, In a l /\ b = f i a.
Proof.
  revert k. induction l as [| a rest IH]; intros k Hin; [contradiction|].
  cbn in Hin. destruct Hin as [<- | Hin].
  - exists k, a. split; [left; reflexivity | reflexivity].
  - destruct (IH _ Hin) as (i & a' & Ha & Hb).
    exists i, a'. split; [right; exact Ha | exact Hb].
Qed.

End Lists.

Section Invariants.

Lemma next_in_range (i n : nat) : (0 < n)%nat -> (Nat.modulo (i + 1) n < n)%nat.
Proof. intros Hn. apply Nat.mod_upper_bound. lia. Qed.

Lemma players_nonempty (s : GameState) :
  indexed s -> Nat.eqb (List.length (players s)) 0 = false.
Proof.
  unfold indexed. intros H. apply Nat.eqb_neq. lia.
Qed.

Lemma flagged_setNth_keep (s : GameState) (p p' : Player.t) (ps : list Player.t)
      (idx : nat) :
  (forall i q, nth_error ps i = Some q -> Player.currentTurn q = Nat.eqb i idx) ->
  nth_error ps idx = Some p ->
  Player.currentTurn p' = Player.currentTurn p ->
  forall i q, nth_error (setNth idx p' ps) i = Some q ->
              Player.currentTurn q = Nat.eqb i idx.
Proof.
  intros Hflag Hp Hsame i q Hq.
  destruct (Nat.eq_dec idx i) as [<- | Hne].
  - rewrite nth_error_setNth_eq in Hq
      by (apply nth_error_Some; rewrite Hp; discriminate).
    injection Hq as <-. rewrite Hsame. apply (Hflag idx p Hp).
  - rewrite nth_error_setNth_neq in Hq by exact Hne. apply (Hflag i q Hq).
Qed.

Lemma registerDart_keeps (s : GameState) (dart : DartScore) :
  indexed s -> flagged s ->
  exists s', registerDart s dart = Some s' /\ indexed s' /\ flagged s'.
Proof.
  intros Hidx Hflag. unfold registerDart.
  destruct ((dartsRemaining s <=? 0)%Z || Nat.eqb (List.length (players s)) 0);
    [exists s; repeat split; assumption|].
  destruct (nth_error (players s) (currentPlayerIndex s)) as [cp |] eqn:Ecp;
    [|apply nth_error_None in Ecp; unfold indexed in Hidx; lia].
  cbv zeta.
  destruct (isBustDart _ dart);
    [eexists; split; [reflexivity | split; [exact Hidx | exact Hflag]]|].
  destruct (Player.score cp - points dart =? 0)%Z.
  - destruct (legsToWin s <=? _)%Z.
    + eexists. split; [reflexivity|]. split.
      * unfold indexed. cbn. rewrite length_setNth. exact Hidx.
      * unfold flagged. cbn.
        apply (flagged_setNth_keep s cp _ (players s) _ Hflag Ecp). reflexivity.
    + eexists. split; [reflexivity|]. split.
      * unfold indexed, mapi. cbn. rewrite length_mapiFrom, length_setNth.
        apply next_in_range. unfold indexed in Hidx. lia.
      * unfold flagged, mapi. cbn. intros i q Hq.
        rewrite nth_error_mapiFrom in Hq.
        destruct (nth_error (setNth _ _ _) i); cbn in Hq; [|discriminate].
        injection Hq as <-. reflexivity.
  - eexists. split; [reflexivity|]. split.
    + unfold indexed. cbn. rewrite length_setNth. exact Hidx.
    + unfold flagged. cbn.
      apply (flagged_setNth_keep s cp _ (players s) _ Hflag Ecp). reflexivity.
Qed.

Lemma endTurn_keeps (s : GameState) :
  indexed s -> flagged s ->
  exists s', endTurn s = Some s' /\ indexed s' /\ flagged s'.
Proof.
  intros Hidx Hflag. unfold endTurn.
  rewrite (players_nonempty s Hidx).
  destruct (nth_error (players s) (currentPlayerIndex s)) as [cp |] eqn:Ecp;
    [|apply nth_error_None in Ecp; unfold indexed in Hidx; lia].
  cbv zeta.
  set (pwh := Player.mk _ _ _ _ _ _ false _).
  set (next := Nat.modulo (currentPlayerIndex s + 1) (List.length (players s))).
  assert (Hnext : (next < List.length (players s))%nat)
    by (apply next_in_range; unfold indexed in Hidx; lia).
  destruct (nth_error (setNth (currentPlayerIndex s) pwh (players s)) next)
    as [np |] eqn:Enp;
    [|apply nth_error_None in Enp; rewrite length_setNth in Enp; lia].
  eexists. split; [reflexivity|]. split.
  - unfold indexed. cbn. rewrite !length_setNth. exact Hnext.
  - unfold flagged. cbn. intros i q Hq.
    destruct (Nat.eq_dec next i) as [<- | Hne].
    + rewrite nth_error_setNth_eq in Hq by (rewrite length_setNth; exact Hnext).
      injection Hq as <-. cbn. symmetry. apply Nat.eqb_refl.
    + rewrite nth_error_setNth_neq in Hq by exact Hne.
      replace (Nat.eqb i next) with false
        by (symmetry; apply Nat.eqb_neq; lia).
      destruct (Nat.eq_dec (currentPlayerIndex s) i) as [<- | Hne2].
      * rewrite nth_error_setNth_eq in Hq by exact Hidx.
        injection Hq as <-. reflexivity.
      * rewrite nth_error_setNth_neq in Hq by exact Hne2.
        rewrite (Hflag i q Hq). apply Nat.eqb_neq. lia.
Qed.

Lemma undoLastDart_keeps (s : GameState) :
  indexed s -> flagged s ->
  exists s', undoLastDart s = Some s' /\ indexed s' /\ flagged s'.
Proof.
  intros Hidx Hflag. unfold undoLastDart.
  destruct (Nat.eqb (List.length (currentTurn s)) 0 || _);
    [exists s; repeat split; assumption|].
  destruct (pop (currentTurn s)) as [[front removed] |];
    [|exists s; repeat split; assumption].
  destruct (nth_error (players s) (currentPlayerIndex s)) as [cp |] eqn:Ecp;
    [|apply nth_error_None in Ecp; unfold indexed in Hidx; lia].
  cbv zeta. eexists. split; [reflexivity|]. split.
  - unfold indexed. cbn. rewrite length_setNth. exact Hidx.
  - unfold flagged. cbn.
    apply (flagged_setNth_keep s cp _ (players s) _ Hflag Ecp). reflexivity.
Qed.

Lemma resetGame_keeps (s : GameState) :
  indexed s ->
  exists s', resetGame s = Some s' /\ indexed s' /\ flagged s'.
Proof.
  intros Hidx. unfold resetGame, indexed in *.
  destruct (players s) as [| p0 rest]; [cbn in Hidx; lia|].
  cbn [map]. eexists. split; [reflexivity|]. split.
  - cbn. lia.
  - unfold flagged. cbn. intros i q Hq.
    destruct i; cbn in Hq.
    + injection Hq as <-. reflexivity.
    + apply nth_error_In in Hq. apply in_map_iff in Hq.
      destruct Hq as (p & <- & _). reflexivity.
Qed.

Lemma startGame_establishes (s : GameState) :
  players s <> [] -> indexed (startGame s) /\ flagged (startGame s).
Proof.
  intros Hne. unfold startGame.
  destruct (players s) as [| p0 rest] eqn:Ep; [contradiction|].
  split.
  - unfold indexed, mapi. cbn. lia.
  - unfold flagged, mapi. cbn [players currentPlayerIndex]. intros i q Hq.
    rewrite nth_error_mapiFrom in Hq.
    destruct (nth_error (p0 :: rest) i); cbn in Hq; [|discriminate].
    injection Hq as <-. reflexivity.
Qed.

Lemma actAll_keeps (actions : list Action) :
  forall s, indexed s -> flagged s ->
            exists s', actAll s actions = Some s' /\ indexed s' /\ flagged s'.
Proof.
  induction actions as [| a rest IH]; intros s Hidx Hflag.
  - exists s. repeat split; assumption.
  - assert (Hstep : exists s1, act s a = Some s1 /\ indexed s1 /\ flagged s1).
    { destruct a; cbn [act].
      - apply registerDart_keeps; assumption.
      - apply endTurn_keeps; assumption.
      - apply undoLastDart_keeps; assumption.
      - apply resetGame_keeps; assumption. }
    destruct Hstep as (s1 & Hs1 & Hidx1 & Hflag1).
    cbn [actAll]. rewrite Hs1. apply IH; assumption.
Qed.

(** X14: once a game with at least one player has been started, no sequence
    of registerDart, endTurn, undoLastDart and resetGame raises; after each
    of them the current player index is a position of the player list and
    exactly the player at that position carries the currentTurn flag. *)
Theorem game_actions_keep_the_turn (s : GameState) (actions : list Action) :
  players s <> [] ->
  exists s', actAll (startGame s) actions = Some s' /\ indexed s' /\ flagged s'.
Proof.
  intros Hne. destruct (startGame_establishes s Hne) as [Hidx Hflag].
  apply actAll_keeps; assumption.
Qed.

End Invariants.

Section Scores.

Lemma isBustDart_false (newScore : Z) (dart : DartScore) :
  isBustDart newScore dart = false ->
  (2 <= newScore)%Z \/ (newScore = 0%Z /\ multiplier dart = 2%Z).
Proof.
  unfold isBustDart. intros H.
  apply orb_false_iff in H. destruct H as [H H3].
  apply orb_false_iff in H. destruct H as [H1 H2].
  apply Z.ltb_ge in H1. apply Z.eqb_neq in H2.
  destruct (Z.eqb_spec newScore 0) as [E | E].
  - right. split; [exact E|]. cbn in H3. apply negb_false_iff in H3.
    apply Z.eqb_eq in H3. exact H3.
  - left. lia.
Qed.

(** X15: [registerDart] never leaves a player on a negative score or on 1:
    if every score is at least 2, or 0 in a finished game, and the game mode
    is at least 2, the same holds after any dart. *)
Theorem registerDart_keeps_scores_sound (s s' : GameState) (dart : DartScore) :
  (2 <= gameMode s)%Z ->
  sound s ->
  registerDart s dart = Some s' ->
  sound s'.
Proof.
  intros Hmode Hsound. unfold registerDart.
  destruct ((dartsRemaining s <=? 0)%Z || Nat.eqb (List.length (players s)) 0);
    [intros H; injection H as <-; exact Hsound|].
  destruct (nth_error (players s) (currentPlayerIndex s)) as [cp |] eqn:Ecp;
    [|discriminate].
  cbv zeta.
  destruct (isBustDart _ dart) eqn:Eb;
    [intros H; injection H as <-; exact Hsound|].
  apply isBustDart_false in Eb.
  destruct (Z.eqb_spec (Player.score cp - points dart) 0) as [E0 | E0].
  - destruct (legsToWin s <=? _)%Z; intros H; injection H as <-.
    + intros p Hp. cbn [players gameFinished] in *.
      apply In_setNth in Hp. destruct Hp as [-> | Hp].
      * right. split; [exact E0 | reflexivity].
      * destruct (Hsound p Hp) as [H2 | [H0 _]];
          [left; exact H2 | right; split; [exact H0 | reflexivity]].
    + intros p Hp. cbn [players gameFinished] in *.
      apply In_mapiFrom in Hp. destruct Hp as (i & a & _ & ->).
      left. exact Hmode.
  - intros H; injection H as <-.
    intros p Hp. cbn [players gameFinished] in *.
    apply In_setNth in Hp. destruct Hp as [-> | Hp].
    + left. cbn. lia.
    + apply (Hsound p Hp).
Qed.

(** X16: a leg is won on a double only: [registerDart] changes a player's
    count of won legs only for the current player, by one, when the dart has
    multiplier 2 and takes the score to exactly 0. *)
Theorem registerDart_wins_on_double (s s' : GameState) (dart : DartScore)
        (i : nat) (p p' : Player.t) :
  registerDart s dart = Some s' ->
  nth_error (players s) i = Some p ->
  nth_error (players s') i = Some p' ->
  Player.legsWon p' = Player.legsWon p \/
  (i = currentPlayerIndex s /\ multiplier dart = 2%Z /\
   points dart = Player.score p /\
   Player.legsWon p' = (Player.legsWon p + 1)%Z).
Proof.
  unfold registerDart.
  destruct ((dartsRemaining s <=? 0)%Z || Nat.eqb (List.length (players s)) 0);
    [intros H Hp Hp'; injection H as <-; left; congruence|].
  destruct (nth_error (players s) (currentPlayerIndex s)) as [cp |] eqn:Ecp;
    [|discriminate].
  cbv zeta.
  assert (Hlt : (currentPlayerIndex s < List.length (players s))%nat)
    by (apply nth_error_Some; rewrite Ecp; discriminate).
  destruct (isBustDart _ dart) eqn:Eb;
    [intros H Hp Hp'; injection H as <-; cbn in Hp'; left; congruence|].
  apply isBustDart_false in Eb.
  assert (Hwin : forall q q' ps,
    nth_error (players s) i = Some q ->
    nth_error (setNth (currentPlayerIndex s) ps (players s)) i = Some q' ->
    Player.legsWon ps = (Player.legsWon cp + 1)%Z ->
    (Player.score cp - points dart)%Z = 0%Z ->
    Player.legsWon q' = Player.legsWon q \/
    (i = currentPlayerIndex s /\ multiplier dart = 2%Z /\
     points dart = Player.score q /\
     Player.legsWon q' = (Player.legsWon q + 1)%Z)).
  { intros q q' ps Hq Hq' Hlegs H0.
    destruct (Nat.eq_dec (currentPlayerIndex s) i) as [<- | Hne].
    - rewrite nth_error_setNth_eq in Hq' by exact Hlt.
      injection Hq' as <-. assert (q = cp) by congruence. subst q.
      right. repeat split; try assumption; lia.
    - rewrite nth_error_setNth_neq in Hq' by exact Hne. left. congruence. }
  destruct (Z.eqb_spec (Player.score cp - points dart) 0) as [E0 | E0].
  - destruct (legsToWin s <=? _)%Z; intros H Hp Hp'; injection H as <-;
      cbn [players] in Hp'.
    + apply (Hwin p p' _ Hp Hp'); [reflexivity | exact E0].
    + unfold mapi in Hp'. rewrite nth_error_mapiFrom in Hp'.
      destruct (nth_error (setNth _ _ _) i) as [q |] eqn:Eq; cbn in Hp';
        [|discriminate].
      injection Hp' as <-. cbn [Player.legsWon].
      apply (Hwin p q _ Hp Eq); [reflexivity | exact E0].
  - intros H Hp Hp'; injection H as <-. cbn [players] in Hp'. left.
    destruct (Nat.eq_dec (currentPlayerIndex s) i) as [<- | Hne].
    + rewrite nth_error_setNth_eq in Hp' by exact Hlt.
      injection Hp' as <-. cbn. congruence.
    + rewrite nth_error_setNth_neq in Hp' by exact Hne. congruence.
Qed.

(** X17: [endTurn] changes no player's score, won legs or thrown darts, also
    when it records the turn as a bust. *)
Theorem endTurn_keeps_scores (s s' : GameState) :
  endTurn s = Some s' ->
  map Player.score (players s') = map Player.score (players s) /\
  map Player.legsWon (players s') = map Player.legsWon (players s) /\
  map Player.dartsThrown (players s') = map Player.dartsThrown (players s).
Proof.
  unfold endTurn.
  destruct (Nat.eqb (List.length (players s)) 0);
    [intros H; injection H as <-; repeat split|].
  destruct (nth_error (players s) (currentPlayerIndex s)) as [cp |] eqn:Ecp;
    [|discriminate].
  cbv zeta.
  set (pwh := Player.mk _ _ _ _ _ _ false _).
  set (next := Nat.modulo _ _).
  destruct (nth_error (setNth (currentPlayerIndex s) pwh (players s)) next)
    as [np |] eqn:Enp; [|discriminate].
  intros H; injection H as <-. cbn [players].
  repeat split.
  - rewrite (map_setNth_same Player.score next np (withCurrentTurnFlag true np) _ Enp eq_refl).
    apply (map_setNth_same Player.score _ cp _ _ Ecp). reflexivity.
  - rewrite (map_setNth_same Player.legsWon next np (withCurrentTurnFlag true np) _ Enp eq_refl).
    apply (map_setNth_same Player.legsWon _ cp _ _ Ecp). reflexivity.
  - rewrite (map_setNth_same Player.dartsThrown next np (withCurrentTurnFlag true np) _ Enp eq_refl).
    apply (map_setNth_same Player.dartsThrown _ cp _ _ Ecp). reflexivity.
Qed.

End Scores.

Section Undo.

Lemma nonempty_of_nth (s : GameState) (p : Player.t) :
  nth_error (players s) (currentPlayerIndex s) = Some p ->
  Nat.eqb (List.length (players s)) 0 = false /\
  (currentPlayerIndex s < List.length (players s))%nat.
Proof.
  intros Hp.
  assert (H : (currentPlayerIndex s < List.length (players s))%nat)
    by (apply nth_error_Some; rewrite Hp; discriminate).
  split; [apply Nat.eqb_neq; lia | exact H].
Qed.

Lemma scoring_dart_not_bust (sc : Z) (dart : DartScore) :
  (2 <= sc - points dart)%Z ->
  isBustDart (sc - points dart) dart = false /\
  (sc - points dart =? 0)%Z = false.
Proof.
  intros H. unfold isBustDart.
  destruct (Z.ltb_spec (sc - points dart) 0); [lia|].
  destruct (Z.eqb_spec (sc - points dart) 1); [lia|].
  destruct (Z.eqb_spec (sc - points dart) 0); [lia|].
  split; reflexivity.
Qed.

(** What [registerDart] does with a dart that leaves at least 2. *)
Lemma registerDart_scoring (s : GameState) (p : Player.t) (dart : DartScore) :
  nth_error (players s) (currentPlayerIndex s) = Some p ->
  (0 < dartsRemaining s)%Z ->
  (2 <= Player.score p - points dart)%Z ->
  registerDart s dart =
    Some (mkGameState (gameMode s)
            (setNth (currentPlayerIndex s)
               (Player.mk (Player.id p) (Player.name p)
                          (Player.score p - points dart) (Player.initialScore p)
                          (Player.dartsThrown p + 1) (Player.legsWon p)
                          (Player.currentTurn p) (Player.history p))
               (players s))
            (legsToWin s) (currentPlayerIndex s) (dartsRemaining s - 1)
            (gameStarted s) (gameFinished s) (currentTurn s ++ [dart])).
Proof.
  intros Hp Hdarts Hscore.
  destruct (nonempty_of_nth s p Hp) as [Hne _].
  destruct (scoring_dart_not_bust _ dart Hscore) as [Hb H0].
  unfold registerDart. rewrite Hne, Hp.
  destruct (Z.leb_spec (dartsRemaining s) 0); [lia|].
  cbn [orb]. cbv zeta. rewrite Hb, H0. reflexivity.
Qed.

(** X18: [undoLastDart] takes back a dart that scored: after a dart that
    leaves the current player on at least 2, it restores the store exactly
    as it was before the dart. *)
Theorem undo_restores_scoring_dart (s : GameState) (p : Player.t) (dart : DartScore) :
  nth_error (players s) (currentPlayerIndex s) = Some p ->
  (0 < dartsRemaining s)%Z ->
  (0 <= Player.dartsThrown p)%Z ->
  (2 <= Player.score p - points dart)%Z ->
  exists s1, registerDart s dart = Some s1 /\ undoLastDart s1 = Some s.
Proof.
  intros Hp Hdarts Hthrown Hscore.
  destruct (nonempty_of_nth s p Hp) as [Hne Hlt].
  eexists. split; [apply (registerDart_scoring s p dart Hp Hdarts Hscore)|].
  unfold undoLastDart.
  cbn [currentTurn players currentPlayerIndex dartsRemaining gameMode legsToWin
       gameStarted gameFinished].
  rewrite length_app, length_setNth, Hne. cbn [List.length].
  replace (Nat.eqb (List.length (currentTurn s) + 1) 0) with false
    by (symmetry; apply Nat.eqb_neq; lia).
  cbn [orb]. rewrite pop_app.
  rewrite nth_error_setNth_eq by exact Hlt. cbv zeta.
  cbn [Player.score Player.dartsThrown Player.id Player.name Player.initialScore
       Player.legsWon Player.currentTurn Player.history].
  rewrite setNth_setNth.
  replace (Player.score p - points dart + points dart)%Z with (Player.score p) by lia.
  replace (Z.max 0 (Player.dartsThrown p + 1 - 1)) with (Player.dartsThrown p) by lia.
  replace (dartsRemaining s - 1 + 1)%Z with (dartsRemaining s) by lia.
  rewrite (setNth_same (currentPlayerIndex s) _ (players s))
    by (rewrite Hp; destruct p; reflexivity).
  destruct s; reflexivity.
Qed.

(** X19: [undoLastDart] does not take back a bust: [registerDart] leaves the
    score as it is on a bust, yet undoing that dart adds the dart's points
    to the score and takes one off the thrown darts. *)
Theorem undo_after_bust (s : GameState) (p : Player.t) (dart : DartScore) :
  nth_error (players s) (currentPlayerIndex s) = Some p ->
  (0 < dartsRemaining s)%Z ->
  isBustDart (Player.score p - points dart) dart = true ->
  exists s1,
    registerDart s dart = Some s1 /\
    players s1 = players s /\
    undoLastDart s1 =
      Some (withPlayers
              (setNth (currentPlayerIndex s)
                 (Player.mk (Player.id p) (Player.name p)
                            (Player.score p + points dart) (Player.initialScore p)
                            (Z.max 0 (Player.dartsThrown p - 1)) (Player.legsWon p)
                            (Player.currentTurn p) (Player.history p))
                 (players s))
              s).
Proof.
  intros Hp Hdarts Hbust.
  destruct (nonempty_of_nth s p Hp) as [Hne Hlt].
  unfold registerDart. rewrite Hne, Hp.
  destruct (Z.leb_spec (dartsRemaining s) 0); [lia|].
  cbn [orb]. cbv zeta. rewrite Hbust.
  eexists. split; [reflexivity|]. split; [reflexivity|].
  unfold undoLastDart.
  cbn [currentTurn players currentPlayerIndex dartsRemaining gameMode legsToWin
       gameStarted gameFinished].
  rewrite length_app, Hne. cbn [List.length].
  replace (Nat.eqb (List.length (currentTurn s) + 1) 0) with false
    by (symmetry; apply Nat.eqb_neq; lia).
  cbn [orb]. rewrite pop_app, Hp. cbv zeta.
  replace (dartsRemaining s - 1 + 1)%Z with (dartsRemaining s) by lia.
  reflexivity.
Qed.

End Undo.

Section Turns.

Lemma fold_points (ds : list DartScore) (acc : Z) :
  fold_left (fun sum dart => (sum + points dart)%Z) ds acc = (acc + turnTotal ds)%Z.
Proof.
  unfold turnTotal. revert acc.
  induction ds as [| d rest IH]; intros acc; cbn [fold_left]; [lia|].
  rewrite (IH (acc + points d)%Z), (IH (0 + points d)%Z). lia.
Qed.

Lemma turnTotal_cons (d : DartScore) (ds : list DartScore) :
  turnTotal (d :: ds) = (points d + turnTotal ds)%Z.
Proof. unfold turnTotal at 1. cbn [fold_left]. rewrite fold_points. lia. Qed.

(** Darts that each leave at least 2, thrown one after the other. *)
Lemma registerAll_scoring (ds : list DartScore) :
  forall (s : GameState) (p : Player.t),
    nth_error (players s) (currentPlayerIndex s) = Some p ->
    (Z.of_nat (List.length ds) <= dartsRemaining s)%Z ->
    scoring (Player.score p) ds = true ->
    exists s1,
      registerAll s ds = Some s1 /\
      players s1 =
        setNth (currentPlayerIndex s)
               (Player.mk (Player.id p) (Player.name p)
                          (Player.score p - turnTotal ds) (Player.initialScore p)
                          (Player.dartsThrown p + Z.of_nat (List.length ds))
                          (Player.legsWon p) (Player.currentTurn p)
                          (Player.history p))
               (players s) /\
      currentPlayerIndex s1 = currentPlayerIndex s /\
      currentTurn s1 = currentTurn s ++ ds.
Proof.
  induction ds as [| d rest IH]; intros s p Hp Hdarts Hsc.
  - exists s. split; [reflexivity|]. split; [|split; [reflexivity|]].
    + symmetry. apply setNth_same. rewrite Hp. f_equal.
      destruct p; cbn. f_equal; unfold turnTotal; cbn; lia.
    + rewrite app_nil_r. reflexivity.
  - cbn [scoring] in Hsc. apply andb_true_iff in Hsc. destruct Hsc as [Hd Hrest].
    apply Z.leb_le in Hd.
    cbn [List.length] in Hdarts. rewrite Nat2Z.inj_succ in Hdarts.
    destruct (nonempty_of_nth s p Hp) as [_ Hlt].
    cbn [registerAll].
    rewrite (registerDart_scoring s p d Hp ltac:(lia) Hd).
    set (p1 := Player.mk _ _ (Player.score p - points d) _ _ _ _ _).
    set (s1 := mkGameState _ _ _ _ _ _ _ _).
    assert (Hp1 : nth_error (players s1) (currentPlayerIndex s1) = Some p1)
      by (cbn; apply nth_error_setNth_eq; exact Hlt).
    destruct (IH s1 p1 Hp1 ltac:(cbn; lia) Hrest) as (s2 & Hs2 & Hpl & Hidx & Hct).
    exists s2. split; [exact Hs2|]. split; [|split].
    + rewrite Hpl. cbn [players currentPlayerIndex s1]. rewrite setNth_setNth.
      f_equal. cbn [p1 Player.id Player.name Player.score Player.initialScore
                    Player.dartsThrown Player.legsWon Player.currentTurn
                    Player.history].
      rewrite turnTotal_cons. cbn [List.length]. rewrite Nat2Z.inj_succ.
      f_equal; lia.
    + rewrite Hidx. reflexivity.
    + rewrite Hct. cbn [currentTurn s1]. rewrite <- app_assoc. reflexivity.
Qed.

(** X20: a turn without a bust is booked as thrown.  When the current
    player starts a turn with score and turn-start score equal, throws darts
    that each leave at least 2 and the turn is ended, the player's history
    gains one entry with those darts, their total, the new score and no
    bust; the new score becomes the next turn-start score, and the turn
    passes to the next player with three darts. *)
Theorem clean_turn_is_booked (s : GameState) (p : Player.t) (ds : list DartScore) :
  nth_error (players s) (currentPlayerIndex s) = Some p ->
  Player.score p = Player.initialScore p ->
  currentTurn s = [] ->
  (Z.of_nat (List.length ds) <= dartsRemaining s)%Z ->
  scoring (Player.score p) ds = true ->
  exists s1 s2 p2,
    registerAll s ds = Some s1 /\
    endTurn s1 = Some s2 /\
    nth_error (players s2) (currentPlayerIndex s) = Some p2 /\
    Player.score p2 = (Player.score p - turnTotal ds)%Z /\
    Player.initialScore p2 = Player.score p2 /\
    Player.history p2 =
      Player.history p
      ++ [Turn.mk ds (turnTotal ds) (Player.score p - turnTotal ds) false] /\
    currentPlayerIndex s2 =
      Nat.modulo (currentPlayerIndex s + 1) (List.length (players s)) /\
    dartsRemaining s2 = 3%Z /\
    currentTurn s2 = [].
Proof.
  intros Hp Hsync Hct Hdarts Hsc.
  destruct (nonempty_of_nth s p Hp) as [Hne Hlt].
  destruct (registerAll_scoring ds s p Hp Hdarts Hsc)
    as (s1 & Hs1 & Hpl & Hidx & Hct1).
  rewrite Hct in Hct1. cbn [app] in Hct1.
  set (p1 := Player.mk _ _ (Player.score p - turnTotal ds) _ _ _ _ _) in Hpl.
  assert (Hlen1 : List.length (players s1) = List.length (players s))
    by (rewrite Hpl; apply length_setNth).
  assert (Hp1 : nth_error (players s1) (currentPlayerIndex s1) = Some p1)
    by (rewrite Hpl, Hidx; apply nth_error_setNth_eq; exact Hlt).
  exists s1.
  unfold endTurn. rewrite Hlen1, Hne, Hp1. cbv zeta. rewrite Hct1, Hidx.
  cbn [p1 Player.score Player.initialScore Player.id Player.name
       Player.dartsThrown Player.legsWon Player.history].
  rewrite <- Hsync, Z.eqb_refl. cbn [negb].
  set (pwh := Player.mk _ _ _ _ _ _ false _).
  set (next := Nat.modulo (currentPlayerIndex s + 1) (List.length (players s))).
  assert (Hnext : (next < List.length (players s))%nat)
    by (apply next_in_range; lia).
  destruct (nth_error (setNth (currentPlayerIndex s) pwh (players s1)) next)
    as [np |] eqn:Enp;
    [|apply nth_error_None in Enp; rewrite length_setNth, Hlen1 in Enp; lia].
  destruct (Nat.eq_dec next (currentPlayerIndex s)) as [Enext | Enext].
  - rewrite Enext in Enp.
    rewrite nth_error_setNth_eq in Enp by (rewrite Hlen1; exact Hlt).
    injection Enp as <-.
    eexists. exists (withCurrentTurnFlag true pwh).
    split; [exact Hs1|]. split; [reflexivity|].
    cbn [players currentPlayerIndex dartsRemaining currentTurn].
    split; [rewrite Enext; apply nth_error_setNth_eq;
            rewrite length_setNth, Hlen1; exact Hlt|].
    repeat split.
  - eexists. exists pwh.
    split; [exact Hs1|]. split; [reflexivity|].
    cbn [players currentPlayerIndex dartsRemaining currentTurn].
    split; [rewrite nth_error_setNth_neq by exact Enext;
            apply nth_error_setNth_eq; rewrite Hlen1; exact Hlt|].
    repeat split.
Qed.

End Turns.

Section Setup.

Lemma addPlayers_from (names : list string) :
  forall s : GameState,
    map Player.id (players (addPlayers s names))
      = map Player.id (players s)
        ++ map Z.of_nat (seq (List.length (players s) + 1) (List.length names)) /\
    map Player.name (players (addPlayers s names))
      = map Player.name (players s) ++ names /\
    gameMode (addPlayers s names) = gameMode s /\
    (Forall (fun p => Player.score p = gameMode s) (players s) ->
     Forall (fun p => Player.score p = gameMode s) (players (addPlayers s names))).
Proof.
  induction names as [| n rest IH]; intros s.
  - cbn. rewrite !app_nil_r. repeat split. intros H; exact H.
  - unfold addPlayers. cbn [fold_left]. fold (addPlayers (addPlayer s n) rest).
    destruct (IH (addPlayer s n)) as (Hid & Hname & Hmode & Hscore).
    cbn [addPlayer withPlayers players gameMode] in *.
    rewrite length_app in Hid. cbn [List.length] in Hid.
    split; [|split; [|split]].
    + rewrite Hid, map_app, <- app_assoc. cbn [map Player.id app List.length seq].
      f_equal. f_equal; [lia|].
      replace (S (List.length (players s) + 1))
        with (List.length (players s) + 1 + 1)%nat by lia.
      reflexivity.
    + rewrite Hname, map_app, <- app_assoc. reflexivity.
    + exact Hmode.
    + intros Hall. apply Hscore. apply Forall_app. split; [exact Hall|].
      constructor; [reflexivity | constructor].
Qed.

(** X21: players that are added to an empty list get the ids 1, 2, 3, ...
    in the order of their names, and each starts on the game mode's score. *)
Theorem addPlayers_numbers_players (s : GameState) (names : list string) :
  map Player.id (players (addPlayers (resetPlayers s) names))
    = map Z.of_nat (seq 1 (List.length names)) /\
  map Player.name (players (addPlayers (resetPlayers s) names)) = names /\
  Forall (fun p => Player.score p = gameMode s)
         (players (addPlayers (resetPlayers s) names)).
Proof.
  destruct (addPlayers_from names (resetPlayers s)) as (Hid & Hname & _ & Hscore).
  cbn [resetPlayers withPlayers players gameMode map app List.length Nat.add] in *.
  repeat split; try assumption. apply Hscore. constructor.
Qed.

End Setup.

Section BoardClicks.

Local Open Scope R_scope.

Lemma DARTBOARD_NUMBERS_faces (i : Z) (face : Z) :
  JS.index DARTBOARD_NUMBERS i = Some face -> (1 <= face <= 20)%Z.
Proof.
  unfold JS.index. destruct (i <? 0)%Z; [discriminate|].
  intros H. apply nth_error_In in H.
  assert (Hall : Forall (fun f => (1 <= f <= 20)%Z) DARTBOARD_NUMBERS)
    by (repeat constructor; lia).
  rewrite Forall_forall in Hall. apply Hall. exact H.
Qed.

(** Inside the border radius [calculateScore] never answers with a miss. *)
Lemma calculateScore_on_board (bx by_ : R) :
  JS.le (sqrt ((bx - x (CENTER DARTBOARD_CONFIG)) * (bx - x (CENTER DARTBOARD_CONFIG))
               + (by_ - y (CENTER DARTBOARD_CONFIG)) * (by_ - y (CENTER DARTBOARD_CONFIG))))
        (OUTER_BORDER_RADIUS DARTBOARD_CONFIG) = true ->
  exists d : DartScore,
    calculateScore bx by_ = Some d /\
    (1 <= points d <= 60)%Z /\
    points d = (segment d * multiplier d)%Z.
Proof.
  intros Hin. apply le_true in Hin.
  unfold calculateScore. cbv zeta.
  destruct (JS.le _ (INNER_BULL_RADIUS _));
    [eexists; split; [reflexivity | cbn; lia]|].
  destruct (JS.le _ (OUTER_BULL_RADIUS _));
    [eexists; split; [reflexivity | cbn; lia]|].
  rewrite (proj2 (gt_false _ _) Hin).
  pose proof (boardAngle_range bx by_) as Ha.
  assert (Hk : (0 <= JS.floor (boardAngle bx by_ / 18) < 20)%Z)
    by (apply floor_range; simpl; lra).
  rewrite Z.rem_small by lia.
  destruct (index_in_range DARTBOARD_NUMBERS _ Hk) as [n Hn].
  rewrite Hn. pose proof (DARTBOARD_NUMBERS_faces _ _ Hn) as Hface.
  destruct (JS.ge _ (TRIPLE_RING_INNER_RADIUS _) && JS.le _ (TRIPLE_RING_OUTER_RADIUS _));
    [eexists; split; [reflexivity | cbn; lia]|].
  destruct (JS.ge _ (DOUBLE_RING_INNER_RADIUS _) && JS.le _ (DOUBLE_RING_OUTER_RADIUS _));
    eexists; (split; [reflexivity | cbn; lia]).
Qed.

(** X22: a click on the manual board never registers a miss.  With the
    current player index in range the handler does not raise; it either
    leaves the store and the hit marks alone (no dart left, or a click
    outside the border radius), or it adds one hit mark and registers a dart
    worth between 1 and 60 points, its segment times its multiplier. *)
Theorem handleBoardClick_never_misses
        (v : BoardView) (clientX clientY : R) (svgRect : ClientRect) :
  indexed (store v) ->
  exists v',
    handleBoardClick v clientX clientY svgRect = Some v' /\
    (v' = v \/
     exists d : DartScore,
       registerDart (store v) d = Some (store v') /\
       List.length (hitMarks v') = S (List.length (hitMarks v)) /\
       (1 <= points d <= 60)%Z /\
       points d = (segment d * multiplier d)%Z).
Proof.
  intros Hidx. unfold handleBoardClick.
  destruct (dartsRemaining (store v) =? 0)%Z; [exists v; split; [reflexivity | left; reflexivity]|].
  cbv zeta.
  set (vb := viewBoxPoint clientX clientY svgRect).
  destruct (JS.le _ (OUTER_BORDER_RADIUS DARTBOARD_CONFIG)) eqn:Ein;
    [|exists v; split; [reflexivity | left; reflexivity]].
  destruct (calculateScore_on_board (x vb) (y vb) Ein) as (d & Hd & Hpts & Hmul).
  rewrite Hd.
  assert (Hflag : exists s', registerDart (store v) d = Some s').
  { unfold registerDart.
    destruct ((dartsRemaining (store v) <=? 0)%Z || _); [eexists; reflexivity|].
    destruct (nth_error (players (store v)) (currentPlayerIndex (store v)))
      as [cp |] eqn:Ecp;
      [|apply nth_error_None in Ecp; unfold indexed in Hidx; lia].
    cbv zeta.
    destruct (isBustDart _ d); [eexists; reflexivity|].
    destruct (_ =? 0)%Z; [|eexists; reflexivity].
    destruct (_ <=? _)%Z; eexists; reflexivity. }
  destruct Hflag as [s' Hs']. rewrite Hs'.
  eexists. split; [reflexivity|]. right. exists d.
  cbn [store hitMarks]. split; [exact Hs'|].
  split; [rewrite length_app; cbn; lia|]. split; assumption.
Qed.

End BoardClicks.

Section Witnesses.

Lemma game_actions_keep_the_turn_witness :
  exists s',
    actAll twoPlayers
           [RegisterDart treble20; RegisterDart treble20; UndoLastDart; EndTurn;
            RegisterDart single20; EndTurn; ResetGame]
      = Some s' /\ indexed s' /\ flagged s'.
Proof.
  apply (game_actions_keep_the_turn
           (addPlayers initialStore ["Ann"; "Bob"]%string)).
  discriminate.
Defined.

Lemma registerDart_keeps_scores_sound_witness :
  exists s', registerDart onForty treble20 = Some s' /\ sound s'.
Proof.
  eexists. split; [reflexivity|].
  apply (registerDart_keeps_scores_sound onForty _ treble20).
  - cbn. lia.
  - intros p [<- | [<- | []]]; left; cbn; lia.
  - reflexivity.
Defined.

Lemma registerDart_wins_on_double_witness :
  exists s' p',
    registerDart onForty double20 = Some s' /\
    nth_error (players s') 0 = Some p' /\
    Player.legsWon p' = 1%Z.
Proof.
  eexists. eexists. split; [reflexivity|]. split; [reflexivity|].
  destruct (registerDart_wins_on_double onForty _ double20 0
              (Player.mk 1 "Ann" 40 40 9 0 true [])
              (Player.mk 1 "Ann" 501 40 10 1 false [])
              eq_refl eq_refl eq_refl) as [H | (_ & _ & _ & H)].
  - cbn in H. discriminate.
  - exact H.
Defined.

Lemma endTurn_keeps_scores_witness :
  exists s',
    endTurn onForty = Some s' /\
    map Player.score (players s') = [40; 501]%Z.
Proof.
  eexists. split; [reflexivity|].
  apply (endTurn_keeps_scores onForty). reflexivity.
Defined.

Lemma undo_restores_scoring_dart_witness :
  exists s1, registerDart twoPlayers treble20 = Some s1 /\
             undoLastDart s1 = Some twoPlayers.
Proof.
  apply (undo_restores_scoring_dart twoPlayers
           (Player.mk 1 "Ann" 501 501 0 0 true []) treble20).
  - reflexivity.
  - reflexivity.
  - cbn. lia.
  - cbn. lia.
Defined.

Lemma undo_after_bust_witness :
  exists s1 s2 p2,
    registerDart onForty treble20 = Some s1 /\
    players s1 = players onForty /\
    undoLastDart s1 = Some s2 /\
    nth_error (players s2) 0 = Some p2 /\
    Player.score p2 = 100%Z.
Proof.
  destruct (undo_after_bust onForty (Player.mk 1 "Ann" 40 40 9 0 true [])
              treble20 eq_refl eq_refl eq_refl) as (s1 & H1 & H2 & H3).
  exists s1. eexists. eexists.
  split; [exact H1|]. split; [exact H2|]. split; [exact H3|].
  split; reflexivity.
Defined.

Lemma clean_turn_is_booked_witness :
  exists s1 s2 p2,
    registerAll twoPlayers [treble20; treble20; single20] = Some s1 /\
    endTurn s1 = Some s2 /\
    nth_error (players s2) 0 = Some p2 /\
    Player.score p2 = (501 - turnTotal [treble20; treble20; single20])%Z /\
    Player.initialScore p2 = Player.score p2.
Proof.
  destruct (clean_turn_is_booked twoPlayers
              (Player.mk 1 "Ann" 501 501 0 0 true [])
              [treble20; treble20; single20]
              eq_refl eq_refl eq_refl ltac:(vm_compute; discriminate) eq_refl)
    as (s1 & s2 & p2 & H1 & H2 & H3 & H4 & H5 & _).
  exists s1, s2, p2. repeat split; assumption.
Defined.

Lemma handleBoardClick_never_misses_witness :
  exists v',
    handleBoardClick (mkBoardView [] twoPlayers) 340 150 boardRect = Some v' /\
    (v' = mkBoardView [] twoPlayers \/
     exists d : DartScore,
       registerDart twoPlayers d = Some (store v') /\
       List.length (hitMarks v') = 1%nat /\
       (1 <= points d <= 60)%Z /\
       points d = (segment d * multiplier d)%Z).
Proof.
  apply (handleBoardClick_never_misses (mkBoardView [] twoPlayers) 340 150 boardRect).
  unfold indexed. cbn. lia.
Defined.

End Witnesses.

End GameStoreFacts.

(** ** Requests for a processing pass *)

Section IngestionFacts.

Context {cv : OpenCV}.

Lemma onImageLoad_coalesced (d : Dimensions) (g : Ingest) (naturalW naturalH : Z) :
  coalesced g -> coalesced (onImageLoad d g naturalW naturalH).
Proof.
  unfold coalesced, onImageLoad. intros H.
  destruct (processingScheduled g) eqn:Es, (processFrameSet g) eqn:Ef;
    cbn; rewrite ?Es; try exact H; rewrite H; reflexivity.
Qed.

Lemma runRequestedPass_coalesced (g : Ingest) (t : Tick) :
  coalesced g -> coalesced (fst (runRequestedPass g t)).
Proof.
  unfold coalesced, runRequestedPass. intros H.
  destruct (requested g) as [| n] eqn:En; [cbn; rewrite En; exact H|].
  destruct (processFrame (world g) t) as [w evs]. cbn.
  destruct (processingScheduled g); [lia | discriminate].
Qed.

Lemma onImageLoad_refs (d : Dimensions) (g : Ingest) (naturalW naturalH : Z) :
  refs (world (onImageLoad d g naturalW naturalH)) = refs (world g).
Proof.
  unfold onImageLoad.
  destruct (negb (processingScheduled g) && processFrameSet g);
    destruct (negb (width d =? naturalW)%Z || negb (height d =? naturalH)%Z);
    reflexivity.
Qed.

(** X23: frames that arrive faster than passes run do not pile up passes.
    From a component whose flag tells whether a pass is requested, after any
    sequence of loaded frames and of runs of a requested pass the flag still
    tells so, and at most one pass is requested. *)
Theorem ingest_coalesces (events : list IngestEvent) (g : Ingest) :
  coalesced g ->
  coalesced (ingest g events) /\ (requested (ingest g events) <= 1)%nat.
Proof.
  intros H.
  assert (Hc : coalesced (ingest g events)).
  { revert g H. unfold ingest.
    induction events as [| e rest IH]; intros g H; [exact H|].
    cbn [fold_left]. apply IH.
    destruct e as [d naturalW naturalH | t]; cbn [ingestStep].
    - apply onImageLoad_coalesced, H.
    - apply runRequestedPass_coalesced, H. }
  split; [exact Hc|].
  unfold coalesced in Hc. rewrite Hc.
  destruct (processingScheduled (ingest g events)); lia.
Qed.

End IngestionFacts.

Lemma ingest_coalesces_witness :
  coalesced idleIngest /\
  (requested (ingest idleIngest
                     [FrameLoaded vga 640 480; FrameLoaded vga 1280 720;
                      PassRuns (quietTick 6000); FrameLoaded vga 640 480])
   <= 1)%nat.
Proof.
  split; [reflexivity|].
  apply (ingest_coalesces
           [FrameLoaded vga 640 480; FrameLoaded vga 1280 720;
            PassRuns (quietTick 6000); FrameLoaded vga 640 480] idleIngest).
  reflexivity.
Defined.

(** ** The second variant's pass *)

Module Variant2PassFacts.

Import Variant2Pass.

Section Facts.

Context {cv : OpenCV}.
Variable empty : Mat -> bool.
Local Open Scope Q_scope.

Lemma processes_processFrame (g : Pass) (t : Tick2) :
  processes g t ->
  processFrame empty g t =
    match tryBlock empty g t with
    | Returned w deleted evs =>
      (mkPass w (now (tick t)) false (requested g) deleted, evs)
    | Thrown w =>
      (mkPass (onState (setError (Some "Error during image processing."%string)) w)
              (now (tick t)) false (requested g) (afterDartDeleted g), [])
    end.
Proof.
  intros (Hcv & Hco & Hcal & Hcan & Hcom & Hh & Hthr & Hctx).
  unfold processFrame.
  rewrite Hcv, Hco, Hcal, Hcan, Hcom, Hthr, Hctx.
  apply Z.eqb_neq in Hh. rewrite Hh. reflexivity.
Qed.

Lemma warps_processes (g : Pass) (t : Tick2) (M : list Q) :
  warps g t M -> processes g t.
Proof.
  intros (Hcv & Hco & Hcal & Hcan & Hcom & Hh & Hthr & Hctx & _).
  repeat split; assumption.
Qed.

Lemma warps_processFrame (g : Pass) (t : Tick2) (M : list Q) :
  warps g t M ->
  processFrame empty g t =
    (let warpDst := warpPerspective (pixels (tick t)) M in
     match stillness empty (afterDartDeleted g) (state (world g)) (world g) warpDst with
     | Returned w deleted evs =>
       (mkPass (onRefs (setPrev (Some warpDst)) w) (now (tick t)) false
               (requested g) deleted,
        evs ++ [ShowWarped warpDst])
     | Thrown w =>
       (mkPass (onState (setError (Some "Error during image processing."%string)) w)
               (now (tick t)) false (requested g) (afterDartDeleted g), [])
     end).
Proof.
  intros Hw. rewrite (processes_processFrame g t (warps_processes g t M Hw)).
  destruct Hw as (_ & _ & Hcal & _ & _ & _ & _ & _ & c & Hc & HM).
  unfold tryBlock. rewrite Hcal, Hc.
  destruct c as [ip wp hm dm]. cbn in HM. subst hm. cbv zeta.
  destruct (stillness empty (afterDartDeleted g) (state (world g)) (world g)
                      (warpPerspective (pixels (tick t)) M)); reflexivity.
Qed.

(** What [stillness] does, by the two conditions that matter. *)
Lemma stillness_cases (g : Pass) (warpDst : Mat) :
  let out := stillness empty (afterDartDeleted g) (state (world g)) (world g) warpDst in
  if settles empty g warpDst then
    if dangling g then
      exists w, out = Thrown w /\ refs w = setJustBecameStill true (refs (world g))
    else
      exists w,
        stillFrameBeforeDartRef (refs w) = Some warpDst /\
        out = Returned w false
                (match stillFrameBeforeDartRef (refs (world g)) with
                 | Some before =>
                   if negb (empty before) && negb (empty warpDst)
                   then [DetectDartCalled warpDst before] else []
                 | None => []
                 end)
  else
    exists w,
      out = Returned w (afterDartDeleted g) [] /\
      stillFrameAfterDartRef (refs w) = stillFrameAfterDartRef (refs (world g)) /\
      stillFrameBeforeDartRef (refs w) =
        if negb (held empty (prevWarpedFrameRef (refs (world g))))
           && negb (held empty (stillFrameBeforeDartRef (refs (world g))))
        then Some warpDst
        else stillFrameBeforeDartRef (refs (world g)).
Proof.
  destruct g as [[st [pv bf af lt jb] sto] last sched req del].
  unfold settles, dangling, stillness, becameStill, withoutPrevious,
    deleteAfterThrows, held.
  cbn [world state refs afterDartDeleted prevWarpedFrameRef
       stillFrameBeforeDartRef stillFrameAfterDartRef onState onRefs
       setJustBecameStill setIsStill setAfter setBefore]. cbv zeta.
  destruct pv as [prev|].
  - destruct (empty prev); cbn [negb andb].
    + destruct bf as [b|]; [destruct (empty b)|]; cbn; eexists; repeat split.
    + destruct (JS.Qlt_bool (meanDiff warpDst prev) STILLNESS_THRESHOLD); cbn [andb].
      * destruct (isStill st); cbn [negb].
        -- eexists. repeat split.
        -- destruct af as [a|]; [destruct del|].
           ++ eexists. split; reflexivity.
           ++ destruct bf as [b|];
                [destruct (negb (empty b) && negb (empty warpDst))|];
                eexists; (split; [|reflexivity]); reflexivity.
           ++ destruct bf as [b|];
                [destruct (negb (empty b) && negb (empty warpDst))|];
                eexists; (split; [|reflexivity]); reflexivity.
      * destruct (isStill st); eexists; repeat split.
  - destruct bf as [b|]; [destruct (empty b)|]; cbn; eexists; repeat split.
Qed.

(** X24: when the second variant detects.  On a pass that gets to the warp,
    [detectDart] is called exactly when the board settles (a non-empty
    previous frame, a mean difference below 2 and a closed-over state of
    Moving), the post-throw ref does not hold a deleted Mat, a non-empty
    baseline is held and the rectified frame is not empty; it is then called
    once, on the rectified frame and that baseline.  The time of the last
    detection plays no part. *)
Theorem second_processFrame_detects_on_settling (g : Pass) (t : Tick2) (M : list Q) :
  warps g t M ->
  let warpDst := warpPerspective (pixels (tick t)) M in
  filter isDetectDartCalled (snd (processFrame empty g t)) =
    match stillFrameBeforeDartRef (refs (world g)) with
    | Some before =>
      if settles empty g warpDst && negb (dangling g)
         && negb (empty before) && negb (empty warpDst)
      then [DetectDartCalled warpDst before] else []
    | None => []
    end.
Proof.
  intros Hw warpDst. rewrite (warps_processFrame g t M Hw). fold warpDst.
  cbv zeta. pose proof (stillness_cases g warpDst) as H. cbv zeta in H.
  destruct (settles empty g warpDst); cbn [andb].
  - destruct (dangling g); cbn [negb andb].
    + destruct H as (w & -> & _). cbn.
      destruct (stillFrameBeforeDartRef (refs (world g))); reflexivity.
    + destruct H as (w & _ & ->). cbn [snd].
      rewrite filter_app. cbn [filter isDetectDartCalled]. rewrite app_nil_r.
      destruct (stillFrameBeforeDartRef (refs (world g))) as [b|]; [|reflexivity].
      destruct (negb (empty b) && negb (empty warpDst)); reflexivity.
  - destruct H as (w & -> & _). cbn.
    destruct (stillFrameBeforeDartRef (refs (world g))); reflexivity.
Qed.

(** X25: the baseline of the second variant.  On a pass that gets to the
    warp: if the board settles while the post-throw ref holds a deleted Mat,
    the pass throws, so the previous frame and the baseline stay as they
    were and the error message is set.  Otherwise the previous frame becomes
    the rectified frame, and the baseline becomes the rectified frame when
    the board settles on this pass, or when there is neither a non-empty
    previous frame nor a non-empty baseline, and stays as it was in every
    other case. *)
Theorem second_processFrame_baseline (g : Pass) (t : Tick2) (M : list Q) :
  warps g t M ->
  let warpDst := warpPerspective (pixels (tick t)) M in
  let g' := fst (processFrame empty g t) in
  if settles empty g warpDst && dangling g
  then
    prevWarpedFrameRef (refs (world g')) = prevWarpedFrameRef (refs (world g)) /\
    stillFrameBeforeDartRef (refs (world g'))
      = stillFrameBeforeDartRef (refs (world g)) /\
    error (state (world g')) = Some "Error during image processing."%string
  else
    prevWarpedFrameRef (refs (world g')) = Some warpDst /\
    stillFrameBeforeDartRef (refs (world g')) =
      if settles empty g warpDst
         || (negb (held empty (prevWarpedFrameRef (refs (world g))))
             && negb (held empty (stillFrameBeforeDartRef (refs (world g)))))
      then Some warpDst
      else stillFrameBeforeDartRef (refs (world g)).
Proof.
  intros Hw warpDst. rewrite (warps_processFrame g t M Hw). fold warpDst.
  cbv zeta. pose proof (stillness_cases g warpDst) as H. cbv zeta in H.
  destruct (settles empty g warpDst); cbn [andb orb].
  - destruct (dangling g).
    + destruct H as (w & -> & Hr). cbn [fst world state onState error setError refs].
      rewrite Hr. repeat split.
    + destruct H as (w & Hb & ->). cbn [fst world refs onRefs setPrev
        prevWarpedFrameRef stillFrameBeforeDartRef].
      split; [reflexivity | exact Hb].
  - destruct H as (w & -> & _ & Hb). cbn [fst world refs onRefs setPrev
      prevWarpedFrameRef stillFrameBeforeDartRef].
    split; [reflexivity | exact Hb].
Qed.

(** X26: the throttle of the second variant.  A requested pass that runs
    less than 200 ms after the last pass that got past the throttle changes
    neither state, refs nor storage, keeps the time of that last pass and
    draws nothing; and if the flag told whether a pass was requested before
    the run, it does so after it. *)
Theorem second_pass_is_throttled (g : Pass) (t : Tick2) :
  now (tick t) - lastFrameTime g < 200 ->
  coalesced g ->
  let g' := fst (runRequestedPass empty g t) in
  world g' = world g /\
  lastFrameTime g' = lastFrameTime g /\
  snd (runRequestedPass empty g t) = [] /\
  coalesced g'.
Proof.
  intros Hlt Hc. apply Qlt_bool_true in Hlt.
  unfold runRequestedPass, coalesced in *.
  destruct (requested g) as [| n] eqn:En.
  - cbn. rewrite En. repeat split; try reflexivity. exact Hc.
  - assert (Hn : n = 0%nat) by (destruct (processingScheduled g); [lia | discriminate]).
    subst n. unfold processFrame. cbn [world lastFrameTime requested].
    rewrite Hlt.
    destruct (negb (cvLoaded (state (world g))) || negb (isConnected (state (world g)))
              || isCalibrating (state (world g)) || negb (canvasReady (tick t))
              || negb (complete t) || (naturalHeight (tick t) =? 0)%Z);
      cbn; repeat split; reflexivity.
Qed.

(** Once the post-throw ref holds a deleted Mat, it keeps holding it, and no
    step calls [detectDart]. *)
Lemma dangling_tryBlock (g : Pass) (t : Tick2) :
  dangling g = true ->
  match tryBlock empty g t with
  | Returned w deleted evs =>
    deleteAfterThrows deleted w = true /\ filter isDetectDartCalled evs = []
  | Thrown w => deleteAfterThrows (afterDartDeleted g) w = true
  end.
Proof.
  destruct g as [[st [pv bf af lt jb] sto] last sched req del].
  unfold dangling, deleteAfterThrows. cbn [world afterDartDeleted refs
    stillFrameAfterDartRef].
  destruct af as [a|]; [|discriminate]. intros ->.
  unfold tryBlock, notCalibrated, stillness, becameStill, withoutPrevious,
    deleteAfterThrows, held.
  cbn [world state refs afterDartDeleted prevWarpedFrameRef
       stillFrameBeforeDartRef stillFrameAfterDartRef onState onRefs
       setJustBecameStill setIsStill setAfter setBefore setPrev]. cbv zeta.
  destruct (isCalibrating st); [split; reflexivity|].
  destruct (calibrationData st) as [[ip wp [M|] dm]|].
  - destruct pv as [prev|].
    + destruct (empty prev); cbn [negb].
      * destruct bf as [b|]; [destruct (empty b)|]; cbn; split; reflexivity.
      * destruct (JS.Qlt_bool _ STILLNESS_THRESHOLD).
        -- destruct (isStill st); cbn; [split|]; reflexivity.
        -- destruct (isStill st); cbn; split; reflexivity.
    + destruct bf as [b|]; [destruct (empty b)|]; cbn; split; reflexivity.
  - destruct (isStill st); reflexivity.
  - destruct (isStill st); reflexivity.
Qed.

Lemma dangling_step (g : Pass) (e : Step) :
  dangling g = true ->
  dangling (fst (step empty g e)) = true /\
  filter isDetectDartCalled (snd (step empty g e)) = [].
Proof.
  intros Hd. destruct e as [t | f store]; cbn [step]; [|split; [exact Hd | reflexivity]].
  unfold processFrame.
  destruct (negb (cvLoaded (state (world g))) || negb (isConnected (state (world g)))
            || isCalibrating (state (world g)) || negb (canvasReady (tick t))
            || negb (complete t) || (naturalHeight (tick t) =? 0)%Z);
    [split; [exact Hd | reflexivity]|].
  destruct (JS.Qlt_bool (now (tick t) - lastFrameTime g) 200);
    [split; [exact Hd | reflexivity]|].
  cbv zeta.
  destruct (negb (contextReady t)); [split; [exact Hd | reflexivity]|].
  pose proof (dangling_tryBlock g t Hd) as H.
  destruct (tryBlock empty g t) as [w deleted evs | w].
  - exact H.
  - split; [exact H | reflexivity].
Qed.

Lemma dangling_run (steps : list Step) :
  forall g : Pass,
    dangling g = true ->
    dangling (fst (run empty g steps)) = true /\
    filter isDetectDartCalled (snd (run empty g steps)) = [].
Proof.
  induction steps as [| e rest IH]; intros g Hd; cbn [run].
  - split; [exact Hd | reflexivity].
  - destruct (dangling_step g e Hd) as [Hd1 He1].
    destruct (step empty g e) as [g1 evs1]. cbn [fst snd] in Hd1, He1.
    destruct (IH g1 Hd1) as [Hd2 He2].
    destruct (run empty g1 rest) as [g2 evs2]. cbn [fst snd] in *.
    split; [exact Hd2|]. rewrite filter_app, He1, He2. reflexivity.
Qed.

(** X29: one uncalibrated pass ends detection for good.  When a pass runs
    without a calibration matrix while the post-throw ref holds a frame, the
    ref is left holding a deleted Mat; from then on, whatever passes run and
    whatever other handlers change state or storage (calibrating again
    included), [detectDart] is never called, and the ref keeps holding the
    deleted Mat. *)
Theorem second_variant_stops_detecting (g : Pass) (t : Tick2) (steps : list Step) :
  processes g t ->
  lacksMatrix (state (world g)) ->
  stillFrameAfterDartRef (refs (world g)) <> None ->
  let g1 := fst (processFrame empty g t) in
  dangling g1 = true /\
  filter isDetectDartCalled (snd (run empty g1 steps)) = [] /\
  dangling (fst (run empty g1 steps)) = true.
Proof.
  intros Hp Hlack Hafter g1.
  assert (Hd : dangling g1 = true).
  { unfold g1. rewrite (processes_processFrame g t Hp).
    destruct Hp as (_ & _ & Hcal & _).
    destruct g as [[st [pv bf af lt jb] sto] last sched req del].
    cbn [world state refs stillFrameAfterDartRef] in *.
    destruct af as [a|]; [|contradiction].
    unfold tryBlock, notCalibrated, deleteAfterThrows, dangling, lacksMatrix in *.
    cbn [world state refs afterDartDeleted stillFrameAfterDartRef onState onRefs
         setBefore setPrev setJustBecameStill] in *.
    rewrite Hcal. cbv zeta.
    destruct (calibrationData st) as [[ip wp hm dm]|].
    - cbn in Hlack. subst hm.
      destruct (isStill st), del, (detectedTip st); reflexivity.
    - destruct (isStill st), del, (detectedTip st); reflexivity. }
  destruct (dangling_run steps g1 Hd) as [H1 H2].
  repeat split; assumption.
Qed.

End Facts.

End Variant2PassFacts.

Section Variant2PassWitnesses.

Local Open Scope Q_scope.

Lemma settlingPass_warps :
  Variant2Pass.warps settlingPass (secondTick 1300) identityMatrix.
Proof.
  unfold Variant2Pass.warps. cbn.
  repeat (split; [first [reflexivity | discriminate]|]).
  eexists. split; reflexivity.
Qed.

Lemma second_processFrame_detects_on_settling_witness :
  filter isDetectDartCalled
         (snd (Variant2Pass.processFrame noPixels settlingPass (secondTick 1300))) =
    [DetectDartCalled (cv := exampleCV) [10; 11; 10; 10]%Z [10; 10; 10; 10]%Z].
Proof.
  exact (Variant2PassFacts.second_processFrame_detects_on_settling
           noPixels settlingPass (secondTick 1300) identityMatrix
           settlingPass_warps).
Defined.

Lemma second_processFrame_baseline_witness :
  stillFrameBeforeDartRef
    (refs (Variant2Pass.world
             (fst (Variant2Pass.processFrame noPixels settlingPass (secondTick 1300))))) =
    Some [10; 11; 10; 10]%Z.
Proof.
  exact (proj2 (Variant2PassFacts.second_processFrame_baseline
                  noPixels settlingPass (secondTick 1300) identityMatrix
                  settlingPass_warps)).
Defined.

Lemma second_pass_is_throttled_witness :
  Variant2Pass.world
    (fst (Variant2Pass.runRequestedPass
            noPixels
            (Variant2Pass.mkPass (Variant2Pass.world settlingPass) 1000 true 1 false)
            (secondTick 1100))) =
    Variant2Pass.world settlingPass.
Proof.
  apply (Variant2PassFacts.second_pass_is_throttled
           noPixels
           (Variant2Pass.mkPass (Variant2Pass.world settlingPass) 1000 true 1 false)
           (secondTick 1100)).
  - vm_compute. reflexivity.
  - reflexivity.
Defined.

Lemma second_variant_stops_detecting_witness :
  filter isDetectDartCalled
         (snd (Variant2Pass.run
                 noPixels
                 (fst (Variant2Pass.processFrame noPixels droppedPass (secondTick 1300)))
                 [calibratesAgain;
                  Variant2Pass.PassRuns (secondTick 1600);
                  Variant2Pass.PassRuns (secondTick 1900)])) = [].
Proof.
  apply (Variant2PassFacts.second_variant_stops_detecting
           noPixels droppedPass (secondTick 1300)
           [calibratesAgain;
            Variant2Pass.PassRuns (secondTick 1600);
            Variant2Pass.PassRuns (secondTick 1900)]).
  - unfold Variant2Pass.processes. cbn.
    repeat split; first [reflexivity | discriminate].
  - exact I.
  - discriminate.
Defined.

End Variant2PassWitnesses.

(** ** What the game views show *)

Module GameViewFacts.

Import GameStore GameStoreFacts.

Section Winner.

Local Open Scope Z_scope.

Lemma fold_leader (L : Z) (w : Player.t) (l : list Player.t) :
  L <= Player.legsWon w ->
  forall acc,
    (forall q, In q l -> q = w \/ Player.legsWon q < L) ->
    acc = w \/ (Player.legsWon acc < L /\ In w l) ->
    fold_left (fun max p => if Player.legsWon max <? Player.legsWon p then p else max)
              l acc = w.
Proof.
  intros Hw. induction l as [| a rest IH]; intros acc Hall Hacc.
  - destruct Hacc as [-> | [_ []]]. reflexivity.
  - cbn [fold_left]. apply IH.
    + intros q Hq. apply Hall. right. exact Hq.
    + destruct (Hall a (or_introl eq_refl)) as [-> | Ha].
      * left. destruct Hacc as [-> | [Hlow _]].
        -- destruct (Player.legsWon w <? Player.legsWon w); reflexivity.
        -- assert (H : (Player.legsWon acc <? Player.legsWon w) = true)
             by (apply Z.ltb_lt; lia).
           rewrite H. reflexivity.
      * destruct Hacc as [-> | [Hlow Hin]].
        -- left.
           assert (H : (Player.legsWon w <? Player.legsWon a) = false)
             by (apply Z.ltb_ge; lia).
           rewrite H. reflexivity.
        -- right. destruct Hin as [-> | Hin]; [lia|].
           split; [|exact Hin].
           destruct (Player.legsWon acc <? Player.legsWon a); assumption.
Qed.

(** X27: the finished game names the player who threw the last dart.  In a
    game where nobody has the legs needed yet, a dart after which the game
    is finished was thrown by the player the winner card then shows: the
    card's player sits at the thrower's position, has the thrower's name
    and one leg more, and score 0. *)
Theorem finishing_dart_names_the_thrower
        (s s' : GameState) (p : Player.t) (dart : DartScore) :
  nth_error (players s) (currentPlayerIndex s) = Some p ->
  (forall q, In q (players s) -> Player.legsWon q < legsToWin s) ->
  gameFinished s = false ->
  registerDart s dart = Some s' ->
  gameFinished s' = true ->
  exists w,
    GameFinished.winner s' = Some w /\
    nth_error (players s') (currentPlayerIndex s) = Some w /\
    Player.name w = Player.name p /\
    Player.legsWon w = Player.legsWon p + 1 /\
    Player.score w = 0.
Proof.
  intros Hp Hlegs Hnot Hreg Hfin.
  destruct (nonempty_of_nth s p Hp) as [Hne Hlt].
  unfold registerDart in Hreg. rewrite Hne, Hp, orb_false_r in Hreg.
  destruct (dartsRemaining s <=? 0);
    [injection Hreg as <-; congruence|].
  destruct (isBustDart (Player.score p - points dart) dart);
    [injection Hreg as <-; cbn in Hfin; congruence|].
  cbn [Player.id Player.name Player.score Player.initialScore Player.dartsThrown
       Player.legsWon Player.currentTurn Player.history] in Hreg.
  destruct (Player.score p - points dart =? 0) eqn:Ez;
    [|injection Hreg as <-; cbn in Hfin; congruence].
  destruct (legsToWin s <=? Player.legsWon p + 1) eqn:El;
    [|injection Hreg as <-; cbn in Hfin; congruence].
  apply Z.eqb_eq in Ez. apply Z.leb_le in El.
  injection Hreg as <-.
  set (w := Player.mk _ _ _ _ _ _ _ _).
  exists w.
  assert (Hnth : nth_error (setNth (currentPlayerIndex s) w (players s))
                           (currentPlayerIndex s) = Some w)
    by (apply nth_error_setNth_eq; exact Hlt).
  assert (Hall : forall q, In q (setNth (currentPlayerIndex s) w (players s)) ->
                           q = w \/ Player.legsWon q < legsToWin s).
  { intros q Hq. destruct (In_setNth _ _ _ _ Hq) as [-> | Hin];
      [left; reflexivity | right; apply Hlegs; exact Hin]. }
  split; [|split; [exact Hnth | split; [reflexivity | split; [reflexivity | exact Ez]]]].
  unfold GameFinished.winner. cbn [players].
  destruct (setNth (currentPlayerIndex s) w (players s)) as [| first rest] eqn:Es;
    [destruct (currentPlayerIndex s); discriminate|].
  f_equal. apply (fold_leader (legsToWin s) w); [exact El | exact Hall |].
  destruct (Hall first (or_introl eq_refl)) as [-> | Hlow];
    [left; reflexivity | right].
  split; [exact Hlow|]. apply nth_error_In with (n := currentPlayerIndex s). exact Hnth.
Qed.

End Winner.

Section BustWarning.

Local Open Scope Z_scope.

Lemma registerAll_scoring_unfinished (ds : list DartScore) :
  forall (s s1 : GameState) (p : Player.t),
    nth_error (players s) (currentPlayerIndex s) = Some p ->
    Z.of_nat (List.length ds) <= dartsRemaining s ->
    scoring (Player.score p) ds = true ->
    registerAll s ds = Some s1 ->
    gameFinished s1 = gameFinished s.
Proof.
  induction ds as [| d rest IH]; intros s s1 p Hp Hdarts Hsc Hreg.
  - cbn in Hreg. injection Hreg as <-. reflexivity.
  - cbn [scoring] in Hsc. apply andb_true_iff in Hsc. destruct Hsc as [Hd Hrest].
    apply Z.leb_le in Hd.
    cbn [List.length] in Hdarts. rewrite Nat2Z.inj_succ in Hdarts.
    destruct (nonempty_of_nth s p Hp) as [_ Hlt].
    cbn [registerAll] in Hreg.
    rewrite (registerDart_scoring s p d Hp ltac:(lia) Hd) in Hreg.
    set (p1 := Player.mk _ _ (Player.score p - points d) _ _ _ _ _) in Hreg.
    set (s0 := mkGameState _ _ _ _ _ _ _ _) in Hreg.
    rewrite (IH s0 s1 p1); [reflexivity | | | exact Hrest | exact Hreg].
    + cbn. apply nth_error_setNth_eq. exact Hlt.
    + cbn. lia.
Qed.

(** X28: the bust warning counts the turn twice.  After one or more darts
    that each leave at least 2, thrown from the start of a turn by a player
    on [score], the current-turn card shows its warning exactly when
    [score] minus twice the turn's total is below 2: the store has already
    taken the darts off the score the card subtracts them from. *)
Theorem bust_warning_counts_the_turn_twice
        (s : GameState) (p : Player.t) (ds : list DartScore) :
  nth_error (players s) (currentPlayerIndex s) = Some p ->
  gameFinished s = false ->
  currentTurn s = [] ->
  ds <> [] ->
  Z.of_nat (List.length ds) <= dartsRemaining s ->
  scoring (Player.score p) ds = true ->
  exists s1,
    registerAll s ds = Some s1 /\
    CurrentTurnView.warningShown s1 = (Player.score p - 2 * turnTotal ds <? 2).
Proof.
  intros Hp Hnot Hct Hds Hdarts Hsc.
  destruct (nonempty_of_nth s p Hp) as [_ Hlt].
  destruct (registerAll_scoring ds s p Hp Hdarts Hsc)
    as (s1 & Hs1 & Hpl & Hidx & Hct1).
  exists s1. split; [exact Hs1|].
  pose proof (registerAll_scoring_unfinished ds s s1 p Hp Hdarts Hsc Hs1) as Hfin.
  unfold CurrentTurnView.warningShown, CurrentTurnView.potentialBust, getCurrentPlayer.
  rewrite Hidx, Hpl, (nth_error_setNth_eq _ _ _ Hlt), Hfin, Hnot, Hct1, Hct.
  cbn [app Player.score].
  destruct ds as [| d rest]; [contradiction|].
  cbn [List.length]. replace (0 <? S (List.length rest))%nat with true
    by (symmetry; apply Nat.ltb_lt; lia).
  rewrite andb_true_r. f_equal. lia.
Qed.

End BustWarning.

Section Witnesses.

Lemma finishing_dart_names_the_thrower_witness :
  exists w,
    GameFinished.winner
      (mkGameState 501
         [ Player.mk 1 "Ann" 0 40 10 3 true [];
           Player.mk 2 "Bob" 501 501 9 1 false [] ]%string
         3 0 0 true true [double20]) = Some w /\
    Player.name w = "Ann"%string.
Proof.
  destruct (finishing_dart_names_the_thrower
              lastLeg
              (mkGameState 501
                 [ Player.mk 1 "Ann" 0 40 10 3 true [];
                   Player.mk 2 "Bob" 501 501 9 1 false [] ]%string
                 3 0 0 true true [double20])
              (Player.mk 1 "Ann" 40 40 9 2 true [])
              double20)
    as (w & Hw & _ & Hname & _).
  - reflexivity.
  - intros q [<- | [<- | []]]; vm_compute; reflexivity.
  - reflexivity.
  - reflexivity.
  - reflexivity.
  - exists w. split; [exact Hw | exact Hname].
Defined.

Lemma bust_warning_counts_the_turn_twice_witness :
  exists s1,
    registerAll onHundred [treble20] = Some s1 /\
    CurrentTurnView.warningShown s1 = true.
Proof.
  destruct (bust_warning_counts_the_turn_twice
              onHundred (Player.mk 1 "Ann" 100 100 9 0 true []) [treble20])
    as (s1 & Hs1 & Hw).
  - reflexivity.
  - reflexivity.
  - reflexivity.
  - discriminate.
  - vm_compute. discriminate.
  - reflexivity.
  - exists s1. split; [exact Hs1 | exact Hw].
Defined.

End Witnesses.

End GameViewFacts.
